(** * chloros: a user-level cooperative threading runtime

    Shallow embedding of [src/chloros.cpp] and the properties of its
    scheduler: thread selection in [Yield], stack priming in [Spawn],
    blocking in [Wait], reclamation in [GarbageCollect] and the exit path
    of [ThreadEntry]. *)

From Stdlib Require Import ZArith Lia.
From Stdlib Require DecimalString HexadecimalString DecimalZ HexadecimalN.
From stdpp Require Import base option list strings gmap.

Local Open Scope Z_scope.

(** ** Data model *)

(** [Thread::State].  The classes are declared in [chloros.h], which is not
    among the sources: their members are those that [chloros.cpp] uses. *)
Inductive State : Set := kWaiting | kReady | kRunning | kZombie.

#[global] Instance State_eq_dec : EqDecision State.
Proof. solve_decision. Defined.

(** [uint64_t] arithmetic. *)
Definition wrap64 (z : Z) : Z := z mod 2 ^ 64.

(** [constexpr int const kStackSize{1 << 21}]. *)
Definition kStackSize : Z := Z.shiftl 1 21.

(** [Context]: the registers that survive a context switch, as
    [Thread::PrintDebug] lists them.  A register the constructor leaves
    uninitialised is [None]. *)
Record Context : Set := mkContext {
  rsp : option Z;
  r15 : option Z;
  r14 : option Z;
  r13 : option Z;
  r12 : option Z;
  rbx : option Z;
  rbp : option Z;
  mxcsr : Z;
  x87 : Z
}.

(** A stack buffer returned by [malloc(kStackSize)], seen as an array of
    [uint64_t]: [slots] maps the index of a written word to its value; a
    word never written is absent. *)
Record StackBuf : Type := mkStackBuf {
  base : Z;
  slots : gmap Z Z
}.

(** Control state of a thread of execution: the calls into the runtime
    that are still to be made, each with what follows its return.  [Ret] is
    the return of the enclosing function.  The last three constructors are
    places inside the runtime itself: an assignment to
    [current_thread->state], the head of the loop of [Wait], and the
    assembly entry point [start_thread]. *)
Inductive Code : Type :=
| Ret
| Abort
| cInitialize (k : Code)
| cSpawn (fn arg : Z) (k : Code)
| cYield (only_ready : option bool) (k : bool -> Code)
| cWait (k : Code)
| cGarbageCollect (k : Code)
| cGetThreadCount (k : Z * Z -> Code)
| cBump (addr : Z) (k : Code)
| cOutput (v : Z) (k : Code)
| cSetState (s : State) (k : Code)
| cWaitLoop (k : Code)
| cStartThread.

(** [seq c k]: run [c]; when it returns, go on with [k]. *)
Fixpoint seq (c k : Code) : Code :=
  match c with
  | Ret => k
  | Abort => Abort
  | cInitialize c' => cInitialize (seq c' k)
  | cSpawn fn arg c' => cSpawn fn arg (seq c' k)
  | cYield b f => cYield b (fun r => seq (f r) k)
  | cWait c' => cWait (seq c' k)
  | cGarbageCollect c' => cGarbageCollect (seq c' k)
  | cGetThreadCount f => cGetThreadCount (fun r => seq (f r) k)
  | cBump a c' => cBump a (seq c' k)
  | cOutput v c' => cOutput v (seq c' k)
  | cSetState s c' => cSetState s (seq c' k)
  | cWaitLoop c' => cWaitLoop (seq c' k)
  | cStartThread => cStartThread
  end.

(** [Thread].  [id], [state], [stack] and [context] are the members of the
    class.  [serial] is the identity of the heap object (the n-th [Thread]
    ever constructed; [id] is [serial] modulo 2^64).  [resume] is where
    [ContextSwitch] lands when it loads [context]: what the return address
    at the saved stack pointer denotes. *)
Record Thread : Type := mkThread {
  id : Z;
  state : State;
  stack : option StackBuf;
  context : Context;
  serial : nat;
  resume : Code
}.

Definition set_state (s : State) (t : Thread) : Thread :=
  mkThread (id t) s (stack t) (context t) (serial t) (resume t).

Definition set_resume (c : Code) (t : Thread) : Thread :=
  mkThread (id t) (state t) (stack t) (context t) (serial t) c.

Definition set_rsp (a : Z) (c : Context) : Context :=
  mkContext (Some a) (r15 c) (r14 c) (r13 c) (r12 c) (rbx c) (rbp c)
            (mxcsr c) (x87 c).

(** ** The shared pool *)

(** The selection loop of [Yield]: the first thread that is [kWaiting]
    when [only_ready] is false, or [kReady]; it is erased from the queue. *)
Fixpoint find_next (only_ready : bool) (queue : list Thread)
  : option (Thread * list Thread) :=
  match queue with
  | [] => None
  | t :: rest =>
      if negb only_ready && bool_decide (state t = kWaiting) then Some (t, rest)
      else if bool_decide (state t = kReady) then Some (t, rest)
      else match find_next only_ready rest with
           | Some (next_thread, rest') => Some (next_thread, t :: rest')
           | None => None
           end
  end.

(** The loop of [GarbageCollect]: the queue that is left, and the threads
    that were destroyed, in the order of their destruction. *)
Fixpoint reap (queue : list Thread) : list Thread * list Thread :=
  match queue with
  | [] => ([], [])
  | t :: rest =>
      let '(kept, destroyed) := reap rest in
      if bool_decide (state t = kZombie) then (kept, t :: destroyed)
      else (t :: kept, destroyed)
  end.

(** The loop of [GetThreadCount]: [(ready, zombie)]. *)
Fixpoint count_threads (queue : list Thread) (ready zombie : Z) : Z * Z :=
  match queue with
  | [] => (ready, zombie)
  | t :: rest =>
      if bool_decide (state t = kZombie) then count_threads rest ready (zombie + 1)
      else count_threads rest (ready + 1) zombie
  end.

(** ** The runtime as a machine *)

(** What the runtime does to the shared queue, to the threads and to the
    mutex, in the order in which it does it.  Threads are named by their
    [serial], kernel threads by their index. *)
Inductive Event : Set :=
| EvLock
| EvUnlock
| EvInsertFront (who : nat)
| EvErase (who : nat)
| EvPushBack (who : nat)
| EvSetState (who : nat) (s : State)
| EvSetCurrent (kthread who : nat)
| EvContextSwitch (from to : nat)
| EvFree (addr : Z)
| EvAbort (who : option nat)
| EvOutput (v : Z).

(** What the runtime takes from its surroundings.  [yield_default] is the
    default argument of [Yield], declared in [chloros.h]; [start_thread] is
    the address of the assembly entry point; [malloc n] is the result of
    the n-th call [malloc(kStackSize)], 0 for a null pointer; [text fn arg]
    is what the function at address [fn] does when called with [arg]. *)
Record Platform : Type := mkPlatform {
  yield_default : bool;
  start_thread : Z;
  malloc : nat -> Z;
  text : Z -> Z -> Code
}.

(** The [thread_local] variables of a kernel thread, and the code it is
    executing. *)
Record KThread : Type := mkKThread {
  current_thread : option Thread;
  initial_thread_id : Z;
  pc : Code
}.

(** The process: the globals of [chloros.cpp] ([thread_queue],
    [Thread::next_id]), the kernel threads, the number of [Thread] objects
    constructed and of stacks allocated so far, the memory cells the user
    functions count in, the events so far, and whether [ASSERT(false)] was
    hit. *)
Record Machine : Type := mkMachine {
  thread_queue : list Thread;
  next_id : Z;
  created : nat;
  mallocs : nat;
  kthreads : list KThread;
  cells : Z -> nat;
  trace : list Event;
  aborted : bool
}.

Definition set_queue (q : list Thread) (m : Machine) : Machine :=
  mkMachine q (next_id m) (created m) (mallocs m) (kthreads m) (cells m)
            (trace m) (aborted m).

Definition set_kthread (i : nat) (kt : KThread) (m : Machine) : Machine :=
  mkMachine (thread_queue m) (next_id m) (created m) (mallocs m)
            (<[i := kt]> (kthreads m)) (cells m) (trace m) (aborted m).

Definition emit (evs : list Event) (m : Machine) : Machine :=
  mkMachine (thread_queue m) (next_id m) (created m) (mallocs m) (kthreads m)
            (cells m) (trace m ++ evs) (aborted m).

Definition set_cells (c : Z -> nat) (m : Machine) : Machine :=
  mkMachine (thread_queue m) (next_id m) (created m) (mallocs m) (kthreads m)
            c (trace m) (aborted m).

Definition set_aborted (m : Machine) : Machine :=
  mkMachine (thread_queue m) (next_id m) (created m) (mallocs m) (kthreads m)
            (cells m) (trace m) true.

Definition set_pc (c : Code) (kt : KThread) : KThread :=
  mkKThread (current_thread kt) (initial_thread_id kt) c.

Definition set_current (t : Thread) (kt : KThread) : KThread :=
  mkKThread (Some t) (initial_thread_id kt) (pc kt).

(** [Thread::~Thread]: [free(stack)]; freeing a null pointer does nothing. *)
Definition destroy (t : Thread) : list Event :=
  match stack t with
  | Some buf => [EvFree (base buf)]
  | None => []
  end.

(** [Thread::Thread(bool create_stack)].  A [Thread] that was never
    suspended and never primed has nowhere to resume: [resume] is [Abort]. *)
Definition Thread_new (E : Platform) (create_stack : bool) (m : Machine)
  : Thread * Machine :=
  let a := malloc E (mallocs m) in
  let t := {| id := next_id m;
              state := kWaiting;
              stack := if create_stack
                       then if bool_decide (a = 0) then None
                            else Some (mkStackBuf a ∅)
                       else None;
              context := mkContext None None None None None None None
                                   0x1F80 0x037F;
              serial := created m;
              resume := Abort |} in
  (t, mkMachine (thread_queue m) (wrap64 (next_id m + 1)) (S (created m))
                (if create_stack then S (mallocs m) else mallocs m)
                (kthreads m) (cells m) (trace m) (aborted m)).

(** [Initialize] on kernel thread [i], then [k]. *)
Definition Initialize (E : Platform) (i : nat) (k : Code) (kt : KThread)
  (m : Machine) : Machine :=
  let '(new_thread, m) := Thread_new E false m in
  let new_thread := set_state kWaiting new_thread in
  let freed := match current_thread kt with
               | Some old => destroy old
               | None => []
               end in
  set_kthread i (mkKThread (Some new_thread) (id new_thread) k) (emit freed m).

(** Modelled from the spec: the assembly routine [context_switch], which is
    not among the sources.  It stores the live registers into the context
    of [old_thread], so that [old_thread] resumes at [return_to], the return
    of this very call, and it loads the context of [new_thread]: the result
    is [old_thread] as it is left, and the place where [new_thread] was
    suspended, where execution goes on. *)
Definition ContextSwitch (old_thread new_thread : Thread) (return_to : Code)
  : Thread * Code :=
  (set_resume return_to old_thread, resume new_thread).

(** [Yield(only_ready)] on kernel thread [i]; [ret b] is what the caller
    does when [Yield] returns [b].  When a thread is found, the running
    thread is suspended inside [ContextSwitch]: when it is resumed it runs
    [GarbageCollect] and returns [true].  The queue owns the suspended
    thread by the time [ContextSwitch] writes to its context through
    [old_context].  [None]: a null [current_thread] is dereferenced. *)
Definition Yield (i : nat) (only_ready : bool) (ret : bool -> Code)
  (m : Machine) : option Machine :=
  kt ← kthreads m !! i;
  match find_next only_ready (thread_queue m) with
  | None => Some (set_kthread i (set_pc (ret false) kt) m)
  | Some (next_thread, queue) =>
      cur ← current_thread kt;
      let demoted := bool_decide (state cur = kRunning) in
      let cur := if demoted then set_state kReady cur else cur in
      let next_thread := set_state kRunning next_thread in
      let '(cur, landing) :=
        ContextSwitch cur next_thread (cGarbageCollect (ret true)) in
      Some (set_kthread i
              (mkKThread (Some next_thread) (initial_thread_id kt) landing)
              (set_queue (queue ++ [cur])
                 (emit ([EvErase (serial next_thread)]
                        ++ (if demoted then [EvSetState (serial cur) kReady]
                            else [])
                        ++ [EvSetState (serial next_thread) kRunning;
                            EvPushBack (serial cur);
                            EvSetCurrent i (serial next_thread);
                            EvContextSwitch (serial cur) (serial next_thread)])
                       m)))
  end.

(** The part of [Spawn] before its call of [Yield]: the new thread with its
    primed stack, and the machine with that thread at the front of the
    queue.  [None]: [malloc] returned a null pointer, which is written
    through. *)
Definition Spawn_setup (E : Platform) (fn arg : Z) (m : Machine)
  : option (Thread * Machine) :=
  let '(new_thread, m) := Thread_new E true m in
  buf ← stack new_thread;
  let idx := kStackSize / 8 - 1 in
  let idx := idx - 1 in
  let mem := <[idx := arg]> (slots buf) in
  let idx := idx - 1 in
  let mem := <[idx := fn]> mem in
  let idx := idx - 1 in
  let mem := <[idx := start_thread E]> mem in
  let new_thread :=
    mkThread (id new_thread) (state new_thread)
             (Some (mkStackBuf (base buf) mem))
             (set_rsp (wrap64 (base buf + 8 * idx)) (context new_thread))
             (serial new_thread) cStartThread in
  Some (new_thread,
        set_queue (new_thread :: thread_queue m)
                  (emit [EvInsertFront (serial new_thread)] m)).

(** [Spawn(fn, arg)] on kernel thread [i], then [k]. *)
Definition Spawn (E : Platform) (i : nat) (fn arg : Z) (k : Code)
  (m : Machine) : option Machine :=
  '(_, m) ← Spawn_setup E fn arg m;
  Yield i (yield_default E) (fun _ => k) m.

(** [GarbageCollect]: each zombie is destroyed, then erased. *)
Definition GarbageCollect (m : Machine) : Machine :=
  let '(kept, destroyed) := reap (thread_queue m) in
  set_queue kept
    (emit (flat_map (fun t => destroy t ++ [EvErase (serial t)]) destroyed) m).

(** [GetThreadCount]: the counts, and the machine after the call. *)
Definition GetThreadCount (m : Machine) : (Z * Z) * Machine :=
  (count_threads (thread_queue m) 0 0, emit [EvLock; EvUnlock] m).

(** [ThreadEntry(fn, arg)]. *)
Definition ThreadEntry (E : Platform) (fn arg : Z) : Code :=
  seq (text E fn arg) (cSetState kZombie (cYield None (fun _ => Abort))).

(** Modelled from the spec: the assembly entry point [start_thread], which
    is not among the sources.  [ContextSwitch] has popped the return address
    at the saved stack pointer; the entry point finds the user's [fn] at the
    top of the stack and the argument above it, and calls [ThreadEntry]. *)
Definition StartThread (E : Platform) (i : nat) (kt : KThread) (m : Machine)
  : option Machine :=
  cur ← current_thread kt;
  buf ← stack cur;
  sp ← rsp (context cur);
  let idx := (sp - base buf) / 8 in
  fn ← slots buf !! (idx + 1);
  arg ← slots buf !! (idx + 2);
  Some (set_kthread i (set_pc (ThreadEntry E fn arg) kt) m).

(** One step of kernel thread [i]: the call at the head of its code, up to
    the point where the call returns or the running thread is suspended.
    [None]: there is no such kernel thread, or a null pointer is
    dereferenced.  [Abort] is [ASSERT(false)]: the process is aborted, and
    nothing moves after that. *)
Definition step (E : Platform) (i : nat) (m : Machine) : option Machine :=
  if aborted m then Some m else
  kt ← kthreads m !! i;
  match pc kt with
  | Ret => Some m
  | Abort =>
      Some (set_aborted (emit [EvAbort (serial <$> current_thread kt)] m))
  | cInitialize k => Some (Initialize E i k kt m)
  | cSpawn fn arg k => Spawn E i fn arg k m
  | cYield a k => Yield i (default (yield_default E) a) k m
  | cWait k =>
      cur ← current_thread kt;
      Some (set_kthread i
              (set_pc (cWaitLoop k) (set_current (set_state kWaiting cur) kt))
              (emit [EvSetState (serial cur) kWaiting] m))
  | cWaitLoop k =>
      Yield i true (fun b => if b then cSetState kWaiting (cWaitLoop k) else k) m
  | cSetState s k =>
      cur ← current_thread kt;
      Some (set_kthread i (set_pc k (set_current (set_state s cur) kt))
              (emit [EvSetState (serial cur) s] m))
  | cGarbageCollect k => Some (set_kthread i (set_pc k kt) (GarbageCollect m))
  | cGetThreadCount k =>
      let '(r, m) := GetThreadCount m in
      Some (set_kthread i (set_pc (k r) kt) m)
  | cBump a k =>
      Some (set_kthread i (set_pc k kt)
              (set_cells (fun x => if bool_decide (x = a) then S (cells m a)
                                   else cells m x) m))
  | cOutput v k => Some (set_kthread i (set_pc k kt) (emit [EvOutput v] m))
  | cStartThread => StartThread E i kt m
  end.

(** A run: the kernel threads take steps in the order of the schedule. *)
Fixpoint run (E : Platform) (schedule : list nat) (m : Machine)
  : option Machine :=
  match schedule with
  | [] => Some m
  | i :: schedule' =>
      match step E i m with
      | Some m' => run E schedule' m'
      | None => None
      end
  end.

(** The process at its start: one kernel thread for each main function, no
    thread object yet. *)
Definition boot (mains : list Code) : Machine :=
  mkMachine [] 0 0 0 (map (fun c => mkKThread None 0 c) mains)
            (fun _ => 0%nat) [] false.

(** ** Predicates of the specification *)

(** Eligibility as the specification words it: a thread in state Ready, or,
    only when [only_ready] is false, a thread in state Ready or Waiting. *)
Definition eligible (only_ready : bool) (t : Thread) : bool :=
  bool_decide (state t = kReady)
  || negb only_ready && bool_decide (state t = kReady ∨ state t = kWaiting).

(** The state in which [Yield] leaves the thread it suspends. *)
Definition demote (t : Thread) : Thread :=
  if bool_decide (state t = kRunning) then set_state kReady t else t.

(** The events of a successful [Yield] on kernel thread [i], from [cur] to
    [next]. *)
Definition switch_events (i : nat) (cur next : Thread) : list Event :=
  [EvErase (serial next)]
  ++ (if bool_decide (state cur = kRunning)
      then [EvSetState (serial cur) kReady] else [])
  ++ [EvSetState (serial next) kRunning;
      EvPushBack (serial cur);
      EvSetCurrent i (serial next);
      EvContextSwitch (serial cur) (serial next)].

(** ** Ownership *)

(** The current threads of the kernel threads. *)
Definition running (kts : list KThread) : list Thread :=
  omap current_thread kts.

(** The thread objects that exist: those in the queue and the current ones,
    by serial. *)
Definition owned (m : Machine) : list nat :=
  serial <$> (thread_queue m ++ running (kthreads m)).

Definition not_abort (e : Event) : Prop := forall w, e <> EvAbort w.

(** Every thread object is owned once, was constructed before now, and no
    assertion has failed unless the process is aborted. *)
Definition wf (m : Machine) : Prop :=
  NoDup (owned m) /\
  Forall (fun o => (o < created m)%nat) (owned m) /\
  (aborted m = false -> Forall not_abort (trace m)).

(** The thread with serial [o] is out of the game: it is not running on any
    kernel thread, it is a Zombie if it is still in the queue, and it has
    not failed an assertion. *)
Definition gone (o : nat) (m : Machine) : Prop :=
  (o < created m)%nat /\
  (forall t, t ∈ running (kthreads m) -> serial t <> o) /\
  (forall t, t ∈ thread_queue m -> serial t = o -> state t = kZombie) /\
  Forall (fun e => e <> EvAbort (Some o)) (trace m).

(** ** Observations and scenarios *)

(** Whether every change of the queue in [evs] is made with the mutex held;
    [held] says whether it is held at the start. *)
Fixpoint guarded (held : bool) (evs : list Event) : bool :=
  match evs with
  | [] => true
  | EvLock :: evs' => guarded true evs'
  | EvUnlock :: evs' => guarded false evs'
  | EvInsertFront _ :: evs' => held && guarded held evs'
  | EvErase _ :: evs' => held && guarded held evs'
  | EvPushBack _ :: evs' => held && guarded held evs'
  | _ :: evs' => guarded held evs'
  end.

(** What the user code has printed. *)
Definition outputs (evs : list Event) : list Z :=
  omap (fun e => match e with EvOutput v => Some v | _ => None end) evs.

(** A user function that adds 1 to the counter its argument points to, and
    the address of a counter. *)
Definition bump_fn : Z := 0x401000.
Definition counter_addr : Z := 0x601040.

(** A platform for the scenarios: [default] is the default argument of
    [Yield]; stacks are handed out one after the other from a 16-byte
    aligned address. *)
Definition demo_platform (default : bool) : Platform :=
  mkPlatform default 0x400800
    (fun n => 0x7f0000000000 + Z.of_nat n * kStackSize)
    (fun fn arg => if bool_decide (fn = bump_fn) then cBump arg Ret else Ret).

(** [n] calls of [Yield(true)], the result of each printed. *)
Fixpoint yields (n : nat) (k : Code) : Code :=
  match n with
  | O => k
  | S n' => cYield (Some true) (fun b => cOutput (Z.b2z b) (yields n' k))
  end.

Definition report : Code :=
  cGetThreadCount (fun r => cOutput (fst r) (cOutput (snd r) Ret)).

(** [Initialize]; [Spawn(f, a)] with [f] adding 1 to the counter at [a];
    [n] times [Yield(true)]; [GetThreadCount], its two counts printed. *)
Definition counter_scenario (n : nat) : Code :=
  cInitialize (cSpawn bump_fn counter_addr (yields n report)).

(** Two kernel threads: the first initializes, spawns and yields; the
    second initializes and yields. *)
Definition two_kthreads : list Code :=
  [cInitialize (cSpawn bump_fn counter_addr
                  (cYield (Some false) (fun _ => Ret)));
   cInitialize (cYield (Some false) (fun _ => Ret))].

(** The machine that a schedule leads to, and one of its kernel threads. *)
Definition after (E : Platform) (schedule : list nat) (mains : list Code)
  : Machine :=
  default (boot mains) (run E schedule (boot mains)).

Definition kthread_at (m : Machine) (i : nat) : KThread :=
  default (mkKThread None 0 Ret) (kthreads m !! i).

Definition current_at (m : Machine) (i : nat) : Thread :=
  default (fst (Thread_new (demo_platform false) false m))
          (current_thread (kthread_at m i)).

(** ** Tactics *)

(** Peels the bindings of a successful computation in the option monad. *)
Ltac option_inv H :=
  repeat match type of H with
         | (?x ≫= _) = Some _ =>
             let Hx := fresh "Hx" in
             destruct x eqn:Hx; cbn in H; [|discriminate H]
         end.

(** ** Further definitions *)

(** The threads that exist: those of the queue and the current ones. *)
Definition live (m : Machine) : list Thread :=
  thread_queue m ++ running (kthreads m).

(** What [cBump a] does to the memory. *)
Definition bump (a : Z) (c : Z -> nat) : Z -> nat :=
  fun x => if bool_decide (x = a) then S (c a) else c x.

(** A user function that only counts: it adds 1 to each of the cells of
    [l] in turn and returns. *)
Fixpoint bumps (l : list Z) : Code :=
  match l with
  | [] => Ret
  | a :: l' => cBump a (bumps l')
  end.

(** The memory after [bumps l]. *)
Definition bump_all (l : list Z) (c : Z -> nat) : Z -> nat :=
  foldl (fun c a => bump a c) c l.

(** The identifiers are the serials modulo 2^64: those of the threads that
    exist, and the next one to be given. *)
Definition ids_ok (m : Machine) : Prop :=
  next_id m = wrap64 (Z.of_nat (created m)) /\
  forall t, t ∈ live m -> id t = wrap64 (Z.of_nat (serial t)).

(** ** Programs that use the runtime as intended *)

(** The end of [ThreadEntry], after the user function has returned, and the
    call of [Yield] in it. *)
Definition thread_exit : Code :=
  cSetState kZombie (cYield None (fun _ => Abort)).

Definition last_yield : Code := cYield None (fun _ => Abort).

(** [calls leaf c]: the code [c] calls [Spawn], [Yield], [Wait],
    [GarbageCollect] and [GetThreadCount], counts and prints, in any order
    and as often as it likes, may be inside the loop of [Wait], and ends in
    [leaf].  It never calls [Initialize].  With [Ret] for [leaf] this is a
    user function, or a main function after its call of [Initialize]. *)
Inductive calls (leaf : Code) : Code -> Prop :=
| calls_leaf : calls leaf leaf
| calls_Spawn fn arg k : calls leaf k -> calls leaf (cSpawn fn arg k)
| calls_Yield a k : (forall b, calls leaf (k b)) -> calls leaf (cYield a k)
| calls_Wait k : calls leaf k -> calls leaf (cWait k)
| calls_GarbageCollect k : calls leaf k -> calls leaf (cGarbageCollect k)
| calls_GetThreadCount k :
    (forall r, calls leaf (k r)) -> calls leaf (cGetThreadCount k)
| calls_Bump a k : calls leaf k -> calls leaf (cBump a k)
| calls_Output v k : calls leaf k -> calls leaf (cOutput v k)
| calls_SetWaiting k : calls leaf k -> calls leaf (cSetState kWaiting k)
| calls_WaitLoop k : calls leaf k -> calls leaf (cWaitLoop k).

(** A thread without a stack of its own is the initial thread of a kernel
    thread: its code ends where the main function returns.  A thread with a
    stack was made by [Spawn]: its code ends in the end of [ThreadEntry]. *)
Definition leaf_of (t : Thread) : Code :=
  match stack t with
  | None => Ret
  | Some _ => thread_exit
  end.

Definition is_initial (t : Thread) : nat :=
  match stack t with None => 1 | Some _ => 0 end.

Definition is_spawned (t : Thread) : nat :=
  match stack t with None => 0 | Some _ => 1 end.

(** A current thread [t] that executes [c]: it is not a Zombie and is in
    its code or, if spawned, at the entry point; or it is a spawned thread
    that has become a Zombie and is at the last [Yield]. *)
Definition running_ok (t : Thread) (c : Code) : Prop :=
  (state t <> kZombie /\
   (calls (leaf_of t) c \/ (is_spawned t = 1%nat /\ c = cStartThread))) \/
  (is_spawned t = 1%nat /\ state t = kZombie /\ c = last_yield).

(** A thread of the queue: it is not Running; it is suspended in its code
    or, if spawned, primed for the entry point; or it is a spawned thread
    that is a Zombie. *)
Definition queued_ok (t : Thread) : Prop :=
  state t <> kRunning /\
  ((state t <> kZombie /\
    (calls (leaf_of t) (resume t) \/
     (is_spawned t = 1%nat /\ resume t = cStartThread))) \/
   (is_spawned t = 1%nat /\ state t = kZombie)).

(** A kernel thread: before [Initialize] it has no current thread and is
    about to call [Initialize]; afterwards its current thread is as it
    should be. *)
Definition kthread_ok (kt : KThread) : Prop :=
  match current_thread kt with
  | None => exists u, pc kt = cInitialize u /\ calls Ret u
  | Some t => running_ok t (pc kt)
  end.

(** The process is not aborted, its threads are as they should be, and as
    many initial threads wait in the queue as spawned threads are running
    on the kernel threads. *)
Definition sound (m : Machine) : Prop :=
  aborted m = false /\
  Forall queued_ok (thread_queue m) /\
  Forall kthread_ok (kthreads m) /\
  sum_list_with is_initial (thread_queue m)
  = sum_list_with is_spawned (running (kthreads m)).

(** ** [Thread::PrintDebug] *)

Definition newline : string := String (Ascii.ascii_of_nat 10) EmptyString.
Definition tab : string := String (Ascii.ascii_of_nat 9) EmptyString.

(** [%PRId64] given a [uint64_t]: its 64 bits read as a signed number, in
    decimal. *)
Definition fmt_d64 (v : Z) : string :=
  DecimalString.NilZero.string_of_int
    (Z.to_int (if decide (wrap64 v < 2 ^ 63) then wrap64 v
               else wrap64 v - 2 ^ 64)).

(** [%PRIx64]: 64 bits in hexadecimal, lower case, no leading zero. *)
Definition fmt_x64 (v : Z) : string :=
  HexadecimalString.NilZero.string_of_uint (N.to_hex_uint (Z.to_N (wrap64 v))).

(** [%x]: an [unsigned int] in hexadecimal. *)
Definition fmt_x (v : Z) : string :=
  HexadecimalString.NilZero.string_of_uint
    (N.to_hex_uint (Z.to_N (v mod 2 ^ 32))).

(** The [switch] over the state. *)
Definition state_name (s : State) : string :=
  match s with
  | kWaiting => "waiting"
  | kReady => "ready"
  | kRunning => "running"
  | kZombie => "zombie"
  end.

(** [Thread::PrintDebug]: what its calls of [fprintf] write to [stderr],
    one string for each call.  [fmt_p] is the text of [%p], which the
    implementation defines, for the address of the stack ([None] for a null
    pointer).  [None]: a register that was never written is read. *)
Definition PrintDebug (fmt_p : option Z -> string) (t : Thread)
  : option (list string) :=
  v_rsp ← rsp (context t);
  v_r15 ← r15 (context t);
  v_r14 ← r14 (context t);
  v_r13 ← r13 (context t);
  v_rbx ← rbx (context t);
  v_rbp ← rbp (context t);
  Some ["Thread " +:+ fmt_d64 (id t) +:+ ": ";
        state_name (state t);
        newline +:+ tab +:+ "Stack: " +:+ fmt_p (base <$> stack t) +:+ newline;
        tab +:+ "RSP: 0x" +:+ fmt_x64 v_rsp +:+ newline;
        tab +:+ "R15: 0x" +:+ fmt_x64 v_r15 +:+ newline;
        tab +:+ "R14: 0x" +:+ fmt_x64 v_r14 +:+ newline;
        tab +:+ "R13: 0x" +:+ fmt_x64 v_r13 +:+ newline;
        tab +:+ "R12: 0x" +:+ fmt_x64 v_r13 +:+ newline;
        tab +:+ "RBX: 0x" +:+ fmt_x64 v_rbx +:+ newline;
        tab +:+ "RBP: 0x" +:+ fmt_x64 v_rbp +:+ newline;
        tab +:+ "MXCSR: 0x" +:+ fmt_x (mxcsr (context t)) +:+ newline;
        tab +:+ "x87: 0x" +:+ fmt_x (x87 (context t)) +:+ newline].

(** The thread [t] with [v] in the saved [r12]. *)
Definition with_r12 (v : option Z) (t : Thread) : Thread :=
  mkThread (id t) (state t) (stack t)
    (mkContext (rsp (context t)) (r15 (context t)) (r14 (context t))
               (r13 (context t)) v (rbx (context t)) (rbp (context t))
               (mxcsr (context t)) (x87 (context t)))
    (serial t) (resume t).

(** ** What [initial_thread_id] is used for *)

(** The kernel thread, and the process, with every [initial_thread_id]
    wiped. *)
Definition forget_initial (kt : KThread) : KThread :=
  mkKThread (current_thread kt) 0 (pc kt).

Definition forget_initial_ids (m : Machine) : Machine :=
  mkMachine (thread_queue m) (next_id m) (created m) (mallocs m)
            (forget_initial <$> kthreads m) (cells m) (trace m) (aborted m).

(** The process with [f j] for the [initial_thread_id] of kernel thread
    [j]. *)
Definition with_initial_ids (f : nat -> Z) (m : Machine) : Machine :=
  mkMachine (thread_queue m) (next_id m) (created m) (mallocs m)
            (imap (fun j kt => mkKThread (current_thread kt) (f j) (pc kt))
                  (kthreads m))
            (cells m) (trace m) (aborted m).

(** ** The stacks *)

(** The addresses of the stacks that the threads of [l] own. *)
Definition stacks (l : list Thread) : list Z :=
  omap (fun t => base <$> stack t) l.

(** The addresses that were given to [free], in order. *)
Definition freed (evs : list Event) : list Z :=
  omap (fun e => match e with EvFree a => Some a | _ => None end) evs.

(** Every address that a thread owns as its stack or that was freed. *)
Definition heap (m : Machine) : list Z :=
  stacks (live m) ++ freed (trace m).

(** No address is there twice, and each is the result of a call of
    [malloc] that was made. *)
Definition heap_ok (E : Platform) (m : Machine) : Prop :=
  NoDup (heap m) /\
  Forall (fun a => exists n, (n < mallocs m)%nat /\ a = malloc E n) (heap m).

(** ** A scenario with three threads *)

(** The function at address 1 spawns the function at address 2 and returns;
    that one calls [Yield(true)] and returns; [Yield]'s default argument is
    [false]. *)
Definition nested_platform : Platform :=
  mkPlatform false 0x400800
    (fun n => 0x7f0000000000 + Z.of_nat n * kStackSize)
    (fun fn arg => if bool_decide (fn = 1) then cSpawn 2 0 Ret
                   else cYield (Some true) (fun _ => Ret)).

Definition nested_scenario : list Code := [cInitialize (cSpawn 1 0 Ret)].

(** ** The selection loop *)

Lemma eligible_inv (only_ready : bool) (t : Thread) :
  eligible only_ready t = true ->
  state t = kReady \/ (only_ready = false /\ state t = kWaiting).
Proof.
  unfold eligible. intros H.
  apply orb_true_iff in H as [H|H].
  - left. by apply bool_decide_eq_true in H.
  - apply andb_true_iff in H as [Hb H].
    apply bool_decide_eq_true in H. destruct only_ready; [done|].
    destruct H; [by left | by right].
Qed.

Lemma find_next_head_test (only_ready : bool) (t : Thread) :
  (if negb only_ready && bool_decide (state t = kWaiting) then true
   else bool_decide (state t = kReady)) = eligible only_ready t.
Proof.
  unfold eligible. destruct only_ready, (state t); reflexivity.
Qed.

Lemma find_next_Some (only_ready : bool) (queue : list Thread)
  (t : Thread) (rest : list Thread) :
  find_next only_ready queue = Some (t, rest) ->
  exists before after,
    queue = before ++ t :: after /\ rest = before ++ after /\
    Forall (fun u => eligible only_ready u = false) before /\
    eligible only_ready t = true.
Proof.
  revert t rest. induction queue as [|u queue IH]; intros t rest H; [done|].
  pose proof (find_next_head_test only_ready u) as Hu. simpl in H.
  destruct (negb only_ready && bool_decide (state u = kWaiting)).
  - injection H as -> ->. exists [], rest. by repeat split.
  - destruct (bool_decide (state u = kReady)).
    + injection H as -> ->. exists [], rest. by repeat split.
    + destruct (find_next only_ready queue) as [[n r]|]; [|done].
      injection H as -> <-.
      destruct (IH _ _ eq_refl) as (bf & af & -> & -> & Hb & He).
      exists (u :: bf), af. repeat split; [|done]. by constructor.
Qed.

Lemma find_next_None (only_ready : bool) (queue : list Thread) :
  find_next only_ready queue = None <->
  Forall (fun u => eligible only_ready u = false) queue.
Proof.
  induction queue as [|u queue IH]; [by split|].
  pose proof (find_next_head_test only_ready u) as Hu. simpl.
  destruct (negb only_ready && bool_decide (state u = kWaiting)).
  { split; [done|]. intros H. inversion H; subst. congruence. }
  destruct (bool_decide (state u = kReady)).
  { split; [done|]. intros H. inversion H; subst. congruence. }
  destruct (find_next only_ready queue) as [[n r]|].
  - split; [done|]. intros H. inversion H; subst.
    by apply IH in H3.
  - split; [|done]. intros _. constructor; [done|]. by apply IH.
Qed.

Lemma find_next_state (only_ready : bool) (queue : list Thread)
  (t : Thread) (rest : list Thread) :
  find_next only_ready queue = Some (t, rest) ->
  state t = kReady \/ (only_ready = false /\ state t = kWaiting).
Proof.
  intros H. apply find_next_Some in H as (? & ? & _ & _ & _ & H).
  by apply eligible_inv.
Qed.

Lemma find_next_Permutation (only_ready : bool) (queue : list Thread)
  (t : Thread) (rest : list Thread) :
  find_next only_ready queue = Some (t, rest) -> queue ≡ₚ t :: rest.
Proof.
  intros H. apply find_next_Some in H as (bf & af & -> & -> & _).
  by rewrite Permutation_middle.
Qed.

(** ** [Yield] *)

Lemma Yield_None (i : nat) (only_ready : bool) (ret : bool -> Code)
  (m : Machine) (kt : KThread) :
  kthreads m !! i = Some kt ->
  find_next only_ready (thread_queue m) = None ->
  Yield i only_ready ret m = Some (set_kthread i (set_pc (ret false) kt) m).
Proof. intros Hkt Hf. unfold Yield. rewrite Hkt. simpl. by rewrite Hf. Qed.

Lemma Yield_Some (i : nat) (only_ready : bool) (ret : bool -> Code)
  (m : Machine) (kt : KThread) (cur next : Thread) (rest : list Thread) :
  kthreads m !! i = Some kt ->
  current_thread kt = Some cur ->
  find_next only_ready (thread_queue m) = Some (next, rest) ->
  Yield i only_ready ret m =
  Some (set_kthread i
          (mkKThread (Some (set_state kRunning next)) (initial_thread_id kt)
                     (resume next))
          (set_queue
             (rest ++ [set_resume (cGarbageCollect (ret true)) (demote cur)])
             (emit (switch_events i cur next) m))).
Proof.
  intros Hkt Hcur Hf. unfold Yield. rewrite Hkt. simpl. rewrite Hf, Hcur. simpl.
  unfold demote, switch_events.
  by destruct (bool_decide (state cur = kRunning)).
Qed.

(** C1.  [Yield(only_ready)] takes the first thread of the queue, front to
    back, that is Ready, or, exactly when [only_ready] is false, Ready or
    Waiting: the threads before it are not eligible, it is never a Zombie,
    and with [only_ready] it is never Waiting.  Some eligible thread in the
    queue is enough for one to be found.  When no thread of the queue is
    eligible, [Yield] returns [false] to its caller: the kernel thread goes
    on with the same current thread, no event (no transfer) takes place, and
    the queue with every thread in it, the other kernel threads and the
    memory are as they were. *)
Theorem Yield_selects_first_eligible (only_ready : bool) (i : nat)
  (ret : bool -> Code) (m : Machine) (kt : KThread) :
  kthreads m !! i = Some kt ->
  (forall t rest,
      find_next only_ready (thread_queue m) = Some (t, rest) ->
      exists before after,
        thread_queue m = before ++ t :: after /\ rest = before ++ after /\
        Forall (fun u => eligible only_ready u = false) before /\
        eligible only_ready t = true /\
        state t <> kZombie /\
        (only_ready = true -> state t <> kWaiting)) /\
  (forall u, u ∈ thread_queue m -> eligible only_ready u = true ->
      exists t rest, find_next only_ready (thread_queue m) = Some (t, rest)) /\
  (Forall (fun u => eligible only_ready u = false) (thread_queue m) ->
      find_next only_ready (thread_queue m) = None /\
      exists m',
        Yield i only_ready ret m = Some m' /\
        kthreads m' = <[i := set_pc (ret false) kt]> (kthreads m) /\
        current_thread (set_pc (ret false) kt) = current_thread kt /\
        thread_queue m' = thread_queue m /\
        trace m' = trace m /\
        cells m' = cells m /\ created m' = created m /\
        aborted m' = aborted m).
Proof.
  intros Hkt. split; [|split].
  - intros t rest H.
    pose proof (find_next_state _ _ _ _ H) as Hs.
    apply find_next_Some in H as (bf & af & Hq & Hr & Hb & He).
    exists bf, af. repeat split; try done.
    + destruct Hs as [Hs|[_ Hs]]; rewrite Hs; done.
    + intros ->. destruct Hs as [Hs|[? _]]; [rewrite Hs|]; done.
  - intros u Hu He.
    destruct (find_next only_ready (thread_queue m)) as [[t rest]|] eqn:Hf;
      [by eauto|].
    apply find_next_None in Hf. rewrite Forall_forall in Hf.
    specialize (Hf u Hu). congruence.
  - intros Hall. apply find_next_None in Hall. split; [done|].
    eexists. split; [by apply Yield_None|]. by repeat split.
Qed.

(** ** [GarbageCollect] and [GetThreadCount] *)

Lemma reap_filter (queue : list Thread) :
  reap queue = (filter (fun t => state t <> kZombie) queue,
                filter (fun t => state t = kZombie) queue).
Proof.
  induction queue as [|t queue IH]; [done|].
  simpl. rewrite IH. rewrite !filter_cons.
  destruct (decide (state t = kZombie)) as [Hz|Hz].
  - rewrite bool_decide_eq_true_2 by done.
    destruct (decide (state t <> kZombie)); [done|]. done.
  - rewrite bool_decide_eq_false_2 by done.
    destruct (decide (state t <> kZombie)); [done|]. done.
Qed.

Lemma reap_no_zombie (queue : list Thread) :
  Forall (fun t => state t <> kZombie) queue -> reap queue = (queue, []).
Proof.
  induction 1 as [|t queue Ht _ IH]; [done|].
  simpl. rewrite IH. by rewrite bool_decide_eq_false_2.
Qed.

Lemma count_threads_no_zombie (queue : list Thread) (ready zombie : Z) :
  Forall (fun t => state t <> kZombie) queue ->
  count_threads queue ready zombie = (ready + Z.of_nat (length queue), zombie).
Proof.
  intros H. revert ready. induction H as [|t queue Ht _ IH]; intros ready.
  - simpl. f_equal. lia.
  - simpl count_threads. rewrite bool_decide_eq_false_2 by done.
    rewrite IH. f_equal. simpl length. lia.
Qed.

Lemma survivors_no_zombie (queue : list Thread) :
  Forall (fun t => state t <> kZombie)
         (filter (fun t => state t <> kZombie) queue).
Proof. apply Forall_forall. intros t Ht. by apply list_elem_of_filter in Ht as [? _]. Qed.

Lemma GarbageCollect_eq (m : Machine) :
  GarbageCollect m =
  set_queue (filter (fun t => state t <> kZombie) (thread_queue m))
    (emit (flat_map (fun t => destroy t ++ [EvErase (serial t)])
                    (filter (fun t => state t = kZombie) (thread_queue m))) m).
Proof. unfold GarbageCollect. by rewrite reap_filter. Qed.

Lemma GarbageCollect_twice (m : Machine) :
  GarbageCollect (GarbageCollect m) = GarbageCollect m.
Proof.
  rewrite (GarbageCollect_eq m). unfold GarbageCollect at 1.
  cbn [thread_queue set_queue emit].
  rewrite reap_no_zombie by apply survivors_no_zombie.
  unfold set_queue, emit. cbn. by rewrite app_nil_r.
Qed.

(** C8.  [GarbageCollect] leaves in the queue the threads that are not
    Zombie, in their order, and destroys (frees the stack of, then erases)
    the Zombie ones, each once; nothing else of the process changes.  A
    second call in a row changes nothing at all: no event (no second free),
    the same queue, the same counts, no zombie left to count; and so for
    any number of calls. *)
Theorem GarbageCollect_reaps_zombies_once (m : Machine) :
  thread_queue (GarbageCollect m)
    = filter (fun t => state t <> kZombie) (thread_queue m) /\
  trace (GarbageCollect m)
    = trace m ++ flat_map (fun t => destroy t ++ [EvErase (serial t)])
                   (filter (fun t => state t = kZombie) (thread_queue m)) /\
  kthreads (GarbageCollect m) = kthreads m /\
  cells (GarbageCollect m) = cells m /\
  GarbageCollect (GarbageCollect m) = GarbageCollect m /\
  (forall n : nat, Nat.iter (S n) GarbageCollect m = GarbageCollect m) /\
  (fst (GetThreadCount (GarbageCollect (GarbageCollect m))))
    = (fst (GetThreadCount (GarbageCollect m))) /\
  snd (fst (GetThreadCount (GarbageCollect m))) = 0.
Proof.
  repeat split.
  - by rewrite GarbageCollect_eq.
  - by rewrite GarbageCollect_eq.
  - by rewrite GarbageCollect_eq.
  - by rewrite GarbageCollect_eq.
  - apply GarbageCollect_twice.
  - induction n as [|n IH]; [done|].
    change (GarbageCollect (Nat.iter (S n) GarbageCollect m) = GarbageCollect m).
    rewrite IH. apply GarbageCollect_twice.
  - by rewrite GarbageCollect_twice.
  - rewrite GarbageCollect_eq. cbn.
    by rewrite count_threads_no_zombie by apply survivors_no_zombie.
Qed.

(** ** What a successful [Yield] does *)

Lemma step_running (E : Platform) (i : nat) (m : Machine) (kt : KThread) :
  aborted m = false -> kthreads m !! i = Some kt ->
  step E i m =
  match pc kt with
  | Ret => Some m
  | Abort =>
      Some (set_aborted (emit [EvAbort (serial <$> current_thread kt)] m))
  | cInitialize k => Some (Initialize E i k kt m)
  | cSpawn fn arg k => Spawn E i fn arg k m
  | cYield a k => Yield i (default (yield_default E) a) k m
  | cWait k =>
      cur ← current_thread kt;
      Some (set_kthread i
              (set_pc (cWaitLoop k) (set_current (set_state kWaiting cur) kt))
              (emit [EvSetState (serial cur) kWaiting] m))
  | cWaitLoop k =>
      Yield i true (fun b => if b then cSetState kWaiting (cWaitLoop k) else k) m
  | cSetState s k =>
      cur ← current_thread kt;
      Some (set_kthread i (set_pc k (set_current (set_state s cur) kt))
              (emit [EvSetState (serial cur) s] m))
  | cGarbageCollect k => Some (set_kthread i (set_pc k kt) (GarbageCollect m))
  | cGetThreadCount k =>
      let '(r, m) := GetThreadCount m in
      Some (set_kthread i (set_pc (k r) kt) m)
  | cBump a k =>
      Some (set_kthread i (set_pc k kt)
              (set_cells (fun x => if bool_decide (x = a) then S (cells m a)
                                   else cells m x) m))
  | cOutput v k => Some (set_kthread i (set_pc k kt) (emit [EvOutput v] m))
  | cStartThread => StartThread E i kt m
  end.
Proof. intros Ha Hkt. unfold step. by rewrite Ha, Hkt. Qed.

(** C2.  When [Yield] finds a thread [next], with [cur] running: [cur] is
    made Ready if it was Running and keeps its state otherwise, [next] is
    made Running, [cur] is pushed to the back of the queue, [next] becomes
    the current thread of the kernel thread, and control is transferred from
    [cur] to where [next] was suspended, in that order.  [cur] is left
    suspended at a point where, once it is resumed, a [GarbageCollect] pass
    runs and then [Yield] returns [true] to its caller. *)
Theorem Yield_switches_to_selected (E : Platform) (i : nat)
  (only_ready : bool) (ret : bool -> Code) (m : Machine) (kt : KThread)
  (cur next : Thread) (rest : list Thread) :
  kthreads m !! i = Some kt ->
  current_thread kt = Some cur ->
  find_next only_ready (thread_queue m) = Some (next, rest) ->
  exists m' suspended,
    Yield i only_ready ret m = Some m' /\
    state suspended = (if bool_decide (state cur = kRunning) then kReady
                       else state cur) /\
    serial suspended = serial cur /\ id suspended = id cur /\
    stack suspended = stack cur /\
    thread_queue m' = rest ++ [suspended] /\
    kthreads m' = <[i := mkKThread (Some (set_state kRunning next))
                                   (initial_thread_id kt) (resume next)]>
                    (kthreads m) /\
    trace m' = trace m
      ++ [EvErase (serial next)]
      ++ (if bool_decide (state cur = kRunning)
          then [EvSetState (serial cur) kReady] else [])
      ++ [EvSetState (serial next) kRunning;
          EvPushBack (serial cur);
          EvSetCurrent i (serial next);
          EvContextSwitch (serial cur) (serial next)] /\
    resume suspended = cGarbageCollect (ret true) /\
    (forall j m2 kt2,
        aborted m2 = false -> kthreads m2 !! j = Some kt2 ->
        pc kt2 = resume suspended ->
        step E j m2
        = Some (set_kthread j (set_pc (ret true) kt2) (GarbageCollect m2))).
Proof.
  intros Hkt Hcur Hf.
  exists (set_kthread i
            (mkKThread (Some (set_state kRunning next)) (initial_thread_id kt)
                       (resume next))
            (set_queue
               (rest ++ [set_resume (cGarbageCollect (ret true)) (demote cur)])
               (emit (switch_events i cur next) m))),
         (set_resume (cGarbageCollect (ret true)) (demote cur)).
  split; [by apply Yield_Some|].
  unfold demote.
  repeat split; try by destruct (bool_decide (state cur = kRunning)).
  intros j m2 kt2 Ha Hk Hpc.
  rewrite (step_running E j m2 kt2 Ha Hk).
  by rewrite Hpc.
Qed.

Lemma switch_events_quiet (i : nat) (cur next : Thread) :
  Forall not_abort (switch_events i cur next).
Proof.
  unfold switch_events.
  destruct (bool_decide (state cur = kRunning));
    repeat constructor; intros w; done.
Qed.

Lemma demote_serial (t : Thread) : serial (demote t) = serial t.
Proof. unfold demote. by destruct (bool_decide (state t = kRunning)). Qed.

(** The two ways out of [Yield]. *)
Lemma Yield_inv (i : nat) (only_ready : bool) (ret : bool -> Code)
  (m m' : Machine) :
  Yield i only_ready ret m = Some m' ->
  exists kt,
    kthreads m !! i = Some kt /\
    ((find_next only_ready (thread_queue m) = None /\
      m' = set_kthread i (set_pc (ret false) kt) m) \/
     (exists cur next rest,
         current_thread kt = Some cur /\
         find_next only_ready (thread_queue m) = Some (next, rest) /\
         m' = set_kthread i
                (mkKThread (Some (set_state kRunning next))
                           (initial_thread_id kt) (resume next))
                (set_queue
                   (rest ++ [set_resume (cGarbageCollect (ret true))
                                        (demote cur)])
                   (emit (switch_events i cur next) m)))).
Proof.
  intros HY.
  destruct (kthreads m !! i) as [kt|] eqn:Hkt;
    [|by unfold Yield in HY; rewrite Hkt in HY].
  exists kt. split; [done|].
  destruct (find_next only_ready (thread_queue m)) as [[next rest]|] eqn:Hf.
  - right. destruct (current_thread kt) as [cur|] eqn:Hcur.
    + rewrite (Yield_Some _ _ _ _ _ _ _ _ Hkt Hcur Hf) in HY.
      injection HY as <-. by exists cur, next, rest.
    + unfold Yield in HY. rewrite Hkt in HY. cbn in HY.
      by rewrite Hf, Hcur in HY.
  - left. rewrite (Yield_None _ _ _ _ _ Hkt Hf) in HY. by injection HY as <-.
Qed.

(** ** [Spawn] *)

Lemma Spawn_setup_eq (E : Platform) (fn arg : Z) (m : Machine) :
  malloc E (mallocs m) <> 0 ->
  Spawn_setup E fn arg m =
  let t := mkThread (next_id m) kWaiting
             (Some (mkStackBuf (malloc E (mallocs m))
                      (<[kStackSize / 8 - 4 := start_thread E]>
                         (<[kStackSize / 8 - 3 := fn]>
                            (<[kStackSize / 8 - 2 := arg]> ∅)))))
             (mkContext
                (Some (wrap64 (malloc E (mallocs m) + 8 * (kStackSize / 8 - 4))))
                None None None None None None 0x1F80 0x037F)
             (created m) cStartThread in
  Some (t, mkMachine (t :: thread_queue m) (wrap64 (next_id m + 1))
                     (S (created m)) (S (mallocs m)) (kthreads m) (cells m)
                     (trace m ++ [EvInsertFront (created m)]) (aborted m)).
Proof.
  intros Hnull. unfold Spawn_setup, Thread_new.
  cbn [stack]. rewrite bool_decide_eq_false_2 by done. reflexivity.
Qed.

(** C5.  [Spawn(fn, arg)], when [malloc] gives a stack: the new thread owns
    that buffer; of its top words, the last is left alone, the one below
    holds [arg], the next [fn], the next the address of the entry point, and
    the saved stack pointer is the address of that last one (16-byte
    aligned when the buffer is); [mxcsr] and [x87] are 0x1F80 and 0x037F
    whatever the machine is doing; the thread goes to the front of the
    queue; and what [Spawn] then does is [Yield] with its default
    argument, returning to its caller when that [Yield] returns. *)
Theorem Spawn_primes_stack_then_yields (E : Platform) (i : nat)
  (fn arg : Z) (k : Code) (m : Machine) :
  malloc E (mallocs m) <> 0 ->
  exists t buf m',
    Spawn_setup E fn arg m = Some (t, m') /\
    stack t = Some buf /\
    base buf = malloc E (mallocs m) /\
    slots buf !! (kStackSize / 8 - 1) = None /\
    slots buf !! (kStackSize / 8 - 2) = Some arg /\
    slots buf !! (kStackSize / 8 - 3) = Some fn /\
    slots buf !! (kStackSize / 8 - 4) = Some (start_thread E) /\
    rsp (context t) = Some (wrap64 (base buf + 8 * (kStackSize / 8 - 4))) /\
    (0 <= base buf -> base buf + kStackSize <= 2 ^ 64 ->
     wrap64 (base buf + 8 * (kStackSize / 8 - 4)) = base buf + kStackSize - 32 /\
     (base buf mod 16 = 0 -> (base buf + kStackSize - 32) mod 16 = 0)) /\
    mxcsr (context t) = 0x1F80 /\
    x87 (context t) = 0x037F /\
    resume t = cStartThread /\
    thread_queue m' = t :: thread_queue m /\
    kthreads m' = kthreads m /\
    trace m' = trace m ++ [EvInsertFront (serial t)] /\
    Spawn E i fn arg k m = Yield i (yield_default E) (fun _ => k) m'.
Proof.
  intros Hnull.
  pose proof (Spawn_setup_eq E fn arg m Hnull) as Heq. cbv zeta in Heq.
  eexists _, _, _. split; [exact Heq|].
  split; [reflexivity|]. split; [reflexivity|].
  cbn [slots base].
  split; [by rewrite !lookup_insert_ne, lookup_empty|].
  split; [by rewrite lookup_insert_ne, lookup_insert_ne, lookup_insert_eq|].
  split; [by rewrite lookup_insert_ne, lookup_insert_eq|].
  split; [by rewrite lookup_insert_eq|].
  split; [reflexivity|].
  split.
  { cbn [base]. intros Hlo Hhi. unfold wrap64.
    change kStackSize with 2097152 in *.
    change (8 * (2097152 / 8 - 4)) with 2097120.
    split.
    - rewrite Z.mod_small; lia.
    - intros Hal.
      replace (malloc E (mallocs m) + 2097152 - 32)
        with (malloc E (mallocs m) + 131070 * 16) by lia.
      by rewrite Z_mod_plus_full. }
  repeat split.
  unfold Spawn. by rewrite Heq.
Qed.

(** The entry point, on its first landing, finds in the primed frame the
    [fn] and [arg] that [Spawn] was given. *)
Lemma StartThread_decodes_primed_frame (E : Platform) (fn arg : Z)
  (m m' m2 : Machine) (t : Thread) (j : nat) (kt : KThread) :
  0 < malloc E (mallocs m) -> malloc E (mallocs m) + kStackSize <= 2 ^ 64 ->
  Spawn_setup E fn arg m = Some (t, m') ->
  aborted m2 = false -> kthreads m2 !! j = Some kt ->
  pc kt = cStartThread -> current_thread kt = Some (set_state kRunning t) ->
  step E j m2 = Some (set_kthread j (set_pc (ThreadEntry E fn arg) kt) m2).
Proof.
  intros Hlo Hhi Hs Ha Hkt Hpc Hcur.
  rewrite Spawn_setup_eq in Hs by lia. cbv zeta in Hs.
  injection Hs as <- <-.
  rewrite (step_running E j m2 kt Ha Hkt), Hpc.
  unfold StartThread. rewrite Hcur. cbn.
  unfold wrap64. change kStackSize with 2097152 in *.
  change (8 * (2097152 / 8 - 4)) with 2097120.
  rewrite Z.mod_small by lia.
  replace ((malloc E (mallocs m) + 2097120 - malloc E (mallocs m)) / 8)
    with 262140 by (apply Z.div_unique_exact; lia).
  change (262140 + 1) with (2097152 / 8 - 3).
  change (262140 + 2) with (2097152 / 8 - 2).
  set (frame := <[_ := start_thread E]> _).
  assert (frame !! (2097152 / 8 - 3) = Some fn) as ->
    by (by subst frame; rewrite lookup_insert_ne, lookup_insert_eq).
  assert (frame !! (2097152 / 8 - 2) = Some arg) as ->
    by (by subst frame;
        rewrite lookup_insert_ne, lookup_insert_ne, lookup_insert_eq).
  reflexivity.
Qed.

(** ** [Wait] *)

(** C7.  [Wait] sets the state of the running thread to Waiting and goes to
    the head of its loop.  At the head of the loop it is [Yield(true)] that
    runs: when no thread is found, [Wait] returns to its caller, on the same
    kernel thread, with the same current thread, and nothing else changed;
    when a thread is found, control goes to it and the waiting thread is
    left in the queue, suspended at a point from which, when it is resumed,
    [GarbageCollect] runs, then its state is set to Waiting again, then it
    is at the head of the loop again: [Wait] has not returned. *)
Theorem Wait_drains_ready_threads (E : Platform) (i : nat) (k : Code)
  (m : Machine) (kt : KThread) (cur : Thread) :
  aborted m = false ->
  kthreads m !! i = Some kt ->
  pc kt = cWait k ->
  current_thread kt = Some cur ->
  step E i m =
    Some (set_kthread i
            (mkKThread (Some (set_state kWaiting cur)) (initial_thread_id kt)
                       (cWaitLoop k))
            (emit [EvSetState (serial cur) kWaiting] m)) /\
  (forall j m2 kt2 cur2,
      aborted m2 = false -> kthreads m2 !! j = Some kt2 ->
      pc kt2 = cWaitLoop k -> current_thread kt2 = Some cur2 ->
      match find_next true (thread_queue m2) with
      | None =>
          step E j m2 = Some (set_kthread j (set_pc k kt2) m2) /\
          current_thread (set_pc k kt2) = Some cur2
      | Some (next, rest) =>
          state next = kReady /\
          exists m3 parked,
            step E j m2 = Some m3 /\
            kthreads m3 = <[j := mkKThread (Some (set_state kRunning next))
                                           (initial_thread_id kt2)
                                           (resume next)]> (kthreads m2) /\
            thread_queue m3 = rest ++ [parked] /\
            serial parked = serial cur2 /\
            state parked = (if bool_decide (state cur2 = kRunning)
                            then kReady else state cur2) /\
            resume parked
              = cGarbageCollect (cSetState kWaiting (cWaitLoop k))
      end) /\
  (forall j m2 kt2,
      aborted m2 = false -> kthreads m2 !! j = Some kt2 ->
      pc kt2 = cGarbageCollect (cSetState kWaiting (cWaitLoop k)) ->
      step E j m2
      = Some (set_kthread j (set_pc (cSetState kWaiting (cWaitLoop k)) kt2)
                (GarbageCollect m2))) /\
  (forall j m2 kt2 cur2,
      aborted m2 = false -> kthreads m2 !! j = Some kt2 ->
      pc kt2 = cSetState kWaiting (cWaitLoop k) ->
      current_thread kt2 = Some cur2 ->
      step E j m2
      = Some (set_kthread j
                (mkKThread (Some (set_state kWaiting cur2))
                           (initial_thread_id kt2) (cWaitLoop k))
                (emit [EvSetState (serial cur2) kWaiting] m2))).
Proof.
  intros Ha Hkt Hpc Hcur. split; [|split; [|split]].
  - rewrite (step_running E i m kt Ha Hkt), Hpc, Hcur. reflexivity.
  - intros j m2 kt2 cur2 Ha2 Hkt2 Hpc2 Hcur2.
    rewrite (step_running E j m2 kt2 Ha2 Hkt2), Hpc2.
    destruct (find_next true (thread_queue m2)) as [[next rest]|] eqn:Hf.
    + split.
      { destruct (find_next_state _ _ _ _ Hf) as [?|[? _]]; done. }
      eexists _, _. split; [by eapply Yield_Some|].
      unfold demote. repeat split;
        by destruct (bool_decide (state cur2 = kRunning)).
    + split; [by apply Yield_None|done].
  - intros j m2 kt2 Ha2 Hkt2 Hpc2.
    by rewrite (step_running E j m2 kt2 Ha2 Hkt2), Hpc2.
  - intros j m2 kt2 cur2 Ha2 Hkt2 Hpc2 Hcur2.
    by rewrite (step_running E j m2 kt2 Ha2 Hkt2), Hpc2, Hcur2.
Qed.

(** ** Initial states *)

Lemma Yield_queue (i : nat) (only_ready : bool) (ret : bool -> Code)
  (m m' : Machine) (t : Thread) :
  Yield i only_ready ret m = Some m' -> t ∈ thread_queue m' ->
  t ∈ thread_queue m \/
  exists kt cur,
    kthreads m !! i = Some kt /\ current_thread kt = Some cur /\
    t = set_resume (cGarbageCollect (ret true)) (demote cur).
Proof.
  intros (kt & Hkt & [[Hf ->]|(cur & next & rest & Hcur & Hf & ->)])%Yield_inv.
  - by left.
  - cbn. intros [Ht|Ht]%elem_of_app.
    + left. destruct (find_next_Some _ _ _ _ Hf) as (bf & af & -> & -> & _).
      apply elem_of_app in Ht as [Ht|Ht];
        rewrite elem_of_app, elem_of_cons; auto.
    + right. apply list_elem_of_singleton in Ht as ->. by exists kt, cur.
Qed.

(** A step leaves the threads of the queue as they are: a thread of the
    queue afterwards was in the queue before, or is the thread that was
    running on the stepping kernel thread and was suspended by [Yield], or
    is the thread just made by [Spawn]. *)
Lemma step_queue (E : Platform) (i : nat) (m m' : Machine) (t : Thread) :
  step E i m = Some m' -> t ∈ thread_queue m' ->
  t ∈ thread_queue m \/
  (exists kt cur c,
      kthreads m !! i = Some kt /\ current_thread kt = Some cur /\
      t = set_resume c (demote cur)) \/
  (exists fn arg m1, Spawn_setup E fn arg m = Some (t, m1)).
Proof.
  intros Hs Ht.
  destruct (aborted m) eqn:Ha;
    [unfold step in Hs; rewrite Ha in Hs; injection Hs as <-; by left|].
  destruct (kthreads m !! i) as [kt|] eqn:Hkt;
    [|by unfold step in Hs; rewrite Ha, Hkt in Hs].
  rewrite (step_running E i m kt Ha Hkt) in Hs.
  destruct (pc kt) eqn:Hpc;
    try (option_inv Hs; injection Hs as <-; by left).
  - unfold Spawn in Hs.
    destruct (Spawn_setup E fn arg m) as [[t1 m1]|] eqn:Hset; [|done].
    cbn in Hs.
    assert (kthreads m1 = kthreads m /\ thread_queue m1 = t1 :: thread_queue m)
      as [Hk1 Hq1].
    { unfold Spawn_setup, Thread_new in Hset. cbn in Hset.
      destruct (bool_decide (malloc E (mallocs m) = 0)); [done|].
      cbn in Hset. by injection Hset as <- <-. }
    destruct (Yield_queue _ _ _ _ _ _ Hs Ht)
      as [Hin|(kt' & cur & Hkt' & Hcur & ->)].
    + rewrite Hq1 in Hin. apply elem_of_cons in Hin as [->|Hin]; [|by left].
      right. right. by exists fn, arg, m1.
    + rewrite Hk1 in Hkt'. right. left. eexists kt', cur, _.
      split; [congruence|]. split; [eassumption|reflexivity].
  - destruct (Yield_queue _ _ _ _ _ _ Hs Ht)
      as [Hin|(kt' & cur & Hkt' & Hcur & ->)]; [by left|].
    right. left. eexists kt', cur, _.
    split; [congruence|]. split; [eassumption|reflexivity].
  - injection Hs as <-. left. rewrite GarbageCollect_eq in Ht. cbn in Ht.
    by apply list_elem_of_filter in Ht as [_ ?].
  - destruct (Yield_queue _ _ _ _ _ _ Hs Ht)
      as [Hin|(kt' & cur & Hkt' & Hcur & ->)]; [by left|].
    right. left. eexists kt', cur, _.
    split; [congruence|]. split; [eassumption|reflexivity].
  - unfold StartThread in Hs. option_inv Hs. injection Hs as <-. by left.
Qed.

(** C10.  The constructor leaves every thread Waiting.  After [Initialize]
    the current thread of the kernel thread is Waiting; the thread that
    [Spawn] puts in the queue is Waiting.  [Yield(true)] selects Ready
    threads only, and finds none in a queue of Waiting threads; a current
    thread that is Waiting when it yields is pushed to the queue Waiting;
    and no step changes a thread that stays in the queue: what is in the
    queue after a step was there before, or was just suspended by [Yield],
    or was just made by [Spawn]. *)
Theorem threads_are_constructed_Waiting (E : Platform) :
  (forall create_stack m,
      state (fst (Thread_new E create_stack m)) = kWaiting) /\
  (forall i k kt m,
      kthreads m !! i = Some kt ->
      exists t,
        kthreads (Initialize E i k kt m) !! i
          = Some (mkKThread (Some t) (id t) k) /\
        state t = kWaiting /\ stack t = None /\ id t = next_id m) /\
  (forall fn arg m t m',
      Spawn_setup E fn arg m = Some (t, m') ->
      state t = kWaiting /\ thread_queue m' = t :: thread_queue m) /\
  (forall queue t rest,
      find_next true queue = Some (t, rest) -> state t = kReady) /\
  (forall queue,
      Forall (fun t => state t = kWaiting) queue ->
      find_next true queue = None) /\
  (forall i only_ready ret m kt cur next rest,
      kthreads m !! i = Some kt -> current_thread kt = Some cur ->
      state cur = kWaiting ->
      find_next only_ready (thread_queue m) = Some (next, rest) ->
      exists m' suspended,
        Yield i only_ready ret m = Some m' /\
        thread_queue m' = rest ++ [suspended] /\
        serial suspended = serial cur /\ state suspended = kWaiting) /\
  (forall i m m' t,
      step E i m = Some m' -> t ∈ thread_queue m' ->
      t ∈ thread_queue m \/
      (exists kt cur c,
          kthreads m !! i = Some kt /\ current_thread kt = Some cur /\
          t = set_resume c (demote cur)) \/
      (exists fn arg m1, Spawn_setup E fn arg m = Some (t, m1))).
Proof.
  split; [done|]. split; [|split; [|split; [|split; [|split]]]].
  - intros i k kt m Hkt.
    exists (set_state kWaiting (fst (Thread_new E false m))). split.
    + unfold Initialize, Thread_new, set_kthread. cbn.
      apply list_lookup_insert_eq. by eapply lookup_lt_Some.
    + by repeat split.
  - intros fn arg m t m' H.
    unfold Spawn_setup, Thread_new in H. cbn in H.
    destruct (bool_decide (malloc E (mallocs m) = 0)); [done|].
    cbn in H. by injection H as <- <-.
  - intros queue t rest H.
    destruct (find_next_state _ _ _ _ H) as [?|[? _]]; done.
  - intros queue H. apply find_next_None.
    eapply Forall_impl; [exact H|]. intros t Ht. unfold eligible.
    by rewrite Ht.
  - intros i only_ready ret m kt cur next rest Hkt Hcur Hw Hf.
    eexists _, _. split; [by eapply Yield_Some|].
    unfold demote. rewrite Hw. by repeat split.
  - apply step_queue.
Qed.

(** ** Every thread object is owned once *)

Section Ownership.

Context (E : Platform).

Lemma running_middle (l1 l2 : list KThread) (kt : KThread) :
  running (l1 ++ kt :: l2)
  = running l1 ++ option_list (current_thread kt) ++ running l2.
Proof.
  unfold running. rewrite omap_app. f_equal. cbn.
  by destruct (current_thread kt).
Qed.

Lemma running_update (kts : list KThread) (i : nat) (kt : KThread) :
  kts !! i = Some kt ->
  exists others,
    running kts ≡ₚ option_list (current_thread kt) ++ others /\
    forall kt', running (<[i := kt']> kts)
                ≡ₚ option_list (current_thread kt') ++ others.
Proof.
  intros Hkt.
  exists (running (take i kts) ++ running (drop (S i) kts)). split.
  - rewrite <- (take_drop_middle kts i kt Hkt) at 1.
    rewrite running_middle. by rewrite Permutation_app_swap_app.
  - intros kt'. rewrite insert_take_drop by (by eapply lookup_lt_Some).
    rewrite running_middle. by rewrite Permutation_app_swap_app.
Qed.

Lemma running_elem (kts : list KThread) (i : nat) (kt : KThread) (t : Thread) :
  kts !! i = Some kt -> current_thread kt = Some t -> t ∈ running kts.
Proof.
  intros Hkt Hcur. apply list_elem_of_omap. exists kt. split; [|done].
  by eapply list_elem_of_lookup_2.
Qed.

Lemma running_update_elem (kts : list KThread) (i : nat) (kt' : KThread)
  (t : Thread) :
  t ∈ running (<[i := kt']> kts) ->
  current_thread kt' = Some t \/ t ∈ running kts.
Proof.
  intros (x & Hx & Hcur)%list_elem_of_omap.
  apply list_elem_of_lookup_1 in Hx as [j Hj].
  apply list_lookup_insert_Some in Hj as [(_ & -> & _)|[_ Hj]]; [by left|].
  right. by eapply running_elem.
Qed.

Lemma owned_update (m m' : Machine) (i : nat) (kt kt' : KThread) :
  kthreads m !! i = Some kt ->
  kthreads m' = <[i := kt']> (kthreads m) ->
  exists others,
    owned m ≡ₚ (serial <$> thread_queue m)
               ++ (serial <$> option_list (current_thread kt)) ++ others /\
    owned m' ≡ₚ (serial <$> thread_queue m')
               ++ (serial <$> option_list (current_thread kt')) ++ others.
Proof.
  intros Hkt Hk'.
  destruct (running_update _ _ _ Hkt) as (others & H1 & H2).
  exists (serial <$> others). unfold owned. split.
  - by rewrite H1, !fmap_app.
  - by rewrite Hk', H2, !fmap_app.
Qed.

Lemma NoDup_submseteq_inv {A : Type} (l k : list A) :
  NoDup k -> l ⊆+ k -> NoDup l.
Proof.
  intros Hk (k' & Hp)%submseteq_Permutation. rewrite Hp in Hk.
  by apply NoDup_app in Hk as [? _].
Qed.

Lemma Forall_submseteq_inv {A : Type} (P : A -> Prop) (l k : list A) :
  Forall P k -> l ⊆+ k -> Forall P l.
Proof.
  rewrite !Forall_forall. intros Hk Hl x Hx. apply Hk.
  by eapply elem_of_submseteq.
Qed.

(** How well-formedness is carried from [m] to [m']: the objects of [m'] are
    objects of [m] or were constructed since. *)
Lemma wf_intro (m m' : Machine) (fresh : list nat) :
  wf m ->
  owned m' ⊆+ fresh ++ owned m ->
  NoDup fresh ->
  Forall (fun o => (created m <= o < created m')%nat) fresh ->
  (created m <= created m')%nat ->
  (aborted m' = false ->
   aborted m = false /\
   exists evs, trace m' = trace m ++ evs /\ Forall not_abort evs) ->
  wf m'.
Proof.
  intros (Hnd & Hlt & Htr) Hsub Hfnd Hfresh Hle Htrace.
  rewrite Forall_forall in Hlt. rewrite Forall_forall in Hfresh.
  split; [|split].
  - eapply NoDup_submseteq_inv; [|exact Hsub].
    apply NoDup_app. split; [done|]. split; [|done].
    intros o Ho Ho'. specialize (Hfresh o Ho). specialize (Hlt o Ho'). lia.
  - eapply Forall_submseteq_inv; [|exact Hsub].
    apply Forall_app. split; apply Forall_forall; intros o Ho.
    + specialize (Hfresh o Ho). lia.
    + specialize (Hlt o Ho). lia.
  - intros Ha. destruct (Htrace Ha) as (Ha0 & evs & -> & Hq).
    apply Forall_app. split; [by apply Htr|done].
Qed.

Lemma wf_local (m m' : Machine) (i : nat) (kt kt' : KThread)
  (evs : list Event) :
  wf m ->
  kthreads m !! i = Some kt ->
  kthreads m' = <[i := kt']> (kthreads m) ->
  thread_queue m' = thread_queue m ->
  created m' = created m ->
  aborted m' = aborted m ->
  trace m' = trace m ++ evs ->
  Forall not_abort evs ->
  serial <$> current_thread kt' = serial <$> current_thread kt ->
  wf m'.
Proof.
  intros Hwf Hkt Hk' Hq Hc Ha Ht Hevs Hs.
  destruct (owned_update m m' i kt kt' Hkt Hk') as (others & H1 & H2).
  apply (wf_intro m m' []); [done|..].
  - cbn. rewrite H1, H2, Hq.
    replace (serial <$> option_list (current_thread kt'))
      with (serial <$> option_list (current_thread kt)); [done|].
    destruct (current_thread kt), (current_thread kt'); cbn in *; congruence.
  - constructor.
  - constructor.
  - lia.
  - intros Ha'. split; [congruence|]. by exists evs.
Qed.

Lemma wf_switch (m m' : Machine) (i : nat) (kt kt' : KThread)
  (cur cur' next next' : Thread) (rest : list Thread) (evs : list Event) :
  wf m ->
  kthreads m !! i = Some kt ->
  current_thread kt = Some cur ->
  thread_queue m ≡ₚ next :: rest ->
  kthreads m' = <[i := kt']> (kthreads m) ->
  current_thread kt' = Some next' ->
  serial next' = serial next ->
  thread_queue m' = rest ++ [cur'] ->
  serial cur' = serial cur ->
  created m' = created m ->
  aborted m' = aborted m ->
  trace m' = trace m ++ evs ->
  Forall not_abort evs ->
  wf m'.
Proof.
  intros Hwf Hkt Hcur Hq Hk' Hcur' Hsn Hq' Hsc Hc Ha Ht Hevs.
  destruct (owned_update m m' i kt kt' Hkt Hk') as (others & H1 & H2).
  apply (wf_intro m m' []); [done|..].
  - cbn [app]. rewrite H1, H2, Hq, Hq', Hcur, Hcur'.
    rewrite !fmap_app. cbn. rewrite Hsn, Hsc.
    apply Permutation_submseteq.
    rewrite <- !app_assoc. cbn.
    rewrite <- !Permutation_middle. apply perm_swap.
  - constructor.
  - constructor.
  - lia.
  - intros Ha'. split; [congruence|]. by exists evs.
Qed.

Lemma wf_Yield (i : nat) (only_ready : bool) (ret : bool -> Code)
  (m m' : Machine) :
  wf m -> Yield i only_ready ret m = Some m' -> wf m'.
Proof.
  intros Hwf (kt & Hkt & [[Hf ->]|(cur & next & rest & Hcur & Hf & ->)])%Yield_inv.
  - eapply (wf_local m _ i kt _ []); try done.
    by rewrite app_nil_r.
  - eapply (wf_switch m _ i kt _ cur _ next _ rest); try done.
    + by eapply find_next_Permutation.
    + cbn. apply demote_serial.
    + apply switch_events_quiet.
Qed.

Lemma wf_Spawn_setup (fn arg : Z) (m m' : Machine)
  (t : Thread) :
  wf m -> Spawn_setup E fn arg m = Some (t, m') -> wf m'.
Proof.
  intros Hwf Hs. unfold Spawn_setup, Thread_new in Hs. cbn in Hs.
  destruct (bool_decide (malloc E (mallocs m) = 0)); [done|].
  cbn in Hs. injection Hs as <- <-.
  apply (wf_intro m _ [created m]); [done|..].
  - done.
  - constructor; [|constructor]. by intros ?%elem_of_nil.
  - repeat constructor; cbn; lia.
  - cbn. lia.
  - intros Ha. split; [done|]. eexists. split; [reflexivity|].
    repeat constructor. intros w; done.
Qed.

Lemma wf_Initialize (i : nat) (k : Code) (kt : KThread)
  (m : Machine) :
  wf m -> kthreads m !! i = Some kt -> wf (Initialize E i k kt m).
Proof.
  intros Hwf Hkt.
  edestruct (owned_update m (Initialize E i k kt m)) as (others & H1 & H2);
    [exact Hkt|reflexivity|].
  apply (wf_intro m _ [created m]); [done|..].
  - rewrite H1, H2. cbn.
    rewrite <- Permutation_middle. apply submseteq_skip.
    apply submseteq_skips_l, submseteq_inserts_l. done.
  - constructor; [|constructor]. by intros ?%elem_of_nil.
  - repeat constructor; cbn; lia.
  - cbn. lia.
  - intros Ha. split; [done|]. eexists. split; [reflexivity|].
    unfold destroy. destruct (current_thread kt) as [old|]; [|constructor].
    destruct (stack old); repeat constructor. intros w; done.
Qed.

Lemma GarbageCollect_quiet (queue : list Thread) :
  Forall not_abort
    (flat_map (fun t => destroy t ++ [EvErase (serial t)]) queue).
Proof.
  induction queue as [|t queue IH]; [constructor|].
  cbn. apply Forall_app. split; [|done].
  unfold destroy. destruct (stack t); repeat constructor; intros w; done.
Qed.

Lemma wf_GarbageCollect (i : nat) (kt kt' : KThread) (m : Machine) :
  wf m -> kthreads m !! i = Some kt ->
  current_thread kt' = current_thread kt ->
  wf (set_kthread i kt' (GarbageCollect m)).
Proof.
  intros Hwf Hkt Hcur. rewrite GarbageCollect_eq.
  match goal with
  | |- wf ?M =>
      destruct (owned_update m M i kt kt' Hkt eq_refl) as (others & H1 & H2)
  end.
  apply (wf_intro m _ []); [done|..].
  - rewrite H1, H2. cbn [app thread_queue set_kthread set_queue emit].
    rewrite Hcur. apply submseteq_skips_r.
    apply fmap_submseteq, sublist_submseteq, sublist_filter.
  - constructor.
  - constructor.
  - cbn. lia.
  - intros Ha. split; [done|]. eexists. split; [reflexivity|].
    apply GarbageCollect_quiet.
Qed.

Lemma wf_step (i : nat) (m m' : Machine) :
  wf m -> step E i m = Some m' -> wf m'.
Proof.
  intros Hwf Hs.
  destruct (aborted m) eqn:Ha;
    [unfold step in Hs; rewrite Ha in Hs; by injection Hs as <-|].
  destruct (kthreads m !! i) as [kt|] eqn:Hkt;
    [|by unfold step in Hs; rewrite Ha, Hkt in Hs].
  rewrite (step_running E i m kt Ha Hkt) in Hs.
  destruct (pc kt) eqn:Hpc.
  - by injection Hs as <-.
  - injection Hs as <-.
    apply (wf_intro m _ []); [done|done|constructor|constructor|cbn; lia|done].
  - injection Hs as <-. by apply wf_Initialize.
  - unfold Spawn in Hs.
    destruct (Spawn_setup E fn arg m) as [[t m1]|] eqn:Hset; [|done].
    cbn in Hs. eapply wf_Yield; [|exact Hs]. by eapply wf_Spawn_setup.
  - by eapply wf_Yield.
  - destruct (current_thread kt) as [cur|] eqn:Hcur; [|done].
    injection Hs as <-.
    eapply (wf_local m _ i kt _ [EvSetState (serial cur) kWaiting]);
      [done|done|reflexivity|reflexivity|reflexivity|reflexivity|reflexivity| |].
    + repeat constructor. intros w; done.
    + by rewrite Hcur.
  - injection Hs as <-. by apply (wf_GarbageCollect i kt).
  - injection Hs as <-.
    eapply (wf_local m _ i kt _ [EvLock; EvUnlock]);
      [done|done|reflexivity|reflexivity|reflexivity|reflexivity|reflexivity| |].
    + repeat constructor; intros w; done.
    + done.
  - injection Hs as <-.
    eapply (wf_local m _ i kt _ []);
      [done|done|reflexivity|reflexivity|reflexivity|reflexivity| | |].
    + cbn. by rewrite app_nil_r.
    + constructor.
    + done.
  - injection Hs as <-.
    eapply (wf_local m _ i kt _ [EvOutput v]);
      [done|done|reflexivity|reflexivity|reflexivity|reflexivity|reflexivity| |].
    + repeat constructor; intros w; done.
    + done.
  - destruct (current_thread kt) as [cur|] eqn:Hcur; [|done].
    injection Hs as <-.
    eapply (wf_local m _ i kt _ [EvSetState (serial cur) s]);
      [done|done|reflexivity|reflexivity|reflexivity|reflexivity|reflexivity| |].
    + repeat constructor. intros w; done.
    + by rewrite Hcur.
  - by eapply wf_Yield.
  - unfold StartThread in Hs.
    option_inv Hs. injection Hs as <-.
    eapply (wf_local m _ i kt _ []);
      [done|done|reflexivity|reflexivity|reflexivity|reflexivity| | |].
    + cbn. by rewrite app_nil_r.
    + constructor.
    + done.
Qed.

Lemma wf_boot (mains : list Code) : wf (boot mains).
Proof.
  assert (owned (boot mains) = []) as Ho.
  { unfold owned, boot, running. cbn.
    induction mains as [|c mains IH]; [done|]. exact IH. }
  unfold wf. rewrite Ho. repeat split; constructor.
Qed.

Lemma wf_run (schedule : list nat) (m m' : Machine) :
  wf m -> run E schedule m = Some m' -> wf m'.
Proof.
  revert m. induction schedule as [|i schedule IH]; intros m Hwf Hr.
  - by injection Hr as <-.
  - cbn in Hr. destruct (step E i m) as [m1|] eqn:Hs; [|done].
    eapply IH; [|exact Hr]. by eapply wf_step.
Qed.

(** ** A Zombie that has yielded never runs again *)

Lemma gone_intro (o : nat) (m m' : Machine) (evs : list Event) :
  gone o m ->
  (created m <= created m')%nat ->
  (forall t, t ∈ running (kthreads m') -> serial t <> o) ->
  (forall t, t ∈ thread_queue m' -> serial t = o -> state t = kZombie) ->
  trace m' = trace m ++ evs ->
  Forall (fun e => e <> EvAbort (Some o)) evs ->
  gone o m'.
Proof.
  intros (Hlt & _ & _ & Htr) Hle Hrun Hq Ht Hevs.
  unfold gone. rewrite Ht.
  repeat split; [lia|done|done|]. by apply Forall_app.
Qed.

Lemma quiet_not_abort_of (o : nat) (evs : list Event) :
  Forall not_abort evs -> Forall (fun e => e <> EvAbort (Some o)) evs.
Proof. intros H. eapply Forall_impl; [exact H|]. intros e He. apply He. Qed.

Lemma gone_local (o : nat) (m m' : Machine) (i : nat) (kt kt' : KThread)
  (evs : list Event) :
  gone o m ->
  kthreads m !! i = Some kt ->
  kthreads m' = <[i := kt']> (kthreads m) ->
  thread_queue m' = thread_queue m ->
  created m' = created m ->
  trace m' = trace m ++ evs ->
  Forall (fun e => e <> EvAbort (Some o)) evs ->
  serial <$> current_thread kt' = serial <$> current_thread kt ->
  gone o m'.
Proof.
  intros Hg Hkt Hk' Hq Hc Ht Hevs Hs.
  apply (gone_intro o m m' evs); [done|lia| | |done|done].
  - intros t Ht'. rewrite Hk' in Ht'.
    apply running_update_elem in Ht' as [Hcur|Hin].
    + destruct (current_thread kt) as [cur|] eqn:Hcur0;
        rewrite Hcur in Hs; [|done].
      injection Hs as Hs. rewrite Hs.
      destruct Hg as (_ & Hrun & _). apply Hrun. by eapply running_elem.
    + destruct Hg as (_ & Hrun & _). by apply Hrun.
  - rewrite Hq. by destruct Hg as (_ & _ & Hz & _).
Qed.

Lemma gone_Yield (o : nat) (i : nat) (only_ready : bool) (ret : bool -> Code)
  (m m' : Machine) :
  gone o m -> Yield i only_ready ret m = Some m' -> gone o m'.
Proof.
  intros Hg (kt & Hkt & [[Hf ->]|(cur & next & rest & Hcur & Hf & ->)])%Yield_inv.
  - eapply (gone_local o m _ i kt _ []);
      [done|done|reflexivity|reflexivity|reflexivity| | |done].
    + cbn. by rewrite app_nil_r.
    + constructor.
  - pose proof (find_next_state _ _ _ _ Hf) as Hst.
    destruct (find_next_Some _ _ _ _ Hf) as (bf & af & Hq & -> & _ & _).
    pose proof Hg as (Hlt & Hrun & Hz & _).
    assert (serial cur <> o) as Hc by (apply Hrun; by eapply running_elem).
    apply (gone_intro o m _ (switch_events i cur next));
      [done|cbn; lia| | |reflexivity|].
    + intros t [Ht|Ht]%running_update_elem.
      * injection Ht as <-. cbn. intros Ho.
        assert (state next = kZombie) as Hzn.
        { apply Hz; [|done]. rewrite Hq, elem_of_app, elem_of_cons. auto. }
        destruct Hst as [Hst|[_ Hst]]; congruence.
      * by apply Hrun.
    + cbn. intros t Ht Ho. rewrite !elem_of_app in Ht.
      destruct Ht as [[Ht|Ht]|Ht].
      * apply Hz; [|done]. rewrite Hq, elem_of_app. auto.
      * apply Hz; [|done]. rewrite Hq, elem_of_app, elem_of_cons. auto.
      * apply list_elem_of_singleton in Ht as ->.
        cbn in Ho. by rewrite demote_serial in Ho.
    + apply quiet_not_abort_of, switch_events_quiet.
Qed.

Lemma gone_Spawn_setup (o : nat) (fn arg : Z)
  (m m' : Machine) (t : Thread) :
  gone o m -> Spawn_setup E fn arg m = Some (t, m') -> gone o m'.
Proof.
  intros Hg Hs. unfold Spawn_setup, Thread_new in Hs. cbn in Hs.
  destruct (bool_decide (malloc E (mallocs m) = 0)); [done|].
  cbn in Hs. injection Hs as <- <-.
  pose proof Hg as (Hlt & Hrun & Hz & _).
  eapply (gone_intro o m _ [_]); [done|cbn; lia|done| |reflexivity|].
  - cbn. intros t [->|Ht]%elem_of_cons Ho; [cbn in Ho; lia|by apply Hz].
  - by repeat constructor.
Qed.

Lemma gone_Initialize (o : nat) (i : nat) (k : Code)
  (kt : KThread) (m : Machine) :
  gone o m -> kthreads m !! i = Some kt -> gone o (Initialize E i k kt m).
Proof.
  intros Hg Hkt. pose proof Hg as (Hlt & Hrun & Hz & _).
  eapply (gone_intro o m _ _); [done|cbn; lia| |done|reflexivity|].
  - intros t [Ht|Ht]%running_update_elem; [|by apply Hrun].
    injection Ht as <-. cbn. lia.
  - unfold destroy. destruct (current_thread kt) as [old|]; [|constructor].
    by destruct (stack old); repeat constructor.
Qed.

Lemma gone_GarbageCollect (o : nat) (i : nat) (kt kt' : KThread)
  (m : Machine) :
  gone o m -> kthreads m !! i = Some kt ->
  current_thread kt' = current_thread kt ->
  gone o (set_kthread i kt' (GarbageCollect m)).
Proof.
  intros Hg Hkt Hcur. rewrite GarbageCollect_eq.
  pose proof Hg as (Hlt & Hrun & Hz & _).
  eapply (gone_intro o m _ _); [done|cbn; lia| | |reflexivity|].
  - intros t [Ht|Ht]%running_update_elem; [|by apply Hrun].
    apply Hrun. eapply running_elem; [done|]. by rewrite <- Hcur.
  - cbn. intros t [_ Ht]%list_elem_of_filter. by apply Hz.
  - apply quiet_not_abort_of, GarbageCollect_quiet.
Qed.

Lemma gone_step (o : nat) (i : nat) (m m' : Machine) :
  gone o m -> step E i m = Some m' -> gone o m'.
Proof.
  intros Hg Hs.
  destruct (aborted m) eqn:Ha;
    [unfold step in Hs; rewrite Ha in Hs; by injection Hs as <-|].
  destruct (kthreads m !! i) as [kt|] eqn:Hkt;
    [|by unfold step in Hs; rewrite Ha, Hkt in Hs].
  rewrite (step_running E i m kt Ha Hkt) in Hs.
  destruct (pc kt) eqn:Hpc.
  - by injection Hs as <-.
  - injection Hs as <-.
    apply (gone_intro o m _ [EvAbort (serial <$> current_thread kt)]);
      [done|cbn; lia|by destruct Hg as (_ & ? & _)
      |by destruct Hg as (_ & _ & ? & _)|reflexivity|].
    repeat constructor. intros Heq.
    destruct (current_thread kt) as [cur|] eqn:Hcur; [|done].
    injection Heq as Heq. destruct Hg as (_ & Hrun & _).
    eapply Hrun; [|exact Heq]. by eapply running_elem.
  - injection Hs as <-. by apply gone_Initialize.
  - unfold Spawn in Hs.
    destruct (Spawn_setup E fn arg m) as [[t m1]|] eqn:Hset; [|done].
    cbn in Hs. eapply gone_Yield; [|exact Hs]. by eapply gone_Spawn_setup.
  - by eapply gone_Yield.
  - option_inv Hs. injection Hs as <-.
    eapply (gone_local o m _ i kt _ [_]);
      [done|done|reflexivity|reflexivity|reflexivity|reflexivity| |].
    + by repeat constructor.
    + by rewrite Hx.
  - injection Hs as <-. by apply (gone_GarbageCollect o i kt).
  - injection Hs as <-.
    eapply (gone_local o m _ i kt _ [_; _]);
      [done|done|reflexivity|reflexivity|reflexivity|reflexivity| |done].
    by repeat constructor.
  - injection Hs as <-.
    eapply (gone_local o m _ i kt _ []);
      [done|done|reflexivity|reflexivity|reflexivity| | |done].
    + cbn. by rewrite app_nil_r.
    + constructor.
  - injection Hs as <-.
    eapply (gone_local o m _ i kt _ [_]);
      [done|done|reflexivity|reflexivity|reflexivity|reflexivity| |done].
    by repeat constructor.
  - option_inv Hs. injection Hs as <-.
    eapply (gone_local o m _ i kt _ [_]);
      [done|done|reflexivity|reflexivity|reflexivity|reflexivity| |].
    + by repeat constructor.
    + by rewrite Hx.
  - by eapply gone_Yield.
  - unfold StartThread in Hs. option_inv Hs. injection Hs as <-.
    eapply (gone_local o m _ i kt _ []);
      [done|done|reflexivity|reflexivity|reflexivity| | |done].
    + cbn. by rewrite app_nil_r.
    + constructor.
Qed.

Lemma gone_run (o : nat) (schedule : list nat)
  (m m' : Machine) :
  gone o m -> run E schedule m = Some m' -> gone o m'.
Proof.
  revert m. induction schedule as [|i schedule IH]; intros m Hg Hr.
  - by injection Hr as <-.
  - cbn in Hr. destruct (step E i m) as [m1|] eqn:Hs; [|done].
    eapply IH; [|exact Hr]. by eapply gone_step.
Qed.

End Ownership.

Lemma wf_current (m : Machine) (i : nat) (kt : KThread) (t : Thread) :
  wf m -> kthreads m !! i = Some kt -> current_thread kt = Some t ->
  (serial t < created m)%nat /\
  (forall x, x ∈ thread_queue m -> serial x <> serial t) /\
  exists others,
    (forall kt', running (<[i := kt']> (kthreads m))
                 ≡ₚ option_list (current_thread kt') ++ others) /\
    (forall x, x ∈ others -> serial x <> serial t).
Proof.
  intros (Hnd & Hlt & _) Hkt Hcur.
  destruct (running_update _ _ _ Hkt) as (others & H1 & H2).
  rewrite Hcur in H1. cbn in H1. unfold owned in Hnd, Hlt.
  rewrite H1 in Hnd, Hlt. rewrite fmap_app, fmap_cons in Hnd.
  apply NoDup_app in Hnd as (_ & Hdisj & Hnd).
  apply NoDup_cons in Hnd as [Hni _].
  split; [|split].
  - rewrite Forall_forall in Hlt. apply Hlt.
    apply list_elem_of_fmap_2, elem_of_app. right. apply elem_of_cons. by left.
  - intros x Hx Heq.
    apply (Hdisj (serial x)); [by apply list_elem_of_fmap_2|].
    rewrite Heq. apply elem_of_cons. by left.
  - exists others. split; [done|]. intros x Hx Heq. apply Hni.
    rewrite <- Heq. by apply list_elem_of_fmap_2.
Qed.

(** C6.  [ThreadEntry] is the user function followed by: set the state of
    the running thread to Zombie, call [Yield], fail the assertion.  So the
    state is Zombie before [Yield] is called.  No [Yield] selects a Zombie.
    And in every state that a run of the process reaches, if a kernel
    thread is at that last [Yield] with its current thread a Zombie and
    some thread of the queue is eligible, then [Yield] transfers control
    and, whatever the kernel threads do afterwards, that thread is never
    again current on any kernel thread, is a Zombie for as long as it is in
    the queue, and never fails the assertion. *)
Theorem ThreadEntry_final_Yield_never_returns (E : Platform) :
  (forall fn arg,
      ThreadEntry E fn arg
      = seq (text E fn arg)
            (cSetState kZombie (cYield None (fun _ => Abort)))) /\
  (forall i m kt t,
      aborted m = false -> kthreads m !! i = Some kt ->
      current_thread kt = Some t ->
      pc kt = cSetState kZombie (cYield None (fun _ => Abort)) ->
      step E i m
      = Some (set_kthread i
                (mkKThread (Some (set_state kZombie t)) (initial_thread_id kt)
                           (cYield None (fun _ => Abort)))
                (emit [EvSetState (serial t) kZombie] m))) /\
  (forall only_ready queue z rest,
      find_next only_ready queue = Some (z, rest) -> state z <> kZombie) /\
  (forall mains schedule m i kt t u,
      run E schedule (boot mains) = Some m ->
      aborted m = false ->
      kthreads m !! i = Some kt ->
      current_thread kt = Some t ->
      state t = kZombie ->
      pc kt = cYield None (fun _ => Abort) ->
      u ∈ thread_queue m ->
      eligible (yield_default E) u = true ->
      exists m2,
        step E i m = Some m2 /\
        forall schedule' m3,
          run E schedule' m2 = Some m3 ->
          (forall kt3 t3, kt3 ∈ kthreads m3 -> current_thread kt3 = Some t3 ->
                          serial t3 <> serial t) /\
          (forall z, z ∈ thread_queue m3 -> serial z = serial t ->
                     state z = kZombie) /\
          EvAbort (Some (serial t)) ∉ trace m3).
Proof.
  split; [done|]. split; [|split].
  - intros i m kt t Ha Hkt Hcur Hpc.
    by rewrite (step_running E i m kt Ha Hkt), Hpc, Hcur.
  - intros only_ready queue z rest Hf.
    destruct (find_next_state _ _ _ _ Hf) as [Hs|[_ Hs]]; by rewrite Hs.
  - intros mains schedule m i kt t u Hrun Ha Hkt Hcur Hz Hpc Hu He.
    assert (wf m) as Hwf by (eapply wf_run; [apply wf_boot|exact Hrun]).
    destruct (find_next (yield_default E) (thread_queue m))
      as [[next rest]|] eqn:Hf.
    2: { apply find_next_None in Hf. rewrite Forall_forall in Hf.
         specialize (Hf u Hu). congruence. }
    eexists. split.
    { rewrite (step_running E i m kt Ha Hkt), Hpc. cbn [default].
      by apply Yield_Some. }
    assert (gone (serial t)
              (set_kthread i
                 (mkKThread (Some (set_state kRunning next))
                            (initial_thread_id kt) (resume next))
                 (set_queue
                    (rest ++ [set_resume (cGarbageCollect Abort) (demote t)])
                    (emit (switch_events i t next) m)))) as Hgone.
    { destruct (wf_current m i kt t Hwf Hkt Hcur)
        as (Hlt & Hq & others & Hrun' & Hothers).
      destruct (find_next_Some _ _ _ _ Hf) as (bf & af & Hqeq & -> & _ & _).
      repeat split.
      - exact Hlt.
      - cbn. intros x Hx. rewrite Hrun' in Hx. cbn in Hx.
        apply elem_of_cons in Hx as [->|Hx]; [|by apply Hothers].
        cbn. apply Hq. rewrite Hqeq, elem_of_app, elem_of_cons. auto.
      - cbn. intros x Hx Hsx. rewrite !elem_of_app in Hx.
        destruct Hx as [[Hx|Hx]|Hx].
        + exfalso. apply (Hq x); [|done]. rewrite Hqeq, elem_of_app. auto.
        + exfalso. apply (Hq x); [|done].
          rewrite Hqeq, elem_of_app, elem_of_cons. auto.
        + apply list_elem_of_singleton in Hx as ->. cbn.
          unfold demote. by rewrite Hz.
      - cbn. apply Forall_app. split.
        + apply quiet_not_abort_of. by apply Hwf.
        + apply quiet_not_abort_of, switch_events_quiet. }
    intros schedule' m3 Hrun3.
    destruct (gone_run _ _ _ _ _ Hgone Hrun3) as (_ & Hr3 & Hz3 & Ht3).
    split; [|split].
    + intros kt3 t3 Hk3 Hc3. apply Hr3.
      apply list_elem_of_omap. by exists kt3.
    + exact Hz3.
    + intros Hin. rewrite Forall_forall in Ht3. by apply (Ht3 _ Hin).
Qed.

(** ** Scenarios *)

Lemma run_app (E : Platform) (s1 s2 : list nat) (m : Machine) :
  run E (s1 ++ s2) m = run E s1 m ≫= run E s2.
Proof.
  revert m. induction s1 as [|i s1 IH]; intros m; [done|].
  cbn. destruct (step E i m); [apply IH|done].
Qed.

(** [Yield(true)] over an empty queue, [n] times: each call returns
    [false] and changes nothing. *)
Lemma run_yields (E : Platform) (n : nat) (k : Code) (m : Machine)
  (kt : KThread) :
  aborted m = false -> thread_queue m = [] -> kthreads m = [kt] ->
  pc kt = yields n k ->
  exists m',
    run E (replicate (2 * n) 0%nat) m = Some m' /\
    aborted m' = false /\ thread_queue m' = [] /\
    kthreads m' = [set_pc k kt] /\
    cells m' = cells m /\
    trace m' = trace m ++ replicate n (EvOutput 0).
Proof.
  revert m kt. induction n as [|n IH]; intros m kt Ha Hq Hk Hpc.
  - exists m. change (replicate 0 (EvOutput 0)) with (@nil Event).
    rewrite app_nil_r. repeat split; try done.
    rewrite Hk. f_equal. destruct kt. cbn in *. by subst.
  - destruct m as [q nid cr ml kts c tr ab].
    destruct kt as [cur ini code]. cbn in Ha, Hq, Hk, Hpc. subst.
    replace (2 * S n)%nat with (2 + 2 * n)%nat by lia.
    rewrite replicate_add, run_app.
    edestruct (IH (mkMachine [] nid cr ml
                     [mkKThread cur ini (yields n k)] c
                     (tr ++ [EvOutput 0]) false)) as (m' & Hr & ? & ? & ? & ? & Ht);
      [reflexivity|reflexivity|reflexivity|reflexivity|].
    exists m'. split; [|repeat split; try done].
    + exact Hr.
    + rewrite Ht. cbn. by rewrite <- app_assoc.
Qed.

Lemma run_report (E : Platform) (m : Machine) (kt : KThread) :
  aborted m = false -> thread_queue m = [] -> kthreads m = [kt] ->
  pc kt = report ->
  exists m',
    run E (replicate 3 0%nat) m = Some m' /\
    cells m' = cells m /\
    trace m' = trace m ++ [EvLock; EvUnlock; EvOutput 0; EvOutput 0].
Proof.
  intros Ha Hq Hk Hpc.
  destruct m as [q nid cr ml kts c tr ab].
  destruct kt as [cur ini code]. cbn in Ha, Hq, Hk, Hpc. subst.
  eexists. split; [reflexivity|]. split; [reflexivity|].
  cbn. by rewrite <- !app_assoc.
Qed.

Lemma outputs_replicate (n : nat) (v : Z) :
  outputs (replicate n (EvOutput v)) = replicate n v.
Proof. induction n as [|n IH]; [done|]. cbn. by rewrite <- IH. Qed.

(** C9 (amended).  [Initialize], then [Spawn(f, a)] with [f] adding 1 to
    the counter, with [Yield]'s default argument false: when [Spawn]
    returns, the counter is 1 already, the spawned thread has run, has
    become a Zombie and has been reclaimed by the [GarbageCollect] pass of
    the [Yield] that the original thread was suspended in, and the queue is
    empty.  Each of the [n] calls of [Yield(true)] that follow returns
    [false], and [GetThreadCount] then reports no runnable and no zombie
    thread. *)
Theorem counter_scenario_outcome (n : nat) :
  (exists m7 kt,
      run (demo_platform false) (replicate 7 0%nat) (boot [counter_scenario n])
        = Some m7 /\
      kthreads m7 = [kt] /\ pc kt = yields n report /\
      cells m7 counter_addr = 1%nat /\
      thread_queue m7 = [] /\
      trace m7 = [EvInsertFront 1; EvErase 1; EvSetState 1 kRunning;
                  EvPushBack 0; EvSetCurrent 0 1; EvContextSwitch 0 1;
                  EvSetState 1 kZombie;
                  EvErase 0; EvSetState 0 kRunning; EvPushBack 1;
                  EvSetCurrent 0 0; EvContextSwitch 1 0;
                  EvFree 0x7f0000000000; EvErase 1]) /\
  (exists m,
      run (demo_platform false) (replicate (10 + 2 * n) 0%nat)
          (boot [counter_scenario n]) = Some m /\
      cells m counter_addr = 1%nat /\
      outputs (trace m) = replicate n 0 ++ [0; 0]).
Proof.
  assert (exists m7 kt,
      run (demo_platform false) (replicate 7 0%nat) (boot [counter_scenario n])
        = Some m7 /\
      kthreads m7 = [kt] /\ pc kt = yields n report /\
      cells m7 counter_addr = 1%nat /\
      thread_queue m7 = [] /\
      trace m7 = [EvInsertFront 1; EvErase 1; EvSetState 1 kRunning;
                  EvPushBack 0; EvSetCurrent 0 1; EvContextSwitch 0 1;
                  EvSetState 1 kZombie;
                  EvErase 0; EvSetState 0 kRunning; EvPushBack 1;
                  EvSetCurrent 0 0; EvContextSwitch 1 0;
                  EvFree 0x7f0000000000; EvErase 1] /\
      aborted m7 = false) as (m7 & kt & H7 & Hk & Hpc & Hc & Hq & Ht & Ha).
  { eexists _, _. split; [vm_compute; reflexivity|].
    repeat split; reflexivity. }
  split; [by exists m7, kt|].
  destruct (run_yields (demo_platform false) n report m7 kt Ha Hq Hk Hpc)
    as (m8 & H8 & Ha8 & Hq8 & Hk8 & Hc8 & Ht8).
  destruct (run_report (demo_platform false) m8 (set_pc report kt) Ha8 Hq8 Hk8
              eq_refl) as (m & Hm & Hcm & Htm).
  exists m. split; [|split].
  - replace (10 + 2 * n)%nat with (7 + (2 * n + 3))%nat by lia.
    rewrite replicate_add, run_app, H7. cbn [mbind option_bind].
    rewrite replicate_add, run_app, H8. exact Hm.
  - by rewrite Hcm, Hc8.
  - rewrite Htm, Ht8, Ht. unfold outputs. rewrite !omap_app.
    fold (outputs (replicate n (EvOutput 0))). by rewrite outputs_replicate.
Qed.

(** C9, as the specification has it, fails: in that run the zombie count
    that [GetThreadCount] reports is not 1, after none, one or two calls of
    [Yield(true)], whichever the default argument of [Yield] is. *)
Lemma counter_scenario_zombie_count_is_not_1 :
  ~ (exists n m,
        (n <= 2)%nat /\
        run (demo_platform false) (replicate (10 + 2 * n) 0%nat)
            (boot [counter_scenario n]) = Some m /\
        cells m counter_addr = 1%nat /\
        last (outputs (trace m)) = Some 1) /\
  ~ (exists n m,
        (n <= 2)%nat /\
        run (demo_platform true) (replicate (10 + 2 * n) 0%nat)
            (boot [counter_scenario n]) = Some m /\
        cells m counter_addr = 1%nat /\
        last (outputs (trace m)) = Some 1).
Proof.
  split; intros (n & m & Hn & Hrun & _ & Hz);
    destruct n as [|[|[|n]]]; try lia;
    vm_compute in Hrun; injection Hrun as <-;
    vm_compute in Hz; discriminate Hz.
Qed.

(** C3: what the code does.  Kernel thread 0 initializes (its initial
    thread has id 0), spawns and yields; kernel thread 1 initializes (its
    initial thread has id 2) and calls [Yield(false)]: that call makes the
    initial thread of kernel thread 0 the current, Running thread of kernel
    thread 1. *)
Theorem Yield_takes_initial_thread_of_other_kthread (default : bool) :
  exists m ktA ktB t,
    run (demo_platform default) [0; 0; 0; 1; 1]%nat (boot two_kthreads)
      = Some m /\
    kthreads m !! 0%nat = Some ktA /\
    kthreads m !! 1%nat = Some ktB /\
    initial_thread_id ktA = 0 /\
    initial_thread_id ktB = 2 /\
    current_thread ktB = Some t /\
    id t = initial_thread_id ktA /\
    state t = kRunning /\
    last (trace m) = Some (EvContextSwitch 2 0).
Proof.
  destruct default.
  - eexists _, _, _, _. split; [vm_compute; reflexivity|].
    repeat split; reflexivity.
  - eexists _, _, _, _. split; [vm_compute; reflexivity|].
    repeat split; reflexivity.
Qed.

(** C4: what the code does.  [GetThreadCount] takes the mutex and releases
    it; the insertion of [Spawn], the removal and the insertion of [Yield]
    and the removal of [GarbageCollect] take place with the mutex never
    taken. *)
Theorem queue_is_changed_without_queue_lock :
  (forall m, trace (snd (GetThreadCount m)) = trace m ++ [EvLock; EvUnlock]) /\
  (forall i cur next,
      guarded false (switch_events i cur next) = false /\
      EvLock ∉ switch_events i cur next) /\
  exists m,
    run (demo_platform false) (replicate 7 0%nat) (boot [counter_scenario 0])
      = Some m /\
    trace m = [EvInsertFront 1; EvErase 1; EvSetState 1 kRunning;
               EvPushBack 0; EvSetCurrent 0 1; EvContextSwitch 0 1;
               EvSetState 1 kZombie;
               EvErase 0; EvSetState 0 kRunning; EvPushBack 1;
               EvSetCurrent 0 0; EvContextSwitch 1 0;
               EvFree 0x7f0000000000; EvErase 1] /\
    guarded false (trace m) = false /\
    EvLock ∉ trace m.
Proof.
  split; [done|]. split.
  { intros i cur next. unfold switch_events. split; [done|].
    intros Hin.
    destruct (bool_decide (state cur = kRunning)); cbn in Hin;
      rewrite !elem_of_cons in Hin;
      repeat (destruct Hin as [Hin|Hin]; [discriminate Hin|]);
      by apply elem_of_nil in Hin. }
  eexists. split; [vm_compute; reflexivity|].
  split; [reflexivity|]. split; [reflexivity|].
  intros Hin. cbn in Hin. rewrite !elem_of_cons in Hin.
  repeat (destruct Hin as [Hin|Hin]; [discriminate Hin|]).
  by apply elem_of_nil in Hin.
Qed.

(** ** The theorems at work on the scenarios *)

(** After [Initialize] and [Spawn] with the default argument true, the
    queue holds the new thread, Waiting: [Yield(true)] finds nothing,
    [Yield(false)] finds it, at the front. *)
Lemma Yield_selects_first_eligible_witness :
  find_next true
    (thread_queue (after (demo_platform true) [0; 0]%nat [counter_scenario 0]))
    = None /\
  exists t,
    find_next false
      (thread_queue
         (after (demo_platform true) [0; 0]%nat [counter_scenario 0]))
    = Some (t, []) /\ state t = kWaiting.
Proof.
  split.
  - apply (Yield_selects_first_eligible true 0 (fun _ => Ret)
             (after (demo_platform true) [0; 0]%nat [counter_scenario 0])
             (kthread_at
                (after (demo_platform true) [0; 0]%nat [counter_scenario 0]) 0)
             ltac:(vm_compute; reflexivity)).
    vm_compute. repeat constructor.
  - eexists.
    edestruct (Yield_selects_first_eligible false 0 (fun _ => Ret)
                 (after (demo_platform true) [0; 0]%nat [counter_scenario 0])
                 (kthread_at
                    (after (demo_platform true) [0; 0]%nat
                           [counter_scenario 0]) 0)
                 ltac:(vm_compute; reflexivity)) as (H1 & _ & _).
    edestruct H1 as (bf & af & _ & _ & _ & He & _);
      [vm_compute; reflexivity|].
    split; [vm_compute; reflexivity|reflexivity].
Defined.

Lemma Yield_switches_to_selected_witness :
  exists m' suspended,
    Yield 0 false (fun _ => Ret)
      (after (demo_platform true) [0; 0]%nat [counter_scenario 0]) = Some m' /\
    thread_queue m' = [suspended] /\
    serial suspended = 0%nat /\
    state suspended = kWaiting /\
    resume suspended = cGarbageCollect Ret.
Proof.
  edestruct (Yield_switches_to_selected (demo_platform true) 0 false
               (fun _ => Ret)
               (after (demo_platform true) [0; 0]%nat [counter_scenario 0])
               (kthread_at
                  (after (demo_platform true) [0; 0]%nat [counter_scenario 0])
                  0))
    as (m' & s & HY & Hst & Hse & _ & _ & Hq & _ & _ & Hr & _);
    [vm_compute; reflexivity|vm_compute; reflexivity|vm_compute; reflexivity|].
  exists m', s. split; [exact HY|]. split; [exact Hq|].
  split; [exact Hse|]. split; [exact Hst|exact Hr].
Defined.

Lemma Spawn_primes_stack_then_yields_witness :
  exists t m' sp,
    Spawn_setup (demo_platform false) bump_fn counter_addr (boot [Ret])
      = Some (t, m') /\
    rsp (context t) = Some sp /\
    sp = 0x7f0000000000 + kStackSize - 32 /\
    sp mod 16 = 0.
Proof.
  destruct (Spawn_primes_stack_then_yields (demo_platform false) 0
              bump_fn counter_addr Ret (boot [Ret]))
    as (t & buf & m' & Hs & _ & Hb & _ & _ & _ & _ & Hrsp & Hal & _);
    [vm_compute; discriminate|].
  rewrite Hb in Hal.
  destruct Hal as [Heq Hmod]; [vm_compute; discriminate..|].
  exists t, m', (0x7f0000000000 + kStackSize - 32).
  split; [exact Hs|]. split; [|split; [reflexivity|]].
  - rewrite Hrsp, Hb, Heq. reflexivity.
  - apply Hmod. reflexivity.
Defined.

(** The counter scenario, five steps in: the spawned thread (serial 1) has
    run its function, is a Zombie and is at the last [Yield] of
    [ThreadEntry], with the original thread eligible in the queue. *)
Lemma ThreadEntry_final_Yield_never_returns_witness :
  exists m2,
    step (demo_platform false) 0
      (after (demo_platform false) (replicate 5 0%nat) [counter_scenario 0])
      = Some m2 /\
    forall schedule' m3,
      run (demo_platform false) schedule' m2 = Some m3 ->
      EvAbort (Some 1%nat) ∉ trace m3.
Proof.
  destruct (ThreadEntry_final_Yield_never_returns (demo_platform false))
    as (_ & _ & _ & H).
  edestruct (H [counter_scenario 0] (replicate 5 0%nat)
               (after (demo_platform false) (replicate 5 0%nat)
                      [counter_scenario 0]) 0%nat)
    as (m2 & Hs & Hnever);
    [vm_compute; reflexivity|reflexivity|vm_compute; reflexivity
    |vm_compute; reflexivity|reflexivity|reflexivity
    |apply list_elem_of_here|reflexivity|].
  exists m2. split; [exact Hs|].
  intros schedule' m3 Hrun. by apply (Hnever schedule' m3 Hrun).
Defined.

Lemma Wait_drains_ready_threads_witness :
  (exists m1,
      step (demo_platform false) 0
        (after (demo_platform false) [0]%nat [cInitialize (cWait Ret)])
        = Some m1 /\
      (state <$> current_thread (kthread_at m1 0)) = Some kWaiting /\
      pc (kthread_at m1 0) = cWaitLoop Ret) /\
  step (demo_platform false) 0
    (after (demo_platform false) [0; 0]%nat [cInitialize (cWait Ret)])
  = Some (set_kthread 0
            (set_pc Ret
               (kthread_at
                  (after (demo_platform false) [0; 0]%nat
                         [cInitialize (cWait Ret)]) 0))
            (after (demo_platform false) [0; 0]%nat
                   [cInitialize (cWait Ret)])).
Proof.
  edestruct (Wait_drains_ready_threads (demo_platform false) 0 Ret
               (after (demo_platform false) [0]%nat [cInitialize (cWait Ret)])
               (kthread_at
                  (after (demo_platform false) [0]%nat
                         [cInitialize (cWait Ret)]) 0))
    as (H1 & Hloop & _ & _);
    [reflexivity|vm_compute; reflexivity|reflexivity|vm_compute; reflexivity|].
  split.
  - eexists. split; [exact H1|]. split; reflexivity.
  - exact (proj1
      (Hloop 0%nat
         (after (demo_platform false) [0; 0]%nat [cInitialize (cWait Ret)])
         (kthread_at
            (after (demo_platform false) [0; 0]%nat [cInitialize (cWait Ret)])
            0)
         (current_at
            (after (demo_platform false) [0; 0]%nat [cInitialize (cWait Ret)])
            0)
         eq_refl eq_refl eq_refl eq_refl
       : step (demo_platform false) 0
           (after (demo_platform false) [0; 0]%nat [cInitialize (cWait Ret)])
         = Some (set_kthread 0
                   (set_pc Ret
                      (kthread_at
                         (after (demo_platform false) [0; 0]%nat
                                [cInitialize (cWait Ret)]) 0))
                   (after (demo_platform false) [0; 0]%nat
                          [cInitialize (cWait Ret)])) /\
         current_thread
           (set_pc Ret
              (kthread_at
                 (after (demo_platform false) [0; 0]%nat
                        [cInitialize (cWait Ret)]) 0))
         = Some (current_at
                   (after (demo_platform false) [0; 0]%nat
                          [cInitialize (cWait Ret)]) 0))).
Defined.

Lemma threads_are_constructed_Waiting_witness :
  (exists t,
      kthreads (Initialize (demo_platform false) 0 Ret
                  (kthread_at (boot [cInitialize Ret]) 0)
                  (boot [cInitialize Ret])) !! 0%nat
      = Some (mkKThread (Some t) (id t) Ret) /\
      state t = kWaiting) /\
  (exists m' suspended,
      Yield 0 false (fun _ => Ret)
        (after (demo_platform true) [0; 0]%nat [counter_scenario 0])
      = Some m' /\
      thread_queue m' = [] ++ [suspended] /\
      serial suspended = 0%nat /\ state suspended = kWaiting).
Proof.
  destruct (threads_are_constructed_Waiting (demo_platform false))
    as (_ & Hinit & _ & _ & _ & HY & _).
  split.
  - destruct (Hinit 0%nat Ret (kthread_at (boot [cInitialize Ret]) 0)
                (boot [cInitialize Ret]) eq_refl) as (t & Ht & Hs & _).
    by exists t.
  - edestruct (HY 0%nat false (fun _ : bool => Ret)
                 (after (demo_platform true) [0; 0]%nat [counter_scenario 0]))
      as (m' & s & Hm & Hq & Hse & Hst);
      [vm_compute; reflexivity|vm_compute; reflexivity|reflexivity
      |vm_compute; reflexivity|].
    exists m', s. split; [exact Hm|]. split; [exact Hq|]. by split.
Defined.

(** * Further properties of the runtime *)

(** ** Accounting *)

Lemma count_threads_filter (queue : list Thread) (ready zombie : Z) :
  count_threads queue ready zombie
  = (ready + Z.of_nat (length (filter (fun t => state t <> kZombie) queue)),
     zombie + Z.of_nat (length (filter (fun t => state t = kZombie) queue))).
Proof.
  revert ready zombie. induction queue as [|t queue IH]; intros ready zombie.
  - cbn. f_equal; lia.
  - cbn [count_threads]. rewrite !filter_cons.
    destruct (decide (state t = kZombie)) as [Hz|Hz].
    + rewrite bool_decide_eq_true_2 by done. rewrite IH.
      destruct (decide (state t <> kZombie)); [done|].
      cbn [length]. f_equal; lia.
    + rewrite bool_decide_eq_false_2 by done. rewrite IH.
      destruct (decide (state t <> kZombie)); [|done].
      cbn [length]. f_equal; lia.
Qed.

Lemma filter_split_length (queue : list Thread) :
  (length (filter (fun t => state t <> kZombie) queue)
   + length (filter (fun t => state t = kZombie) queue)
   = length queue)%nat.
Proof.
  induction queue as [|t queue IH]; [done|].
  rewrite !filter_cons.
  destruct (decide (state t = kZombie)), (decide (state t <> kZombie));
    cbn [length]; try done; lia.
Qed.

(** X1.  [GetThreadCount] returns the number of threads of the queue that
    are not Zombie and the number of those that are; the two add up to the
    length of the queue; the call takes the mutex, releases it, and leaves
    the queue, the kernel threads and the memory as they are. *)
Theorem GetThreadCount_counts_the_queue (m : Machine) :
  fst (GetThreadCount m)
  = (Z.of_nat (length (filter (fun t => state t <> kZombie) (thread_queue m))),
     Z.of_nat (length (filter (fun t => state t = kZombie) (thread_queue m)))) /\
  fst (fst (GetThreadCount m)) + snd (fst (GetThreadCount m))
  = Z.of_nat (length (thread_queue m)) /\
  thread_queue (snd (GetThreadCount m)) = thread_queue m /\
  kthreads (snd (GetThreadCount m)) = kthreads m /\
  cells (snd (GetThreadCount m)) = cells m /\
  trace (snd (GetThreadCount m)) = trace m ++ [EvLock; EvUnlock].
Proof.
  unfold GetThreadCount. cbn [fst snd].
  rewrite count_threads_filter. cbn [fst snd].
  repeat split; try done.
  pose proof (filter_split_length (thread_queue m)). lia.
Qed.

(** X2.  After [GarbageCollect], [GetThreadCount] reports the runnable
    count it would have reported before and no zombie; the length of the
    queue is that runnable count. *)
Theorem GarbageCollect_keeps_runnable_count (m : Machine) :
  fst (GetThreadCount (GarbageCollect m))
  = (fst (fst (GetThreadCount m)), 0) /\
  Z.of_nat (length (thread_queue (GarbageCollect m)))
  = fst (fst (GetThreadCount m)) /\
  Z.of_nat (length (thread_queue m))
  = Z.of_nat (length (thread_queue (GarbageCollect m)))
    + snd (fst (GetThreadCount m)).
Proof.
  rewrite GarbageCollect_eq. unfold GetThreadCount.
  cbn [fst snd thread_queue set_queue emit].
  rewrite (count_threads_no_zombie (filter _ (thread_queue m)))
    by apply survivors_no_zombie.
  rewrite !count_threads_filter. cbn [fst snd].
  pose proof (filter_split_length (thread_queue m)).
  repeat split; try lia.
Qed.

Lemma Spawn_setup_inv (E : Platform) (fn arg : Z) (m m1 : Machine)
  (t : Thread) :
  Spawn_setup E fn arg m = Some (t, m1) ->
  malloc E (mallocs m) <> 0 /\
  thread_queue m1 = t :: thread_queue m /\
  kthreads m1 = kthreads m /\
  created m1 = S (created m) /\
  next_id m1 = wrap64 (next_id m + 1) /\
  aborted m1 = aborted m /\
  cells m1 = cells m /\
  id t = next_id m /\ serial t = created m /\
  state t = kWaiting /\ resume t = cStartThread /\
  is_Some (stack t).
Proof.
  intros Hs. unfold Spawn_setup, Thread_new in Hs. cbn in Hs.
  destruct (decide (malloc E (mallocs m) = 0)) as [H0|H0].
  - by rewrite bool_decide_eq_true_2 in Hs by done.
  - rewrite bool_decide_eq_false_2 in Hs by done. cbn in Hs.
    injection Hs as <- <-. by repeat split.
Qed.

(** X3.  [Yield] never changes the number of threads in the queue: when it
    switches, one thread leaves the queue and the suspended one enters it.
    [Spawn] leaves the queue one thread longer than it found it. *)
Theorem Yield_keeps_queue_length (E : Platform) (i : nat) (m m' : Machine) :
  (forall only_ready ret,
      Yield i only_ready ret m = Some m' ->
      length (thread_queue m') = length (thread_queue m)) /\
  (forall fn arg k,
      Spawn E i fn arg k m = Some m' ->
      length (thread_queue m') = S (length (thread_queue m))).
Proof.
  assert (forall only_ready ret m0,
             Yield i only_ready ret m0 = Some m' ->
             length (thread_queue m') = length (thread_queue m0)) as HY.
  { intros only_ready ret m0
      (kt & Hkt & [[Hf ->]|(cur & next & rest & Hcur & Hf & ->)])%Yield_inv;
      [done|].
    destruct (find_next_Some _ _ _ _ Hf) as (bf & af & -> & -> & _).
    cbn. rewrite !length_app. cbn. lia. }
  split; [intros; by eapply HY|].
  intros fn arg k Hs. unfold Spawn in Hs.
  destruct (Spawn_setup E fn arg m) as [[t m1]|] eqn:Hset; [|done].
  cbn in Hs. apply HY in Hs. rewrite Hs.
  apply Spawn_setup_inv in Hset as (_ & -> & _). done.
Qed.

(** ** Where the runtime dereferences a null pointer *)

Lemma not_eligible_or_found (only_ready : bool) (queue : list Thread) :
  Forall (fun u => eligible only_ready u = false) queue \/
  exists next rest, find_next only_ready queue = Some (next, rest).
Proof.
  destruct (find_next only_ready queue) as [[next rest]|] eqn:Hf.
  - right. by exists next, rest.
  - left. by apply find_next_None.
Qed.

Lemma not_Ready_not_eligible (queue : list Thread) :
  Forall (fun u => state u <> kReady) queue <->
  Forall (fun u => eligible true u = false) queue.
Proof.
  split; intros H; (eapply Forall_impl; [exact H|]); intros u Hu.
  - unfold eligible. cbn.
    rewrite bool_decide_eq_false_2 by done. reflexivity.
  - intros Hr. unfold eligible in Hu. by rewrite Hr in Hu.
Qed.

Lemma Yield_is_Some (i : nat) (only_ready : bool) (ret : bool -> Code)
  (m : Machine) :
  is_Some (Yield i only_ready ret m) <->
  exists kt,
    kthreads m !! i = Some kt /\
    (is_Some (current_thread kt) \/
     Forall (fun u => eligible only_ready u = false) (thread_queue m)).
Proof.
  split.
  - intros [m' (kt & Hkt & [[Hf ->]|(cur & next & rest & Hcur & Hf & ->)])%Yield_inv].
    + exists kt. split; [done|]. right. by apply find_next_None.
    + exists kt. split; [done|]. left. by exists cur.
  - intros (kt & Hkt & Hor).
    destruct (not_eligible_or_found only_ready (thread_queue m))
      as [Hall|(next & rest & Hf)].
    + apply find_next_None in Hall.
      rewrite (Yield_None _ _ _ _ _ Hkt Hall). by eexists.
    + destruct Hor as [[cur Hcur]|Hall].
      * rewrite (Yield_Some _ _ _ _ _ _ _ _ Hkt Hcur Hf). by eexists.
      * apply find_next_None in Hall. congruence.
Qed.

(** X4.  [Yield] dereferences [current_thread] only once it has found a
    thread to switch to.  So a call of [Yield] on a kernel thread that has
    not called [Initialize] is harmless (it returns [false]) exactly when
    no thread of the queue is eligible, and dereferences a null pointer
    otherwise; on a kernel thread with a current thread it is always
    defined.  [Wait], which starts by writing to the current thread, is
    defined exactly when there is one. *)
Theorem Yield_defined_iff (E : Platform) (i : nat) (only_ready : bool)
  (ret : bool -> Code) (m : Machine) :
  (is_Some (Yield i only_ready ret m) <->
   exists kt,
     kthreads m !! i = Some kt /\
     (is_Some (current_thread kt) \/
      Forall (fun u => eligible only_ready u = false) (thread_queue m))) /\
  (forall kt k,
      aborted m = false -> kthreads m !! i = Some kt -> pc kt = cWait k ->
      (is_Some (step E i m) <-> is_Some (current_thread kt))).
Proof.
  split; [apply Yield_is_Some|].
  intros kt k Ha Hkt Hpc.
  rewrite (step_running E i m kt Ha Hkt), Hpc.
  destruct (current_thread kt) as [cur|]; cbn.
  - split; intros _; by eexists.
  - split; intros [? ?]; done.
Qed.

(** X5.  [Spawn] writes through the pointer that [malloc] returns and then
    calls [Yield] with the new thread, Waiting, at the front of the queue.
    So [Spawn] is defined exactly when [malloc] does not return a null
    pointer and either the kernel thread has a current thread, or the
    default argument of [Yield] is [true] and the queue holds no Ready
    thread (the call then returns with the new thread left in the
    queue). *)
Theorem Spawn_defined_iff (E : Platform) (i : nat) (fn arg : Z) (k : Code)
  (m : Machine) :
  is_Some (Spawn E i fn arg k m) <->
  malloc E (mallocs m) <> 0 /\
  exists kt,
    kthreads m !! i = Some kt /\
    (is_Some (current_thread kt) \/
     (yield_default E = true /\
      Forall (fun u => state u <> kReady) (thread_queue m))).
Proof.
  unfold Spawn. split.
  - intros [m' Hs].
    destruct (Spawn_setup E fn arg m) as [[t m1]|] eqn:Hset; [|done].
    cbn in Hs.
    apply Spawn_setup_inv in Hset
      as (Hnull & Hq & Hk & _ & _ & _ & _ & _ & _ & Hst & _).
    split; [done|].
    apply Yield_inv in Hs
      as (kt & Hkt & [[Hf _]|(cur & next & rest & Hcur & Hf & _)]).
    + exists kt. rewrite <- Hk. split; [done|]. right.
      apply find_next_None in Hf. rewrite Hq in Hf.
      apply Forall_cons in Hf as [Ht Hall].
      unfold eligible in Ht. rewrite Hst in Ht.
      destruct (yield_default E); [|done]. split; [done|].
      by apply not_Ready_not_eligible.
    + exists kt. rewrite <- Hk. split; [done|]. left. by exists cur.
  - intros (Hnull & kt & Hkt & Hor).
    rewrite (Spawn_setup_eq E fn arg m Hnull). cbv zeta. cbn [mbind option_bind].
    apply Yield_is_Some.
    exists kt. split; [done|].
    destruct Hor as [Hcur|[Hd Hall]]; [by left|right].
    cbn [thread_queue]. rewrite Hd. constructor; [done|].
    by apply not_Ready_not_eligible.
Qed.

(** ** [Wait] with nothing Ready *)

Lemma lookup_set_kthread (i : nat) (kt kt' : KThread) (m : Machine) :
  kthreads m !! i = Some kt -> kthreads (set_kthread i kt' m) !! i = Some kt'.
Proof.
  intros Hkt. cbn. apply list_lookup_insert_eq. by eapply lookup_lt_Some.
Qed.

Lemma set_kthread_twice (i : nat) (kt kt' : KThread) (m : Machine) :
  set_kthread i kt' (set_kthread i kt m) = set_kthread i kt' m.
Proof. unfold set_kthread. cbn. by rewrite list_insert_insert_eq. Qed.

(** X6.  [Wait], called when no thread of the queue is Ready, returns at
    once: after its two steps the caller goes on, still the current thread
    of its kernel thread, and nothing has changed but its state, which is
    Waiting although it is running. *)
Theorem Wait_returns_at_once (E : Platform) (i : nat) (k : Code)
  (m : Machine) (kt : KThread) (cur : Thread) :
  aborted m = false ->
  kthreads m !! i = Some kt ->
  pc kt = cWait k ->
  current_thread kt = Some cur ->
  Forall (fun u => state u <> kReady) (thread_queue m) ->
  run E [i; i] m
  = Some (set_kthread i
            (mkKThread (Some (set_state kWaiting cur)) (initial_thread_id kt) k)
            (emit [EvSetState (serial cur) kWaiting] m)).
Proof.
  intros Ha Hkt Hpc Hcur Hall. cbn [run].
  rewrite (step_running E i m kt Ha Hkt), Hpc, Hcur. cbn [mbind option_bind].
  erewrite step_running; [|done|by eapply lookup_set_kthread].
  cbn [pc set_pc].
  erewrite Yield_None; [|by eapply lookup_set_kthread|].
  - by rewrite set_kthread_twice.
  - apply find_next_None. by apply not_Ready_not_eligible.
Qed.

(** ** Kernel threads and thread objects across a step *)

Lemma Yield_kthreads (i : nat) (only_ready : bool) (ret : bool -> Code)
  (m m' : Machine) :
  Yield i only_ready ret m = Some m' ->
  exists kt kt',
    kthreads m !! i = Some kt /\
    kthreads m' = <[i := kt']> (kthreads m) /\
    initial_thread_id kt' = initial_thread_id kt /\
    next_id m' = next_id m /\ created m' = created m /\
    (current_thread kt' = current_thread kt \/
     exists next, next ∈ thread_queue m /\
                  current_thread kt' = Some (set_state kRunning next)).
Proof.
  intros (kt & Hkt & [[Hf ->]|(cur & next & rest & Hcur & Hf & ->)])%Yield_inv.
  - exists kt, (set_pc (ret false) kt). repeat split; try done. by left.
  - eexists kt, _. repeat split; try done. right. exists next. split; [|done].
    destruct (find_next_Some _ _ _ _ Hf) as (bf & af & -> & _).
    rewrite elem_of_app, elem_of_cons. auto.
Qed.

(** What a step does to the kernel threads and to the counters: only the
    stepping kernel thread changes; a thread that becomes current was
    current there before (with its state changed at most), was in the
    queue, or has just been constructed. *)
Lemma step_kthreads (E : Platform) (i : nat) (m m' : Machine) :
  step E i m = Some m' ->
  m' = m \/
  exists kt kt',
    kthreads m !! i = Some kt /\
    kthreads m' = <[i := kt']> (kthreads m) /\
    (initial_thread_id kt' = initial_thread_id kt \/
     exists k, pc kt = cInitialize k) /\
    ((next_id m' = next_id m /\ created m' = created m) \/
     ((exists k, pc kt = cInitialize k) \/ (exists fn arg k, pc kt = cSpawn fn arg k)) /\
     next_id m' = wrap64 (next_id m + 1) /\ created m' = S (created m)) /\
    (current_thread kt' = current_thread kt \/
     (exists cur s, current_thread kt = Some cur /\
                    current_thread kt' = Some (set_state s cur)) \/
     (exists next, next ∈ thread_queue m /\
                   current_thread kt' = Some (set_state kRunning next)) \/
     (exists t, current_thread kt' = Some t /\
                id t = next_id m /\ serial t = created m)).
Proof.
  intros Hs.
  destruct (aborted m) eqn:Ha;
    [unfold step in Hs; rewrite Ha in Hs; injection Hs as <-; by left|].
  destruct (kthreads m !! i) as [kt|] eqn:Hkt;
    [|by unfold step in Hs; rewrite Ha, Hkt in Hs].
  rewrite (step_running E i m kt Ha Hkt) in Hs.
  destruct (pc kt) eqn:Hpc;
    try (injection Hs as <-; right; eexists kt, _;
         split; [reflexivity|]; split; [reflexivity|];
         split; [by left|]; split; [by left|]; by left).
  - injection Hs as <-. by left.
  - injection Hs as <-. right. exists kt, kt.
    split; [done|]. split; [by rewrite list_insert_id|].
    split; [by left|]. split; [by left|]. by left.
  - injection Hs as <-. right. eexists kt, _.
    split; [reflexivity|]. split; [reflexivity|].
    split; [right; by eexists|]. split.
    + right. split; [left; by eexists|]. by split.
    + right. right. right. eexists. split; [reflexivity|]. by split.
  - unfold Spawn in Hs.
    destruct (Spawn_setup E fn arg m) as [[t1 m1]|] eqn:Hset; [|done].
    cbn in Hs.
    apply Spawn_setup_inv in Hset
      as (_ & Hq1 & Hk1 & Hc1 & Hn1 & _ & _ & Hid & Hse & _).
    apply Yield_kthreads in Hs
      as (kt0 & kt' & Hkt0 & Hk' & Hini & Hn & Hc & Hcur).
    rewrite Hk1 in Hkt0, Hk'.
    assert (kt0 = kt) as -> by congruence.
    right. exists kt, kt'. split; [reflexivity|]. split; [done|].
    split; [by left|]. split.
    + right. split; [right; by eexists _, _, _|]. split; congruence.
    + destruct Hcur as [Hcur|(next & Hin & Hcur)]; [by left|].
      rewrite Hq1 in Hin. apply elem_of_cons in Hin as [->|Hin].
      * right. right. right. eexists. split; [exact Hcur|]. by split.
      * right. right. left. by exists next.
  - apply Yield_kthreads in Hs
      as (kt0 & kt' & Hkt0 & Hk' & Hini & Hn & Hc & Hcur).
    assert (kt0 = kt) as -> by congruence.
    right. exists kt, kt'. split; [reflexivity|]. split; [done|].
    split; [by left|]. split; [by left|].
    destruct Hcur as [Hcur|Hcur]; [by left|]. right. right. by left.
  - option_inv Hs. injection Hs as <-. right. eexists kt, _.
    split; [reflexivity|]. split; [reflexivity|].
    split; [by left|]. split; [by left|].
    right. left. by eexists _, _.
  - injection Hs as <-. right. eexists kt, _.
    split; [reflexivity|]. split; [by rewrite GarbageCollect_eq|].
    split; [by left|]. split; [left; by rewrite GarbageCollect_eq|]. by left.
  - option_inv Hs. injection Hs as <-. right. eexists kt, _.
    split; [reflexivity|]. split; [reflexivity|].
    split; [by left|]. split; [by left|].
    right. left. by eexists _, _.
  - apply Yield_kthreads in Hs
      as (kt0 & kt' & Hkt0 & Hk' & Hini & Hn & Hc & Hcur).
    assert (kt0 = kt) as -> by congruence.
    right. exists kt, kt'. split; [reflexivity|]. split; [done|].
    split; [by left|]. split; [by left|].
    destruct Hcur as [Hcur|Hcur]; [by left|]. right. right. by left.
  - unfold StartThread in Hs. option_inv Hs. injection Hs as <-.
    right. eexists kt, _.
    split; [reflexivity|]. split; [reflexivity|].
    split; [by left|]. split; [by left|]. by left.
Qed.

(** ** Identifiers *)

Lemma wrap64_succ (n : nat) :
  wrap64 (wrap64 (Z.of_nat n) + 1) = wrap64 (Z.of_nat (S n)).
Proof.
  unfold wrap64. rewrite Zplus_mod_idemp_l. f_equal. lia.
Qed.

Lemma ids_ok_step (E : Platform) (i : nat) (m m' : Machine) :
  ids_ok m -> step E i m = Some m' -> ids_ok m'.
Proof.
  intros [Hn Hid] Hs.
  assert (forall t, t ∈ running (kthreads m) -> t ∈ live m) as Hrun
    by (intros t Ht; apply elem_of_app; by right).
  assert (forall t, t ∈ thread_queue m -> t ∈ live m) as Hq
    by (intros t Ht; apply elem_of_app; by left).
  destruct (step_kthreads E i m m' Hs)
    as [->|(kt & kt' & Hkt & Hk' & _ & Hcnt & Hcur)]; [by split|].
  split.
  - destruct Hcnt as [[-> ->]|(_ & -> & ->)]; [done|].
    rewrite Hn. apply wrap64_succ.
  - intros t [Ht|Ht]%elem_of_app.
    + destruct (step_queue E i m m' t Hs Ht)
        as [Hin|[(kt0 & cur & c & Hkt0 & Hc0 & ->)|(fn & arg & m1 & Hset)]].
      * by apply Hid, Hq.
      * unfold demote. cbn.
        assert (id (if bool_decide (state cur = kRunning)
                    then set_state kReady cur else cur) = id cur) as ->
          by (by destruct (bool_decide (state cur = kRunning))).
        assert (serial (if bool_decide (state cur = kRunning)
                        then set_state kReady cur else cur) = serial cur) as ->
          by (by destruct (bool_decide (state cur = kRunning))).
        apply Hid, Hrun. by eapply running_elem.
      * apply Spawn_setup_inv in Hset
          as (_ & _ & _ & _ & _ & _ & _ & -> & -> & _). done.
    + rewrite Hk' in Ht. apply running_update_elem in Ht as [Ht|Ht];
        [|by apply Hid, Hrun].
      destruct Hcur as [Hc|[(cur & s & Hc & Hc')|[(next & Hin & Hc)|(t0 & Hc & Hi0 & Hs0)]]].
      * apply Hid, Hrun. eapply running_elem; [exact Hkt|]. congruence.
      * assert (t = set_state s cur) as -> by congruence. cbn.
        apply Hid, Hrun. by eapply running_elem.
      * assert (t = set_state kRunning next) as -> by congruence. cbn.
        by apply Hid, Hq.
      * assert (t = t0) as -> by congruence. by rewrite Hi0, Hs0.
Qed.

Lemma ids_ok_run (E : Platform) (schedule : list nat) (m m' : Machine) :
  ids_ok m -> run E schedule m = Some m' -> ids_ok m'.
Proof.
  revert m. induction schedule as [|i schedule IH]; intros m Hok Hr.
  - by injection Hr as <-.
  - cbn in Hr. destruct (step E i m) as [m1|] eqn:Hs; [|done].
    eapply IH; [|exact Hr]. by eapply ids_ok_step.
Qed.

Lemma live_boot (mains : list Code) : live (boot mains) = [].
Proof.
  unfold live, boot, running. cbn.
  induction mains as [|c mains IH]; [done|]. exact IH.
Qed.

(** X7.  In every state that a run reaches, the identifier of a thread that
    exists is the number of [Thread] objects constructed before it, modulo
    2^64, and [Thread::next_id] is the number constructed so far, modulo
    2^64.  As long as no more than 2^64 have been constructed, the
    identifier is that number itself and no two threads that exist have
    the same identifier. *)
Theorem thread_ids_are_unique (E : Platform) (mains : list Code)
  (schedule : list nat) (m : Machine) :
  run E schedule (boot mains) = Some m ->
  next_id m = wrap64 (Z.of_nat (created m)) /\
  (forall t, t ∈ live m -> id t = wrap64 (Z.of_nat (serial t))) /\
  (Z.of_nat (created m) <= 2 ^ 64 ->
   (forall t, t ∈ live m -> id t = Z.of_nat (serial t)) /\
   NoDup (id <$> live m)).
Proof.
  intros Hrun.
  assert (ids_ok m) as [Hn Hid].
  { eapply ids_ok_run; [|exact Hrun]. split; [done|].
    intros t Ht. rewrite live_boot in Ht. by apply elem_of_nil in Ht. }
  assert (wf m) as (Hnd & Hlt & _)
    by (eapply wf_run; [apply wf_boot|exact Hrun]).
  change (owned m) with (serial <$> live m) in Hnd, Hlt.
  rewrite Forall_fmap, Forall_forall in Hlt.
  split; [done|]. split; [done|]. intros Hc.
  assert (forall t, t ∈ live m -> id t = Z.of_nat (serial t)) as Hid'.
  { intros t Ht. rewrite (Hid t Ht). unfold wrap64.
    specialize (Hlt t Ht). cbn in Hlt. apply Z.mod_small. lia. }
  split; [done|].
  apply NoDup_fmap_2_strong; [|by eapply NoDup_fmap_1].
  intros x y Hx Hy Hxy. rewrite (Hid' x Hx), (Hid' y Hy) in Hxy.
  apply Nat2Z.inj in Hxy.
  apply list_elem_of_lookup_1 in Hx as [ix Hix].
  apply list_elem_of_lookup_1 in Hy as [iy Hiy].
  assert (ix = iy) as ->.
  { eapply NoDup_lookup; [exact Hnd| |];
      rewrite list_lookup_fmap; [rewrite Hix|rewrite Hiy]; cbn;
      [reflexivity|by rewrite Hxy]. }
  congruence.
Qed.

(** ** Ownership *)

Lemma NoDup_bounded_length (l : list nat) (n : nat) :
  NoDup l -> Forall (fun o => (o < n)%nat) l -> (length l <= n)%nat.
Proof.
  intros Hnd Hlt. rewrite Forall_forall in Hlt.
  transitivity (length (List.seq 0 n)); [|by rewrite length_seq].
  apply submseteq_length.
  apply NoDup_submseteq; [done|]. intros x Hx.
  apply elem_of_seq. specialize (Hlt x Hx). lia.
Qed.

(** X8.  In every state that a run reaches, each thread object is in one
    place only: two entries of the queue, an entry of the queue and the
    current thread of a kernel thread, or the current threads of two kernel
    threads, are never the same object.  So there are never more threads
    than were constructed, [GetThreadCount] never counts a running thread,
    and [GarbageCollect] never destroys one. *)
Theorem threads_are_owned_once (E : Platform) (mains : list Code)
  (schedule : list nat) (m : Machine) :
  run E schedule (boot mains) = Some m ->
  NoDup (serial <$> live m) /\
  (forall t, t ∈ live m -> (serial t < created m)%nat) /\
  (length (thread_queue m) + length (running (kthreads m))
   <= created m)%nat /\
  (forall t z, t ∈ running (kthreads m) -> z ∈ thread_queue m ->
               serial z <> serial t) /\
  (forall t z, t ∈ running (kthreads m) -> z ∈ snd (reap (thread_queue m)) ->
               serial z <> serial t).
Proof.
  intros Hrun.
  assert (wf m) as (Hnd & Hlt & _)
    by (eapply wf_run; [apply wf_boot|exact Hrun]).
  change (owned m) with (serial <$> live m) in Hnd, Hlt.
  assert (forall t z, t ∈ running (kthreads m) -> z ∈ thread_queue m ->
                      serial z <> serial t) as Hdisj.
  { intros t z Ht Hz Heq. unfold live in Hnd. rewrite fmap_app in Hnd.
    apply NoDup_app in Hnd as (_ & Hd & _).
    apply (Hd (serial z)); [by apply list_elem_of_fmap_2|].
    rewrite Heq. by apply list_elem_of_fmap_2. }
  split; [done|]. split; [|split; [|split; [done|]]].
  - intros t Ht. rewrite Forall_fmap, Forall_forall in Hlt. by apply Hlt.
  - rewrite <- length_app. fold (live m).
    rewrite <- (length_fmap serial). by apply NoDup_bounded_length.
  - intros t z Ht Hz. apply Hdisj; [done|].
    rewrite reap_filter in Hz. cbn in Hz.
    by apply list_elem_of_filter in Hz as [_ ?].
Qed.

(** ** [Spawn] of a function that only counts *)

Lemma find_next_cons (only_ready : bool) (u : Thread) (queue : list Thread) :
  find_next only_ready (u :: queue)
  = if eligible only_ready u then Some (u, queue)
    else match find_next only_ready queue with
         | Some (next, rest) => Some (next, u :: rest)
         | None => None
         end.
Proof.
  rewrite <- find_next_head_test. cbn [find_next].
  destruct (negb only_ready && bool_decide (state u = kWaiting)); [done|].
  by destruct (bool_decide (state u = kReady)).
Qed.

Lemma find_next_app (only_ready : bool) (l r : list Thread) (t : Thread) :
  Forall (fun u => eligible only_ready u = false) l ->
  eligible only_ready t = true ->
  find_next only_ready (l ++ t :: r) = Some (t, l ++ r).
Proof.
  intros Hl Ht. induction Hl as [|u l Hu _ IH].
  - cbn [app]. by rewrite find_next_cons, Ht.
  - cbn [app]. by rewrite find_next_cons, Hu, IH.
Qed.

Lemma set_kthread_set_cells (i : nat) (kt kt' : KThread) (c c' : Z -> nat)
  (m : Machine) :
  set_kthread i kt' (set_cells c' (set_kthread i kt (set_cells c m)))
  = set_kthread i kt' (set_cells c' m).
Proof. unfold set_kthread, set_cells. cbn. by rewrite list_insert_insert_eq. Qed.

(** The steps of a function that only counts. *)
Lemma run_bumps (E : Platform) (i : nat) (l : list Z) (k : Code)
  (m : Machine) (kt : KThread) :
  aborted m = false -> kthreads m !! i = Some kt -> pc kt = seq (bumps l) k ->
  run E (replicate (length l) i) m
  = Some (set_kthread i (set_pc k kt) (set_cells (bump_all l (cells m)) m)).
Proof.
  revert m kt. induction l as [|a l IH]; intros m kt Ha Hkt Hpc.
  - cbn. f_equal. destruct m as [q nid cr ml kts c tr ab].
    unfold set_kthread, set_cells. cbn in *. f_equal.
    rewrite list_insert_id; [done|]. rewrite Hkt. f_equal.
    destruct kt. cbn in *. by subst.
  - cbn [length replicate run].
    rewrite (step_running E i m kt Ha Hkt), Hpc. cbn [bumps seq].
    erewrite IH; [|done|by eapply lookup_set_kthread|reflexivity].
    f_equal. apply set_kthread_set_cells.
Qed.

Lemma eligible_false_iff (t : Thread) :
  eligible false t = true <-> state t = kReady \/ state t = kWaiting.
Proof.
  unfold eligible. destruct (state t); split; intros H;
    first [by vm_compute in H | by left | by right
          | by vm_compute | destruct H; discriminate].
Qed.

Lemma filter_zombie_snoc (P : Thread -> Prop) `{!forall t, Decision (P t)}
  (queue : list Thread) (z : Thread) :
  filter P (queue ++ [z])
  = filter P queue ++ (if decide (P z) then [z] else []).
Proof.
  rewrite filter_app. f_equal.
Qed.

(** X9.  [Spawn(fn, arg)] of a function that makes no call into the
    runtime, when [Yield]'s default argument is [false], the caller is not
    a Zombie and no thread of the queue is Ready or Waiting: the function
    runs to its end on the new stack before [Spawn] returns.  When [Spawn]
    returns, the function has done its work on the memory, the new thread
    has become a Zombie and has been destroyed, its stack freed, the caller
    is the current thread of its kernel thread, Running, and the queue is
    as it was, less its Zombies. *)
Theorem Spawn_runs_counting_function (E : Platform) (i : nat) (fn arg : Z)
  (k : Code) (l : list Z) (m : Machine) (kt : KThread) (cur : Thread) :
  yield_default E = false ->
  text E fn arg = bumps l ->
  0 < malloc E (mallocs m) ->
  malloc E (mallocs m) + kStackSize <= 2 ^ 64 ->
  aborted m = false ->
  kthreads m !! i = Some kt ->
  pc kt = cSpawn fn arg k ->
  current_thread kt = Some cur ->
  state cur <> kZombie ->
  Forall (fun u => eligible false u = false) (thread_queue m) ->
  exists m',
    run E (replicate (5 + length l) i) m = Some m' /\
    kthreads m'
    = <[i := mkKThread
               (Some (set_state kRunning (set_resume (cGarbageCollect k) cur)))
               (initial_thread_id kt) k]> (kthreads m) /\
    thread_queue m'
    = filter (fun t => state t <> kZombie) (thread_queue m) /\
    cells m' = bump_all l (cells m) /\
    created m' = S (created m) /\
    aborted m' = false /\
    trace m'
    = trace m
      ++ [EvInsertFront (created m); EvErase (created m)]
      ++ (if bool_decide (state cur = kRunning)
          then [EvSetState (serial cur) kReady] else [])
      ++ [EvSetState (created m) kRunning;
          EvPushBack (serial cur);
          EvSetCurrent i (created m);
          EvContextSwitch (serial cur) (created m);
          EvSetState (created m) kZombie;
          EvErase (serial cur);
          EvSetState (serial cur) kRunning;
          EvPushBack (created m);
          EvSetCurrent i (serial cur);
          EvContextSwitch (created m) (serial cur)]
      ++ flat_map (fun t => destroy t ++ [EvErase (serial t)])
           (filter (fun t => state t = kZombie) (thread_queue m))
      ++ [EvFree (malloc E (mallocs m)); EvErase (created m)].
Proof.
  intros Hd Htext Hlo Hhi Ha Hkt Hpc Hcur Hnz Hq.
  assert (malloc E (mallocs m) <> 0) as Hnull by lia.
  pose proof (Spawn_setup_eq E fn arg m Hnull) as Hset. cbv zeta in Hset.
  set (t1 := mkThread (next_id m) kWaiting _ _ (created m) cStartThread) in Hset.
  set (m1 := mkMachine (t1 :: thread_queue m) _ _ _ _ _ _ _) in Hset.
  set (cur1 := set_resume (cGarbageCollect k) (demote cur)).
  (* Spawn: the new thread is taken at once *)
  set (m2 := set_kthread i
               (mkKThread (Some (set_state kRunning t1)) (initial_thread_id kt)
                          cStartThread)
               (set_queue (thread_queue m ++ [cur1])
                          (emit (switch_events i cur t1) m1))).
  assert (step E i m = Some m2) as H1.
  { rewrite (step_running E i m kt Ha Hkt), Hpc. unfold Spawn.
    rewrite Hset. cbn [mbind option_bind]. rewrite Hd.
    by rewrite (Yield_Some i false (fun _ => k) m1 kt cur t1 (thread_queue m)
                  Hkt Hcur eq_refl). }
  (* the entry point *)
  set (kt2 := mkKThread (Some (set_state kRunning t1)) (initial_thread_id kt)
                        cStartThread).
  assert (kthreads m2 !! i = Some kt2) as Hkt2
    by (by eapply (lookup_set_kthread i kt)).
  set (m3 := set_kthread i (set_pc (ThreadEntry E fn arg) kt2) m2).
  assert (step E i m2 = Some m3) as H2.
  { eapply (StartThread_decodes_primed_frame E fn arg m m1 m2 t1 i kt2);
      [done|done|exact Hset|done|done|done|done]. }
  (* the function *)
  set (tail := cSetState kZombie (cYield None (fun _ => Abort))).
  set (kt3 := set_pc (ThreadEntry E fn arg) kt2).
  assert (kthreads m3 !! i = Some kt3) as Hkt3
    by (by eapply (lookup_set_kthread i kt2)).
  set (m4 := set_kthread i (set_pc tail kt3)
               (set_cells (bump_all l (cells m3)) m3)).
  assert (run E (replicate (length l) i) m3 = Some m4) as H3.
  { apply run_bumps; [done|done|]. cbn. unfold ThreadEntry. by rewrite Htext. }
  (* its end: Zombie, then the last Yield *)
  set (kt4 := set_pc tail kt3).
  assert (kthreads m4 !! i = Some kt4) as Hkt4.
  { cbn. apply list_lookup_insert_eq. by eapply lookup_lt_Some. }
  set (z := set_state kZombie (set_state kRunning t1)).
  set (m5 := set_kthread i
               (set_pc (cYield None (fun _ => Abort)) (set_current z kt4))
               (emit [EvSetState (serial t1) kZombie] m4)).
  assert (step E i m4 = Some m5) as H4.
  { by rewrite (step_running E i m4 kt4 Ha Hkt4). }
  set (kt5 := set_pc (cYield None (fun _ => Abort)) (set_current z kt4)).
  assert (kthreads m5 !! i = Some kt5) as Hkt5
    by (by eapply (lookup_set_kthread i kt4)).
  assert (eligible false cur1 = true) as Hel.
  { apply eligible_false_iff. unfold cur1, demote. cbn.
    destruct (bool_decide (state cur = kRunning)) eqn:Hr; cbn; [by left|].
    apply bool_decide_eq_false in Hr. destruct (state cur); auto; done. }
  set (m6 := set_kthread i
               (mkKThread (Some (set_state kRunning cur1))
                          (initial_thread_id kt) (cGarbageCollect k))
               (set_queue
                  (thread_queue m
                   ++ [set_resume (cGarbageCollect Abort) (demote z)])
                  (emit (switch_events i z cur1) m5))).
  assert (step E i m5 = Some m6) as H5.
  { rewrite (step_running E i m5 kt5 Ha Hkt5). cbn [pc kt5 set_pc].
    rewrite Hd. cbn [default].
    rewrite (Yield_Some i false (fun _ => Abort) m5 kt5 z cur1 (thread_queue m)
               Hkt5 eq_refl); [done|].
    change (thread_queue m5) with (thread_queue m ++ [cur1]).
    rewrite (find_next_app false (thread_queue m) [] cur1 Hq Hel).
    by rewrite app_nil_r. }
  (* back in Spawn's Yield: GarbageCollect, then return *)
  set (kt6 := mkKThread (Some (set_state kRunning cur1))
                        (initial_thread_id kt) (cGarbageCollect k)).
  assert (kthreads m6 !! i = Some kt6) as Hkt6
    by (by eapply (lookup_set_kthread i kt5)).
  assert (step E i m6 = Some (set_kthread i (set_pc k kt6) (GarbageCollect m6)))
    as H6 by (by rewrite (step_running E i m6 kt6 Ha Hkt6)).
  eexists. split.
  { replace (5 + length l)%nat with (2 + (length l + 3))%nat by lia.
    rewrite replicate_add, run_app. cbn [replicate run].
    rewrite H1, H2. cbn [mbind option_bind].
    rewrite replicate_add, run_app, H3. cbn [mbind option_bind replicate run].
    rewrite H4, H5, H6. reflexivity. }
  rewrite GarbageCollect_eq.
  change (thread_queue m6)
    with (thread_queue m ++ [set_resume (cGarbageCollect Abort) (demote z)]).
  rewrite !filter_zombie_snoc.
  change (state (set_resume (cGarbageCollect Abort) (demote z))) with kZombie.
  destruct (decide (kZombie <> kZombie)) as [?|_]; [done|].
  destruct (decide (kZombie = kZombie)) as [_|?]; [|done].
  split; [|split; [|split; [|split; [|split]]]].
  - cbn. rewrite !list_insert_insert_eq. f_equal.
    unfold set_pc, kt6, cur1, demote. cbn.
    by destruct (bool_decide (state cur = kRunning)).
  - cbn. by rewrite app_nil_r.
  - reflexivity.
  - reflexivity.
  - exact Ha.
  - cbn [trace set_kthread set_queue emit]. rewrite flat_map_app.
    unfold m6, m5, m4, m3, m2, m1, switch_events.
    cbn [trace set_kthread set_queue emit set_cells].
    change (state z) with kZombie.
    change (bool_decide (kZombie = kRunning)) with false. cbv iota.
    unfold cur1, demote.
    destruct (bool_decide (state cur = kRunning)); cbn;
      rewrite <- !app_assoc; cbn; rewrite ?app_nil_r; reflexivity.
Qed.

(** ** The assertion of [ThreadEntry] *)

Lemma calls_seq (leaf c : Code) : calls Ret c -> calls leaf (seq c leaf).
Proof.
  induction 1; cbn; try (constructor; by auto).
Qed.

Lemma calls_inv (leaf c : Code) :
  calls leaf c ->
  c = leaf \/
  match c with
  | cSpawn _ _ k | cWait k | cGarbageCollect k | cBump _ k | cOutput _ k
  | cWaitLoop k => calls leaf k
  | cYield _ k => forall b, calls leaf (k b)
  | cGetThreadCount k => forall r, calls leaf (k r)
  | cSetState s k => s = kWaiting /\ calls leaf k
  | _ => False
  end.
Proof. destruct 1; auto. Qed.

Lemma initial_or_spawned (t : Thread) :
  (is_initial t + is_spawned t = 1)%nat.
Proof. unfold is_initial, is_spawned. by destruct (stack t). Qed.

Lemma spawned_update (kts : list KThread) (i : nat) (kt kt' : KThread) :
  kts !! i = Some kt ->
  (sum_list_with is_spawned (running (<[i := kt']> kts))
   + sum_list_with is_spawned (option_list (current_thread kt))
   = sum_list_with is_spawned (running kts)
     + sum_list_with is_spawned (option_list (current_thread kt')))%nat.
Proof.
  intros Hkt. destruct (running_update kts i kt Hkt) as (others & H1 & H2).
  rewrite H1, (H2 kt'), !sum_list_with_app. lia.
Qed.

(** How soundness is carried over a step of kernel thread [i]. *)
Lemma sound_update (m m' : Machine) (i : nat) (kt kt' : KThread) :
  sound m ->
  kthreads m !! i = Some kt ->
  kthreads m' = <[i := kt']> (kthreads m) ->
  aborted m' = false ->
  Forall queued_ok (thread_queue m') ->
  kthread_ok kt' ->
  (sum_list_with is_initial (thread_queue m')
   + sum_list_with is_spawned (option_list (current_thread kt))
   = sum_list_with is_initial (thread_queue m)
     + sum_list_with is_spawned (option_list (current_thread kt')))%nat ->
  sound m'.
Proof.
  intros (_ & _ & Hks & Hcnt) Hkt Hk' Ha Hq Hok Hc.
  repeat split; [done|done| |].
  - rewrite Hk'. by apply Forall_insert.
  - rewrite Hk'. pose proof (spawned_update _ i kt kt' Hkt). lia.
Qed.

Lemma demote_props (t : Thread) :
  state (demote t) <> kRunning /\
  (state t <> kZombie -> state (demote t) <> kZombie) /\
  (state t = kZombie -> state (demote t) = kZombie) /\
  stack (demote t) = stack t.
Proof.
  unfold demote. destruct (bool_decide (state t = kRunning)) eqn:Hr; cbn.
  - apply bool_decide_eq_true in Hr. rewrite Hr. by repeat split.
  - apply bool_decide_eq_false in Hr. by repeat split.
Qed.

(** The thread that [Yield] suspends is fit for the queue. *)
Lemma suspended_ok (t : Thread) (c : Code) :
  state t <> kZombie -> calls (leaf_of t) c ->
  queued_ok (set_resume (cGarbageCollect c) (demote t)).
Proof.
  intros Hz Hc. destruct (demote_props t) as (Hr & Hnz & _ & Hst).
  split; [done|]. left. split; [by apply Hnz|]. left. cbn.
  unfold leaf_of. cbn. rewrite Hst. by constructor.
Qed.

Lemma queued_eligible (t : Thread) :
  queued_ok t -> is_initial t = 1%nat -> eligible false t = true.
Proof.
  intros (Hr & [(Hz & _)|(Hs & _)]) Hi.
  - apply eligible_false_iff. destruct (state t); auto; done.
  - pose proof (initial_or_spawned t). lia.
Qed.

Lemma sum_list_with_pos {A : Type} (f : A -> nat) (l : list A) :
  (0 < sum_list_with f l)%nat -> exists x, x ∈ l /\ (0 < f x)%nat.
Proof.
  induction l as [|x l IH]; cbn; [lia|].
  intros H. destruct (f x) eqn:Hx.
  - destruct IH as (y & Hy & Hfy); [done|]. exists y. split; [|done].
    by apply elem_of_cons; right.
  - exists x. split; [by apply elem_of_cons; left|lia].
Qed.

(** While a spawned thread runs on a kernel thread, some thread of the
    queue is eligible for [Yield(false)]: an initial thread. *)
Lemma sound_eligible (m : Machine) (i : nat) (kt : KThread) (t : Thread) :
  sound m -> kthreads m !! i = Some kt -> current_thread kt = Some t ->
  is_spawned t = 1%nat ->
  exists next rest, find_next false (thread_queue m) = Some (next, rest).
Proof.
  intros (_ & Hq & _ & Hcnt) Hkt Hcur Hsp.
  destruct (not_eligible_or_found false (thread_queue m)) as [Hall|H];
    [exfalso|done].
  assert (0 < sum_list_with is_initial (thread_queue m))%nat as Hpos.
  { rewrite Hcnt.
    destruct (running_update _ i kt Hkt) as (others & H1 & _).
    rewrite H1, Hcur, sum_list_with_app. cbn. lia. }
  apply sum_list_with_pos in Hpos as (z & Hz & Hzi).
  rewrite Forall_forall in Hq, Hall.
  assert (is_initial z = 1%nat) as Hz1.
  { pose proof (initial_or_spawned z). lia. }
  pose proof (queued_eligible z (Hq z Hz) Hz1). specialize (Hall z Hz).
  congruence.
Qed.

Lemma sound_Yield (i : nat) (only_ready : bool) (ret : bool -> Code)
  (m m' : Machine) (kt : KThread) (cur : Thread) :
  sound m ->
  kthreads m !! i = Some kt ->
  current_thread kt = Some cur ->
  (find_next only_ready (thread_queue m) = None -> running_ok cur (ret false)) ->
  queued_ok (set_resume (cGarbageCollect (ret true)) (demote cur)) ->
  Yield i only_ready ret m = Some m' ->
  sound m'.
Proof.
  intros Hs Hkt Hcur Hfail Hpush HY.
  pose proof Hs as (Ha & Hq & _ & _).
  apply Yield_inv in HY
    as (kt0 & Hkt0 & [[Hf ->]|(cur0 & next & rest & Hcur0 & Hf & ->)]);
    assert (kt0 = kt) as -> by congruence.
  - eapply (sound_update m _ i kt); [done|done|reflexivity|done|done| |].
    + unfold kthread_ok. cbn. rewrite Hcur. by apply Hfail.
    + by cbn.
  - assert (cur0 = cur) as -> by congruence.
    pose proof (find_next_state _ _ _ _ Hf) as Hst.
    destruct (find_next_Some _ _ _ _ Hf) as (bf & af & Hqeq & -> & _ & _).
    rewrite Hqeq in Hq. apply Forall_app in Hq as [Hbf Haf].
    apply Forall_cons in Haf as [Hnext Haf].
    eapply (sound_update m _ i kt); [done|done|reflexivity|done| | |].
    + cbn. apply Forall_app. split; [by apply Forall_app|].
      by constructor.
    + unfold kthread_ok. cbn.
      destruct Hnext as (_ & [(Hz & Hc)|(_ & Hz)]).
      * left. split; [done|]. exact Hc.
      * destruct Hst as [Hst|[_ Hst]]; congruence.
    + cbn [thread_queue set_kthread set_queue emit current_thread].
      rewrite Hqeq, Hcur, !sum_list_with_app. cbn.
      pose proof (initial_or_spawned cur). pose proof (initial_or_spawned next).
      change (is_spawned (set_state kRunning next)) with (is_spawned next).
      assert (is_initial (set_resume (cGarbageCollect (ret true)) (demote cur))
              = is_initial cur) as ->.
      { unfold is_initial. cbn. by destruct (demote_props cur) as (_ & _ & _ & ->). }
      lia.
Qed.

Lemma sound_Spawn_setup (E : Platform) (fn arg : Z) (m m1 : Machine)
  (t : Thread) :
  sound m -> Spawn_setup E fn arg m = Some (t, m1) -> sound m1.
Proof.
  intros (Ha & Hq & Hks & Hcnt) Hset.
  apply Spawn_setup_inv in Hset
    as (_ & Hq1 & Hk1 & _ & _ & Ha1 & _ & _ & _ & Hst & Hres & [buf Hbuf]).
  assert (is_spawned t = 1%nat) as Hsp by (unfold is_spawned; by rewrite Hbuf).
  repeat split.
  - congruence.
  - rewrite Hq1. constructor; [|done].
    split; [by rewrite Hst|]. left. split; [by rewrite Hst|]. by right.
  - by rewrite Hk1.
  - rewrite Hq1, Hk1. cbn. pose proof (initial_or_spawned t). lia.
Qed.

Lemma queued_ok_filter (queue : list Thread) :
  Forall queued_ok queue ->
  Forall queued_ok (filter (fun t => state t <> kZombie) queue) /\
  sum_list_with is_initial (filter (fun t => state t <> kZombie) queue)
  = sum_list_with is_initial queue.
Proof.
  induction 1 as [|t queue Ht _ [IH1 IH2]]; [done|].
  rewrite filter_cons. destruct (decide (state t <> kZombie)) as [Hz|Hz].
  - split; [by constructor|]. cbn. by rewrite IH2.
  - split; [done|]. cbn. rewrite IH2.
    destruct Ht as (_ & [(? & _)|(Hs & _)]); [done|].
    pose proof (initial_or_spawned t). lia.
Qed.

Section Sound.

Context (E : Platform).
Hypothesis default_false : yield_default E = false.
Hypothesis user_functions : forall fn arg, calls Ret (text E fn arg).

Lemma sound_step (i : nat) (m m' : Machine) :
  sound m -> step E i m = Some m' -> sound m'.
Proof.
  intros Hs Hstep. pose proof Hs as (Ha & Hq & Hks & Hcnt).
  destruct (kthreads m !! i) as [kt|] eqn:Hkt;
    [|by unfold step in Hstep; rewrite Ha, Hkt in Hstep].
  rewrite (step_running E i m kt Ha Hkt) in Hstep.
  pose proof (Forall_lookup_1 _ _ _ _ Hks Hkt) as Hok.
  unfold kthread_ok in Hok.
  destruct (current_thread kt) as [t|] eqn:Hcur.
  2: { (* Initialize *)
    destruct Hok as (u & Hpc & Hu). rewrite Hpc in Hstep.
    injection Hstep as <-.
    eapply (sound_update m _ i kt); [done|done|reflexivity|done|done| |].
    - unfold kthread_ok. cbn. left. split; [done|]. by left.
    - cbn. by rewrite Hcur. }
  destruct Hok as [(Hnz & [Hc|(Hsp & Hpc)])|(Hsp & Hz & Hpc)].
  - (* in its code *)
    destruct (calls_inv _ _ Hc) as [Hleaf|Hinv].
    + (* at the end of its code *)
      unfold leaf_of in Hleaf. destruct (stack t) as [buf|] eqn:Hst.
      * rewrite Hleaf in Hstep. unfold thread_exit in Hstep.
        cbn in Hstep. injection Hstep as <-.
        eapply (sound_update m _ i kt); [done|done|reflexivity|done|done| |].
        -- unfold kthread_ok. cbn. right.
           split; [unfold is_spawned; cbn; by rewrite Hst|]. by split.
        -- cbn. rewrite Hcur. cbn. done.
      * rewrite Hleaf in Hstep. by injection Hstep as <-.
    + destruct (pc kt) eqn:Hpc; try done.
      * (* Spawn *)
        unfold Spawn in Hstep.
        destruct (Spawn_setup E fn arg m) as [[t1 m1]|] eqn:Hset; [|done].
        cbn in Hstep. rewrite default_false in Hstep.
        pose proof (sound_Spawn_setup E fn arg m m1 t1 Hs Hset) as Hs1.
        apply Spawn_setup_inv in Hset as (_ & _ & Hk1 & _).
        eapply (sound_Yield i false _ m1 m' kt t); [done|by rewrite Hk1|done| |
                                                    |exact Hstep].
        -- intros _. left. split; [done|]. by left.
        -- by apply suspended_ok.
      * (* Yield *)
        eapply (sound_Yield i _ _ m m' kt t); [done|done|done| | |exact Hstep].
        -- intros _. left. split; [done|]. left. apply Hinv.
        -- apply suspended_ok; [done|]. apply Hinv.
      * (* Wait *)
        cbn in Hstep. injection Hstep as <-.
        eapply (sound_update m _ i kt); [done|done|reflexivity|done|done| |].
        -- unfold kthread_ok. cbn. left. split; [done|]. left.
           by constructor.
        -- cbn. by rewrite Hcur.
      * (* GarbageCollect *)
        injection Hstep as <-. rewrite GarbageCollect_eq.
        destruct (queued_ok_filter _ Hq) as [Hq' Hcnt'].
        eapply (sound_update m _ i kt); [done|done|reflexivity|done|done| |].
        -- unfold kthread_ok. cbn. rewrite Hcur. left. split; [done|].
           by left.
        -- cbn. by rewrite Hcnt'.
      * (* GetThreadCount *)
        injection Hstep as <-.
        eapply (sound_update m _ i kt); [done|done|reflexivity|done|done| |].
        -- unfold kthread_ok. cbn. rewrite Hcur. left. split; [done|].
           left. apply Hinv.
        -- by cbn.
      * (* counting *)
        injection Hstep as <-.
        eapply (sound_update m _ i kt); [done|done|reflexivity|done|done| |].
        -- unfold kthread_ok. cbn. rewrite Hcur. left. split; [done|].
           by left.
        -- by cbn.
      * (* printing *)
        injection Hstep as <-.
        eapply (sound_update m _ i kt); [done|done|reflexivity|done|done| |].
        -- unfold kthread_ok. cbn. rewrite Hcur. left. split; [done|].
           by left.
        -- by cbn.
      * (* the assignment in the loop of Wait *)
        destruct Hinv as [-> Hk].
        cbn in Hstep. injection Hstep as <-.
        eapply (sound_update m _ i kt); [done|done|reflexivity|done|done| |].
        -- unfold kthread_ok. cbn. left. split; [done|]. by left.
        -- cbn. by rewrite Hcur.
      * (* the loop of Wait *)
        eapply (sound_Yield i _ _ m m' kt t); [done|done|done| | |exact Hstep].
        -- intros _. left. split; [done|]. by left.
        -- apply suspended_ok; [done|]. by do 2 constructor.
  - (* at the entry point *)
    rewrite Hpc in Hstep. unfold StartThread in Hstep.
    rewrite Hcur in Hstep. cbn in Hstep.
    destruct (stack t) as [buf|] eqn:Hst;
      [|by unfold is_spawned in Hsp; rewrite Hst in Hsp].
    cbn in Hstep. option_inv Hstep. injection Hstep as <-.
    eapply (sound_update m _ i kt); [done|done|reflexivity|done|done| |].
    + unfold kthread_ok. cbn. rewrite Hcur. left. split; [done|]. left.
      unfold leaf_of. rewrite Hst. apply calls_seq, user_functions.
    + by cbn.
  - (* a Zombie at the last Yield *)
    rewrite Hpc in Hstep. unfold last_yield in Hstep.
    rewrite default_false in Hstep. cbn [default] in Hstep.
    destruct (sound_eligible m i kt t Hs Hkt Hcur Hsp) as (next & rest & Hf).
    eapply (sound_Yield i false _ m m' kt t); [done|done|done| | |exact Hstep].
    + by rewrite Hf.
    + destruct (demote_props t) as (Hr & _ & Hzz & Hst).
      split; [done|]. right. split; [|by apply Hzz].
      unfold is_spawned in *. cbn. by rewrite Hst.
Qed.

Lemma sound_run (schedule : list nat) (m m' : Machine) :
  sound m -> run E schedule m = Some m' -> sound m'.
Proof.
  revert m. induction schedule as [|i schedule IH]; intros m Hs Hr.
  - by injection Hr as <-.
  - cbn in Hr. destruct (step E i m) as [m1|] eqn:Hstep; [|done].
    eapply IH; [|exact Hr]. by eapply sound_step.
Qed.

End Sound.

Lemma sound_boot (mains : list Code) :
  Forall (fun c => exists u, c = cInitialize u /\ calls Ret u) mains ->
  sound (boot mains).
Proof.
  intros Hm. repeat split; [constructor| |].
  - unfold boot. cbn. induction Hm as [|c mains Hc _ IH]; [constructor|].
    cbn. constructor; [|done]. exact Hc.
  - pose proof (live_boot mains) as Hl. unfold live in Hl. cbn in Hl.
    cbn. by rewrite Hl.
Qed.

(** X10.  Why the assertion at the end of [ThreadEntry] is unreachable.
    Let [Yield]'s default argument be [false], let every kernel thread call
    [Initialize] first and never again, and let the main functions and the
    spawned functions otherwise only call [Spawn], [Yield], [Wait],
    [GarbageCollect] and [GetThreadCount].  Then in every state that a run
    reaches, as many initial threads wait in the queue, Ready or Waiting,
    as spawned threads are running; so a spawned thread that ends always
    finds a thread to yield to, the process is never aborted and no
    assertion has failed. *)
Theorem ThreadEntry_assertion_unreachable (E : Platform) (mains : list Code)
  (schedule : list nat) (m : Machine) :
  yield_default E = false ->
  (forall fn arg, calls Ret (text E fn arg)) ->
  Forall (fun c => exists u, c = cInitialize u /\ calls Ret u) mains ->
  run E schedule (boot mains) = Some m ->
  aborted m = false /\
  Forall not_abort (trace m) /\
  sum_list_with is_initial (thread_queue m)
  = sum_list_with is_spawned (running (kthreads m)) /\
  (forall z, z ∈ thread_queue m -> is_initial z = 1%nat ->
             state z = kReady \/ state z = kWaiting).
Proof.
  intros Hd Hu Hm Hrun.
  assert (sound m) as (Ha & Hq & _ & Hcnt)
    by (eapply sound_run; [done|done|by apply sound_boot|exact Hrun]).
  assert (wf m) as (_ & _ & Htr)
    by (eapply wf_run; [apply wf_boot|exact Hrun]).
  split; [done|]. split; [by apply Htr|]. split; [done|].
  intros z Hz Hi. rewrite Forall_forall in Hq.
  by apply eligible_false_iff, queued_eligible; [apply Hq|].
Qed.

Lemma run_aborted (E : Platform) (schedule : list nat) (m : Machine) :
  aborted m = true -> run E schedule m = Some m.
Proof.
  intros Ha. induction schedule as [|i schedule IH]; [done|].
  cbn. unfold step. by rewrite Ha.
Qed.

(** X11.  The other side of it: when a spawned thread comes to the end of
    [ThreadEntry] and no thread of the queue is eligible for [Yield()],
    [Yield] returns and the assertion fails: after three steps the process
    is aborted, with the thread marked Zombie but still current and the
    queue untouched, and nothing moves any more. *)
Theorem ThreadEntry_aborts_when_nothing_is_eligible (E : Platform) (i : nat)
  (m : Machine) (kt : KThread) (t : Thread) :
  aborted m = false ->
  kthreads m !! i = Some kt ->
  current_thread kt = Some t ->
  pc kt = thread_exit ->
  Forall (fun u => eligible (yield_default E) u = false) (thread_queue m) ->
  exists m',
    run E [i; i; i] m = Some m' /\
    aborted m' = true /\
    kthreads m'
    = <[i := mkKThread (Some (set_state kZombie t)) (initial_thread_id kt)
                       Abort]> (kthreads m) /\
    thread_queue m' = thread_queue m /\
    trace m' = trace m ++ [EvSetState (serial t) kZombie;
                           EvAbort (Some (serial t))] /\
    forall schedule, run E schedule m' = Some m'.
Proof.
  intros Ha Hkt Hcur Hpc Hall. cbn [run].
  rewrite (step_running E i m kt Ha Hkt), Hpc. unfold thread_exit.
  rewrite Hcur. cbn [mbind option_bind].
  erewrite step_running; [|exact Ha|by eapply lookup_set_kthread].
  cbn [pc set_pc default].
  erewrite Yield_None;
    [|by eapply lookup_set_kthread|by apply find_next_None].
  rewrite set_kthread_twice.
  erewrite step_running; [|exact Ha|by eapply lookup_set_kthread].
  cbn [pc set_pc].
  eexists. split; [reflexivity|].
  split; [reflexivity|]. split; [reflexivity|]. split; [reflexivity|].
  split.
  - cbn. by rewrite <- app_assoc.
  - intros schedule. by apply run_aborted.
Qed.

(** ** From [Spawn] to the user's function *)

(** X12.  What [Spawn] writes on the new stack is what the entry point
    reads: when [Yield]'s default argument is [false], [malloc] gives a
    stack that does not wrap around the address space and the caller has
    a current thread, the second step of the kernel thread is the body of
    [ThreadEntry] for the very [fn] and [arg] that [Spawn] was given,
    running as the new thread (Running, the thread just constructed), with
    the caller at the back of the queue, to resume in [Spawn]'s [Yield]. *)
Theorem Spawn_enters_function_with_its_argument (E : Platform) (i : nat)
  (fn arg : Z) (k : Code) (m : Machine) (kt : KThread) (cur : Thread) :
  yield_default E = false ->
  0 < malloc E (mallocs m) ->
  malloc E (mallocs m) + kStackSize <= 2 ^ 64 ->
  aborted m = false ->
  kthreads m !! i = Some kt ->
  pc kt = cSpawn fn arg k ->
  current_thread kt = Some cur ->
  exists t m1 m',
    Spawn_setup E fn arg m = Some (t, m1) /\
    serial t = created m /\
    id t = next_id m /\
    run E [i; i] m = Some m' /\
    kthreads m'
    = <[i := mkKThread (Some (set_state kRunning t)) (initial_thread_id kt)
                       (ThreadEntry E fn arg)]> (kthreads m) /\
    thread_queue m'
    = thread_queue m ++ [set_resume (cGarbageCollect k) (demote cur)] /\
    cells m' = cells m.
Proof.
  intros Hd Hlo Hhi Ha Hkt Hpc Hcur.
  assert (malloc E (mallocs m) <> 0) as Hnull by lia.
  pose proof (Spawn_setup_eq E fn arg m Hnull) as Hset. cbv zeta in Hset.
  set (t1 := mkThread (next_id m) kWaiting _ _ (created m) cStartThread) in Hset.
  set (m1 := mkMachine (t1 :: thread_queue m) _ _ _ _ _ _ _) in Hset.
  set (cur1 := set_resume (cGarbageCollect k) (demote cur)).
  set (kt2 := mkKThread (Some (set_state kRunning t1)) (initial_thread_id kt)
                        cStartThread).
  set (m2 := set_kthread i kt2
               (set_queue (thread_queue m ++ [cur1])
                          (emit (switch_events i cur t1) m1))).
  assert (step E i m = Some m2) as H1.
  { rewrite (step_running E i m kt Ha Hkt), Hpc. unfold Spawn.
    rewrite Hset. cbn [mbind option_bind]. rewrite Hd.
    by rewrite (Yield_Some i false (fun _ => k) m1 kt cur t1 (thread_queue m)
                  Hkt Hcur eq_refl). }
  assert (kthreads m2 !! i = Some kt2) as Hkt2
    by (by eapply (lookup_set_kthread i kt)).
  assert (step E i m2
          = Some (set_kthread i (set_pc (ThreadEntry E fn arg) kt2) m2)) as H2.
  { eapply (StartThread_decodes_primed_frame E fn arg m m1 m2 t1 i kt2);
      [done|done|exact Hset|done|done|done|done]. }
  exists t1, m1. eexists.
  split; [exact Hset|]. split; [reflexivity|]. split; [reflexivity|].
  split; [cbn [run]; rewrite H1; cbn [mbind option_bind]; rewrite H2;
          reflexivity|].
  split; [|split; reflexivity].
  cbn. by rewrite list_insert_insert_eq.
Qed.

(** ** [PrintDebug] *)

Lemma string_app_cons (c : Ascii.ascii) (s t : string) :
  String c s +:+ t = String c (s +:+ t).
Proof. reflexivity. Qed.

Lemma string_length_app (s t : string) :
  String.length (s +:+ t) = (String.length s + String.length t)%nat.
Proof.
  induction s as [|c s IH]; [done|].
  rewrite string_app_cons. cbn. by rewrite IH.
Qed.

Lemma string_app_inj_r (s1 s2 t : string) : s1 +:+ t = s2 +:+ t -> s1 = s2.
Proof.
  revert s2. induction s1 as [|c s1 IH]; intros [|c' s2] H.
  - done.
  - apply (f_equal String.length) in H.
    rewrite !string_length_app in H. cbn in H. lia.
  - apply (f_equal String.length) in H.
    rewrite !string_length_app in H. cbn in H. lia.
  - rewrite !string_app_cons in H. injection H as -> H. f_equal. by apply IH.
Qed.

Lemma hex_inj (n n' : N) :
  HexadecimalString.NilZero.string_of_uint (N.to_hex_uint n)
  = HexadecimalString.NilZero.string_of_uint (N.to_hex_uint n') ->
  n = n'.
Proof.
  intros H. apply (f_equal HexadecimalString.NilZero.uint_of_string) in H.
  assert (forall k, N.to_hex_uint k <> Hexadecimal.Nil) as Hnn.
  { intros [|q]; [done|]. apply HexadecimalPos.Unsigned.to_uint_nonnil. }
  rewrite !HexadecimalString.NilZero.usu in H by apply Hnn.
  injection H as H. by apply HexadecimalN.Unsigned.to_uint_inj.
Qed.

Lemma fmt_x64_inj (v v' : Z) : fmt_x64 v = fmt_x64 v' <-> wrap64 v = wrap64 v'.
Proof.
  unfold fmt_x64. split; [|by intros ->].
  intros H%hex_inj. apply Z2N.inj; [| |done]; unfold wrap64;
    apply Z.mod_pos_bound; done.
Qed.

Lemma fmt_x_inj (v v' : Z) :
  fmt_x v = fmt_x v' <-> v mod 2 ^ 32 = v' mod 2 ^ 32.
Proof.
  unfold fmt_x. split; [|by intros ->].
  intros H%hex_inj. apply Z2N.inj; [| |done]; apply Z.mod_pos_bound; done.
Qed.

Lemma fmt_d64_inj (v v' : Z) : fmt_d64 v = fmt_d64 v' <-> wrap64 v = wrap64 v'.
Proof.
  unfold fmt_d64. split; [|by intros ->].
  intros H. apply (f_equal DecimalString.NilZero.int_of_string) in H.
  assert (forall z, Z.to_int z <> Decimal.Pos Decimal.Nil /\
                    Z.to_int z <> Decimal.Neg Decimal.Nil) as Hnn.
  { intros [|q|q]; cbn; split; try done; intros [= Hq];
      by apply DecimalPos.Unsigned.to_uint_nonnil in Hq. }
  rewrite !DecimalString.NilZero.isi in H by apply Hnn.
  injection H as H. apply DecimalZ.to_int_inj in H.
  assert (0 <= wrap64 v < 2 ^ 64) by (apply Z.mod_pos_bound; done).
  assert (0 <= wrap64 v' < 2 ^ 64) by (apply Z.mod_pos_bound; done).
  destruct (decide (wrap64 v < 2 ^ 63)), (decide (wrap64 v' < 2 ^ 63)); lia.
Qed.

Lemma state_name_inj (s s' : State) : state_name s = state_name s' -> s = s'.
Proof. by destruct s, s'. Qed.

(** X13.  The text that [Thread::PrintDebug] writes, twelve strings,
    tells two threads apart exactly by their [id], their state, the address
    of their stack as [%p] prints it, the saved [rsp], [r15], [r14],
    [r13], [rbx] and [rbp], and the low 32 bits of [mxcsr] and [x87].  The
    saved [r12] is never read: the line labelled R12 carries the value of
    [r13], and threads that differ in [r12] only print the same text. *)
Theorem PrintDebug_shows_all_but_r12 (fmt_p : option Z -> string)
  (t t' : Thread) (out out' : list string) :
  PrintDebug fmt_p t = Some out ->
  PrintDebug fmt_p t' = Some out' ->
  (out = out' <->
   wrap64 (id t) = wrap64 (id t') /\
   state t = state t' /\
   fmt_p (base <$> stack t) = fmt_p (base <$> stack t') /\
   wrap64 <$> rsp (context t) = wrap64 <$> rsp (context t') /\
   wrap64 <$> r15 (context t) = wrap64 <$> r15 (context t') /\
   wrap64 <$> r14 (context t) = wrap64 <$> r14 (context t') /\
   wrap64 <$> r13 (context t) = wrap64 <$> r13 (context t') /\
   wrap64 <$> rbx (context t) = wrap64 <$> rbx (context t') /\
   wrap64 <$> rbp (context t) = wrap64 <$> rbp (context t') /\
   mxcsr (context t) mod 2 ^ 32 = mxcsr (context t') mod 2 ^ 32 /\
   x87 (context t) mod 2 ^ 32 = x87 (context t') mod 2 ^ 32) /\
  length out = 12%nat /\
  (exists v, r13 (context t) = Some v /\
     out !! 6%nat = Some (tab +:+ "R13: 0x" +:+ fmt_x64 v +:+ newline) /\
     out !! 7%nat = Some (tab +:+ "R12: 0x" +:+ fmt_x64 v +:+ newline)) /\
  (forall v, PrintDebug fmt_p (with_r12 v t) = Some out).
Proof.
  intros H H'.
  assert (forall v, PrintDebug fmt_p (with_r12 v t) = Some out) as Hr
    by (intros v; exact H).
  unfold PrintDebug in H, H'.
  destruct (rsp (context t)) as [a1|]; [|done].
  destruct (r15 (context t)) as [a2|]; [|done].
  destruct (r14 (context t)) as [a3|]; [|done].
  destruct (r13 (context t)) as [a4|]; [|done].
  destruct (rbx (context t)) as [a5|]; [|done].
  destruct (rbp (context t)) as [a6|]; [|done].
  destruct (rsp (context t')) as [b1|]; [|done].
  destruct (r15 (context t')) as [b2|]; [|done].
  destruct (r14 (context t')) as [b3|]; [|done].
  destruct (r13 (context t')) as [b4|]; [|done].
  destruct (rbx (context t')) as [b5|]; [|done].
  destruct (rbp (context t')) as [b6|]; [|done].
  cbn [mbind option_bind fmap option_fmap option_map] in *.
  injection H as <-. injection H' as <-.
  split; [|split; [reflexivity|split; [by exists a4|exact Hr]]].
  split.
  - intros [= H0 H1 H2 H3 H4 H5 H6 _ H8 H9 H10 H11].
    repeat apply (inj (String.append _)) in H0.
    apply string_app_inj_r, fmt_d64_inj in H0.
    apply state_name_inj in H1.
    repeat apply (inj (String.append _)) in H2. apply string_app_inj_r in H2.
    repeat apply (inj (String.append _)) in H3.
    apply string_app_inj_r, fmt_x64_inj in H3.
    repeat apply (inj (String.append _)) in H4.
    apply string_app_inj_r, fmt_x64_inj in H4.
    repeat apply (inj (String.append _)) in H5.
    apply string_app_inj_r, fmt_x64_inj in H5.
    repeat apply (inj (String.append _)) in H6.
    apply string_app_inj_r, fmt_x64_inj in H6.
    repeat apply (inj (String.append _)) in H8.
    apply string_app_inj_r, fmt_x64_inj in H8.
    repeat apply (inj (String.append _)) in H9.
    apply string_app_inj_r, fmt_x64_inj in H9.
    repeat apply (inj (String.append _)) in H10.
    apply string_app_inj_r, fmt_x_inj in H10.
    repeat apply (inj (String.append _)) in H11.
    apply string_app_inj_r, fmt_x_inj in H11.
    repeat split; congruence.
  - intros (H0 & H1 & H2 & [= H3] & [= H4] & [= H5] & [= H6] & [= H8]
            & [= H9] & H10 & H11).
    apply fmt_d64_inj in H0. apply fmt_x64_inj in H3, H4, H5, H6, H8, H9.
    apply fmt_x_inj in H10, H11. congruence.
Qed.

(** ** [initial_thread_id] *)

Lemma forget_initial_ids_idem (m : Machine) :
  forget_initial_ids (forget_initial_ids m) = forget_initial_ids m.
Proof.
  unfold forget_initial_ids. cbn. f_equal.
  rewrite <- list_fmap_compose. by apply list_fmap_ext.
Qed.

Lemma forget_set_kthread (i : nat) (kt kt' : KThread) (m m' : Machine) :
  forget_initial kt = forget_initial kt' ->
  forget_initial_ids m = forget_initial_ids m' ->
  forget_initial_ids (set_kthread i kt m)
  = forget_initial_ids (set_kthread i kt' m').
Proof.
  unfold forget_initial_ids, set_kthread. cbn. intros Hkt [=].
  rewrite !list_fmap_insert. congruence.
Qed.

Lemma forget_with_initial_ids (f : nat -> Z) (m : Machine) :
  forget_initial_ids (with_initial_ids f m) = forget_initial_ids m.
Proof.
  unfold forget_initial_ids, with_initial_ids. cbn. f_equal.
  rewrite fmap_imap. rewrite <- (imap_const forget_initial). by apply imap_ext.
Qed.

Lemma Yield_forget (i : nat) (only_ready : bool) (ret : bool -> Code)
  (m : Machine) :
  forget_initial_ids <$> Yield i only_ready ret (forget_initial_ids m)
  = forget_initial_ids <$> Yield i only_ready ret m.
Proof.
  unfold Yield.
  change (kthreads (forget_initial_ids m)) with (forget_initial <$> kthreads m).
  change (thread_queue (forget_initial_ids m)) with (thread_queue m).
  rewrite list_lookup_fmap.
  destruct (kthreads m !! i) as [kt|]; [|done]. cbn.
  destruct (find_next only_ready (thread_queue m)) as [[next rest]|].
  - destruct (current_thread kt) as [cur|]; [|done]. cbn. f_equal.
    apply forget_set_kthread; [done|].
    unfold forget_initial_ids. cbn. f_equal.
    rewrite <- list_fmap_compose. by apply list_fmap_ext.
  - cbn. f_equal. apply forget_set_kthread; [done|].
    apply forget_initial_ids_idem.
Qed.

Lemma Spawn_setup_forget (E : Platform) (fn arg : Z) (m : Machine) :
  Spawn_setup E fn arg (forget_initial_ids m)
  = (fun r => (r.1, forget_initial_ids r.2)) <$> Spawn_setup E fn arg m.
Proof.
  unfold Spawn_setup, Thread_new. cbn.
  by destruct (bool_decide (malloc E (mallocs m) = 0)).
Qed.

Lemma step_forget (E : Platform) (i : nat) (m : Machine) :
  forget_initial_ids <$> step E i (forget_initial_ids m)
  = forget_initial_ids <$> step E i m.
Proof.
  unfold step.
  change (aborted (forget_initial_ids m)) with (aborted m).
  destruct (aborted m); [cbn; f_equal; apply forget_initial_ids_idem|].
  change (kthreads (forget_initial_ids m)) with (forget_initial <$> kthreads m).
  rewrite list_lookup_fmap.
  destruct (kthreads m !! i) as [kt|]; [|done].
  cbn [fmap option_fmap option_map mbind option_bind forget_initial pc].
  assert (forall m0, forget_initial_ids (forget_initial_ids m0)
                     = forget_initial_ids m0) as Hid
    by apply forget_initial_ids_idem.
  destruct (pc kt).
  - cbn. f_equal. apply Hid.
  - cbn. f_equal. unfold forget_initial_ids. cbn. f_equal.
    rewrite <- list_fmap_compose. by apply list_fmap_ext.
  - cbn. f_equal. unfold Initialize, Thread_new. cbn.
    unfold forget_initial_ids, set_kthread. cbn. f_equal.
    rewrite !list_fmap_insert. f_equal.
    rewrite <- list_fmap_compose. by apply list_fmap_ext.
  - unfold Spawn. rewrite Spawn_setup_forget.
    destruct (Spawn_setup E fn arg m) as [[t m1]|]; [|done]. cbn.
    apply Yield_forget.
  - apply Yield_forget.
  - cbn. destruct (current_thread kt) as [cur|]; [|done]. cbn. f_equal.
    apply forget_set_kthread; [done|].
    unfold forget_initial_ids. cbn. f_equal.
    rewrite <- list_fmap_compose. by apply list_fmap_ext.
  - cbn. f_equal. apply forget_set_kthread; [done|].
    unfold forget_initial_ids, GarbageCollect. cbn.
    destruct (reap (thread_queue m)) as [kept destroyed]. cbn. f_equal.
    rewrite <- list_fmap_compose. by apply list_fmap_ext.
  - cbn. f_equal. apply forget_set_kthread; [done|].
    unfold forget_initial_ids. cbn. f_equal.
    rewrite <- list_fmap_compose. by apply list_fmap_ext.
  - cbn. f_equal. apply forget_set_kthread; [done|].
    unfold forget_initial_ids. cbn. f_equal.
    rewrite <- list_fmap_compose. by apply list_fmap_ext.
  - cbn. f_equal. apply forget_set_kthread; [done|].
    unfold forget_initial_ids. cbn. f_equal.
    rewrite <- list_fmap_compose. by apply list_fmap_ext.
  - cbn. destruct (current_thread kt) as [cur|]; [|done]. cbn. f_equal.
    apply forget_set_kthread; [done|].
    unfold forget_initial_ids. cbn. f_equal.
    rewrite <- list_fmap_compose. by apply list_fmap_ext.
  - apply Yield_forget.
  - unfold StartThread. cbn.
    destruct (current_thread kt) as [cur|]; [|done]. cbn.
    destruct (stack cur) as [buf|]; [|done]. cbn.
    destruct (rsp (context cur)) as [sp|]; [|done]. cbn.
    destruct (slots buf !! ((sp - base buf) / 8 + 1)); [|done]. cbn.
    destruct (slots buf !! ((sp - base buf) / 8 + 2)); [|done]. cbn.
    f_equal. apply forget_set_kthread; [done|]. apply Hid.
Qed.

Lemma run_forget (E : Platform) (schedule : list nat) (m1 m2 : Machine) :
  forget_initial_ids m1 = forget_initial_ids m2 ->
  forget_initial_ids <$> run E schedule m1
  = forget_initial_ids <$> run E schedule m2.
Proof.
  revert m1 m2. induction schedule as [|i schedule IH]; intros m1 m2 Heq.
  - cbn. by f_equal.
  - cbn [run].
    pose proof (step_forget E i m1) as H1.
    pose proof (step_forget E i m2) as H2.
    rewrite Heq, H2 in H1.
    destruct (step E i m1) as [n1|], (step E i m2) as [n2|]; try done.
    apply IH. symmetry. by apply (inj Some).
Qed.

(** X14.  [initial_thread_id] is written by [Initialize] and never read:
    whatever values the [initial_thread_id]s of the kernel threads hold, a
    run from there fails or succeeds alike, and leads to the same queue,
    current threads, code, memory and events.  Nothing in the scheduler
    tells the initial thread of a kernel thread from any other thread. *)
Theorem initial_thread_id_is_never_read (E : Platform) (schedule : list nat)
  (f : nat -> Z) (m : Machine) :
  forget_initial_ids <$> run E schedule (with_initial_ids f m)
  = forget_initial_ids <$> run E schedule m.
Proof. apply run_forget, forget_with_initial_ids. Qed.

(** ** The stacks are freed once *)

Lemma stacks_app (l k : list Thread) : stacks (l ++ k) = stacks l ++ stacks k.
Proof. apply omap_app. Qed.

#[global] Instance stacks_Permutation :
  Proper (Permutation ==> Permutation) stacks.
Proof. unfold stacks. apply omap_Permutation. Qed.

Lemma stacks_cons (t : Thread) (l : list Thread) :
  stacks (t :: l) = stacks [t] ++ stacks l.
Proof. apply (stacks_app [t] l). Qed.

Lemma freed_app (l k : list Event) : freed (l ++ k) = freed l ++ freed k.
Proof. apply omap_app. Qed.

Lemma freed_switch_events (i : nat) (cur next : Thread) :
  freed (switch_events i cur next) = [].
Proof.
  unfold switch_events. by destruct (bool_decide (state cur = kRunning)).
Qed.

Lemma freed_destroy (t : Thread) : freed (destroy t) = stacks [t].
Proof. unfold destroy, stacks. cbn. by destruct (stack t). Qed.

Lemma stacks_GarbageCollect (queue : list Thread) :
  stacks (filter (fun t => state t <> kZombie) queue)
  ++ freed (flat_map (fun t => destroy t ++ [EvErase (serial t)])
              (filter (fun t => state t = kZombie) queue))
  ≡ₚ stacks queue.
Proof.
  induction queue as [|t queue IH]; [done|].
  rewrite !filter_cons.
  destruct (decide (state t = kZombie)) as [Hz|Hz].
  - destruct (decide (state t <> kZombie)) as [?|_]; [done|].
    cbn [flat_map]. rewrite !freed_app, freed_destroy.
    change (freed [EvErase (serial t)]) with (@nil Z). rewrite app_nil_r.
    rewrite (stacks_cons t queue), <- IH.
    apply Permutation_app_swap_app.
  - destruct (decide (state t <> kZombie)) as [_|?]; [|done].
    rewrite (stacks_cons t queue), (stacks_cons t (filter _ queue)), <- IH.
    by rewrite app_assoc.
Qed.

Lemma heap_update (m m' : Machine) (i : nat) (kt kt' : KThread) :
  kthreads m !! i = Some kt ->
  kthreads m' = <[i := kt']> (kthreads m) ->
  exists others,
    heap m ≡ₚ stacks (thread_queue m)
               ++ stacks (option_list (current_thread kt))
               ++ freed (trace m) ++ others /\
    heap m' ≡ₚ stacks (thread_queue m')
                ++ stacks (option_list (current_thread kt'))
                ++ freed (trace m') ++ others.
Proof.
  intros Hkt Hk'.
  destruct (running_update _ _ _ Hkt) as (others & H1 & H2).
  exists (stacks others). unfold heap, live, stacks. split.
  - rewrite H1, !omap_app. rewrite <- !app_assoc. do 2 f_equiv.
    apply Permutation_app_comm.
  - rewrite Hk', H2, !omap_app. rewrite <- !app_assoc. do 2 f_equiv.
    apply Permutation_app_comm.
Qed.

Section Heap.

Context (E : Platform).

(** [malloc] does not hand out the same address twice. *)
Hypothesis malloc_fresh :
  forall n n', malloc E n = malloc E n' -> malloc E n <> 0 -> n = n'.

Lemma heap_ok_same (m m' : Machine) :
  heap_ok E m -> heap m' ≡ₚ heap m -> mallocs m' = mallocs m -> heap_ok E m'.
Proof.
  intros [Hnd Hall] Hp Hm. unfold heap_ok. by rewrite Hp, Hm.
Qed.

Lemma heap_ok_local (m m' : Machine) (i : nat) (kt kt' : KThread)
  (evs : list Event) :
  heap_ok E m ->
  kthreads m !! i = Some kt ->
  kthreads m' = <[i := kt']> (kthreads m) ->
  thread_queue m' = thread_queue m ->
  mallocs m' = mallocs m ->
  trace m' = trace m ++ evs ->
  freed evs = [] ->
  stack <$> current_thread kt' = stack <$> current_thread kt ->
  heap_ok E m'.
Proof.
  intros Hok Hkt Hk' Hq Hm Ht Hevs Hs.
  destruct (heap_update m m' i kt kt' Hkt Hk') as (others & H1 & H2).
  apply (heap_ok_same m); [done| |done].
  rewrite H1, H2, Hq, Ht, freed_app, Hevs, app_nil_r.
  replace (stacks (option_list (current_thread kt')))
    with (stacks (option_list (current_thread kt))); [done|].
  unfold stacks.
  destruct (current_thread kt), (current_thread kt'); cbn in *; try done.
  injection Hs as ->. done.
Qed.

Lemma heap_ok_Yield (i : nat) (only_ready : bool) (ret : bool -> Code)
  (m m' : Machine) :
  heap_ok E m -> Yield i only_ready ret m = Some m' -> heap_ok E m'.
Proof.
  intros Hok (kt & Hkt & [[Hf ->]|(cur & next & rest & Hcur & Hf & ->)])%Yield_inv.
  - eapply (heap_ok_local m _ i kt _ []); try done.
    by rewrite app_nil_r.
  - match goal with
    | |- heap_ok E ?M =>
        destruct (heap_update m M i kt _ Hkt eq_refl) as (others & H1 & H2)
    end.
    apply (heap_ok_same m); [done| |done].
    rewrite H1, H2. cbn [thread_queue trace set_kthread set_queue emit
                         current_thread option_list].
    rewrite Hcur, freed_app, freed_switch_events, app_nil_r.
    rewrite (find_next_Permutation _ _ _ _ Hf).
    rewrite stacks_app. cbn [option_list].
    rewrite (stacks_cons next rest).
    assert (stacks [set_resume (cGarbageCollect (ret true)) (demote cur)]
            = stacks [cur]) as ->.
    { unfold stacks, demote. cbn.
      by destruct (bool_decide (state cur = kRunning)). }
    change (stacks [set_state kRunning next]) with (stacks [next]).
    rewrite <- !app_assoc.
    rewrite (Permutation_app_comm (stacks [next]) (stacks rest ++ _)).
    rewrite <- !app_assoc. f_equiv. f_equiv; [done|].
    rewrite Permutation_app_comm. by rewrite <- app_assoc.
Qed.

Lemma heap_ok_Spawn_setup (fn arg : Z) (m m' : Machine) (t : Thread) :
  heap_ok E m -> Spawn_setup E fn arg m = Some (t, m') -> heap_ok E m'.
Proof.
  intros [Hnd Hall] Hs.
  destruct (decide (malloc E (mallocs m) = 0)) as [Hz|Hnull].
  { unfold Spawn_setup, Thread_new in Hs. cbn in Hs.
    by rewrite bool_decide_eq_true_2 in Hs by done. }
  rewrite Spawn_setup_eq in Hs by done. cbv zeta in Hs.
  injection Hs as <- <-.
  match goal with
  | |- heap_ok E ?M =>
      assert (heap M = malloc E (mallocs m) :: heap m) as Hheap
  end.
  { unfold heap, live. cbn. rewrite freed_app. cbn. by rewrite app_nil_r. }
  rewrite Forall_forall in Hall.
  unfold heap_ok.
  rewrite Hheap. cbn [mallocs]. split.
  - constructor; [|done]. intros Hin.
    destruct (Hall _ Hin) as (n & Hn & Heq).
    apply malloc_fresh in Heq; [lia|done].
  - constructor; [exists (mallocs m); split; [lia|done]|].
    apply Forall_forall. intros a Ha.
    destruct (Hall a Ha) as (n & Hn & ->). exists n. split; [lia|done].
Qed.

Lemma heap_ok_Initialize (i : nat) (k : Code) (kt : KThread) (m : Machine) :
  heap_ok E m -> kthreads m !! i = Some kt ->
  heap_ok E (Initialize E i k kt m).
Proof.
  intros Hok Hkt.
  edestruct (heap_update m (Initialize E i k kt m)) as (others & H1 & H2);
    [exact Hkt|reflexivity|].
  apply (heap_ok_same m); [done| |done].
  rewrite H1, H2.
  change (thread_queue (Initialize E i k kt m)) with (thread_queue m).
  change (trace (Initialize E i k kt m))
    with (trace m ++ match current_thread kt with
                     | Some old => destroy old
                     | None => []
                     end).
  f_equiv. cbn [current_thread option_list]. rewrite freed_app.
  change (stacks (option_list (Some (set_state kWaiting _)))) with (@nil Z).
  cbn [app].
  destruct (current_thread kt) as [old|]; cbn [option_list].
  - rewrite freed_destroy. rewrite !app_assoc. f_equiv.
    apply Permutation_app_comm.
  - change (freed []) with (@nil Z). by rewrite app_nil_r.
Qed.

Lemma heap_ok_GarbageCollect (i : nat) (kt kt' : KThread) (m : Machine) :
  heap_ok E m -> kthreads m !! i = Some kt ->
  current_thread kt' = current_thread kt ->
  heap_ok E (set_kthread i kt' (GarbageCollect m)).
Proof.
  intros Hok Hkt Hcur. rewrite GarbageCollect_eq.
  match goal with
  | |- heap_ok E ?M =>
      destruct (heap_update m M i kt kt' Hkt eq_refl) as (others & H1 & H2)
  end.
  apply (heap_ok_same m); [done| |done].
  rewrite H1, H2. cbn [thread_queue trace set_kthread set_queue emit].
  rewrite Hcur, freed_app.
  rewrite <- (stacks_GarbageCollect (thread_queue m)).
  rewrite <- !app_assoc. f_equiv.
  symmetry. rewrite Permutation_app_swap_app. f_equiv.
  apply Permutation_app_swap_app.
Qed.

Lemma heap_ok_step (i : nat) (m m' : Machine) :
  heap_ok E m -> step E i m = Some m' -> heap_ok E m'.
Proof.
  intros Hok Hs.
  destruct (aborted m) eqn:Ha;
    [unfold step in Hs; rewrite Ha in Hs; by injection Hs as <-|].
  destruct (kthreads m !! i) as [kt|] eqn:Hkt;
    [|by unfold step in Hs; rewrite Ha, Hkt in Hs].
  rewrite (step_running E i m kt Ha Hkt) in Hs.
  destruct (pc kt) eqn:Hpc.
  - by injection Hs as <-.
  - injection Hs as <-. apply (heap_ok_same m); [done| |done].
    unfold heap, live. cbn. by rewrite freed_app, app_nil_r.
  - injection Hs as <-. by apply heap_ok_Initialize.
  - unfold Spawn in Hs.
    destruct (Spawn_setup E fn arg m) as [[t m1]|] eqn:Hset; [|done].
    cbn in Hs. eapply heap_ok_Yield; [|exact Hs].
    by eapply heap_ok_Spawn_setup.
  - by eapply heap_ok_Yield.
  - destruct (current_thread kt) as [cur|] eqn:Hcur; [|done].
    injection Hs as <-.
    eapply (heap_ok_local m _ i kt _ [EvSetState (serial cur) kWaiting]);
      [done|done|reflexivity|reflexivity|reflexivity|reflexivity|reflexivity|].
    by rewrite Hcur.
  - injection Hs as <-. by apply (heap_ok_GarbageCollect i kt).
  - injection Hs as <-.
    eapply (heap_ok_local m _ i kt _ [EvLock; EvUnlock]);
      [done|done|reflexivity|reflexivity|reflexivity|reflexivity|reflexivity|].
    done.
  - injection Hs as <-.
    eapply (heap_ok_local m _ i kt _ []);
      [done|done|reflexivity|reflexivity|reflexivity| |reflexivity|].
    + cbn. by rewrite app_nil_r.
    + done.
  - injection Hs as <-.
    eapply (heap_ok_local m _ i kt _ [EvOutput v]);
      [done|done|reflexivity|reflexivity|reflexivity|reflexivity|reflexivity|].
    done.
  - destruct (current_thread kt) as [cur|] eqn:Hcur; [|done].
    injection Hs as <-.
    eapply (heap_ok_local m _ i kt _ [EvSetState (serial cur) s]);
      [done|done|reflexivity|reflexivity|reflexivity|reflexivity|reflexivity|].
    by rewrite Hcur.
  - by eapply heap_ok_Yield.
  - unfold StartThread in Hs.
    option_inv Hs. injection Hs as <-.
    eapply (heap_ok_local m _ i kt _ []);
      [done|done|reflexivity|reflexivity|reflexivity| |reflexivity|].
    + cbn. by rewrite app_nil_r.
    + done.
Qed.

Lemma heap_ok_run (schedule : list nat) (m m' : Machine) :
  heap_ok E m -> run E schedule m = Some m' -> heap_ok E m'.
Proof.
  revert m. induction schedule as [|i schedule IH]; intros m Hok Hr.
  - by injection Hr as <-.
  - cbn in Hr. destruct (step E i m) as [m1|] eqn:Hs; [|done].
    eapply IH; [|exact Hr]. by eapply heap_ok_step.
Qed.

End Heap.

Lemma heap_ok_boot (E : Platform) (mains : list Code) : heap_ok E (boot mains).
Proof.
  assert (heap (boot mains) = []) as Hh.
  { unfold heap. rewrite live_boot. done. }
  unfold heap_ok. rewrite Hh. split; constructor.
Qed.

(** X15.  As long as [malloc] does not hand out an address twice: in every
    state that a run reaches, no address has been freed twice, only
    addresses that [malloc] returned have been freed, no thread that exists
    has a stack that was freed, and no two threads that exist share a
    stack. *)
Theorem stacks_are_freed_once (E : Platform) (mains : list Code)
  (schedule : list nat) (m : Machine) :
  (forall n n', malloc E n = malloc E n' -> malloc E n <> 0 -> n = n') ->
  run E schedule (boot mains) = Some m ->
  NoDup (freed (trace m)) /\
  (forall a, a ∈ freed (trace m) ->
             exists n, (n < mallocs m)%nat /\ a = malloc E n) /\
  (forall t buf, t ∈ live m -> stack t = Some buf ->
                 base buf ∉ freed (trace m)) /\
  NoDup (stacks (live m)).
Proof.
  intros Hfresh Hrun.
  assert (heap_ok E m) as [Hnd Hall]
    by (eapply heap_ok_run; [done|apply heap_ok_boot|exact Hrun]).
  unfold heap in Hnd, Hall.
  apply NoDup_app in Hnd as (Hs & Hdisj & Hf).
  apply Forall_app in Hall as [_ Hall]. rewrite Forall_forall in Hall.
  split; [done|]. split; [done|]. split; [|done].
  intros t buf Ht Hst. apply Hdisj.
  apply list_elem_of_omap. exists t. split; [done|]. by rewrite Hst.
Qed.

(** ** The queue is served in turn *)

Lemma last_position {A : Type} (f : A -> nat) (before after pre : list A)
  (x y : A) :
  before ++ x :: after = pre ++ [y] ->
  f x = f y ->
  NoDup (f <$> (pre ++ [y])) ->
  after = [].
Proof.
  intros Heq Hf Hnd. destruct after as [|a after]; [done|]. exfalso.
  assert (y ∈ a :: after) as Hy.
  { apply last_Some_elem_of.
    rewrite <- (last_app_cons (before ++ [x]) after a), <- app_assoc.
    cbn [app]. rewrite Heq. apply last_snoc. }
  rewrite <- Heq, fmap_app, fmap_cons in Hnd.
  apply NoDup_app in Hnd as (_ & _ & Hnd).
  apply NoDup_cons in Hnd as [Hx _]. apply Hx.
  rewrite Hf. by apply list_elem_of_fmap_2.
Qed.

(** X16.  The queue is served in turn.  In a state that a run reaches, a
    thread that [Yield] has suspended goes to the back of the queue, and a
    later [Yield], on any kernel thread and with either argument, that
    finds the queue as it was left, selects that thread only when no other
    thread of the queue is eligible. *)
Theorem Yield_serves_the_queue_in_turn (E : Platform) (mains : list Code)
  (schedule : list nat) (m m' : Machine) (i : nat) (only_ready : bool)
  (ret : bool -> Code) (kt : KThread) (cur : Thread) :
  run E schedule (boot mains) = Some m ->
  kthreads m !! i = Some kt ->
  current_thread kt = Some cur ->
  is_Some (find_next only_ready (thread_queue m)) ->
  Yield i only_ready ret m = Some m' ->
  (exists suspended,
      last (thread_queue m') = Some suspended /\
      serial suspended = serial cur) /\
  forall only_ready' next rest,
    find_next only_ready' (thread_queue m') = Some (next, rest) ->
    serial next = serial cur ->
    Forall (fun u => eligible only_ready' u = false) rest.
Proof.
  intros Hrun Hkt Hcur [[next0 rest0] Hf0] HY.
  assert (wf m) as Hwf by (eapply wf_run; [apply wf_boot|exact Hrun]).
  assert (wf m') as (Hnd & _) by (by eapply wf_Yield).
  rewrite (Yield_Some i only_ready ret m kt cur next0 rest0 Hkt Hcur Hf0) in HY.
  injection HY as <-. cbn [thread_queue set_kthread set_queue] in *.
  split.
  - eexists. split; [apply last_snoc|]. apply demote_serial.
  - intros b next rest Hf Hs.
    apply find_next_Some in Hf as (bf & af & Heq & -> & Hbf & _).
    unfold owned in Hnd. cbn [thread_queue set_kthread set_queue] in Hnd.
    rewrite fmap_app in Hnd. apply NoDup_app in Hnd as (Hnd & _).
    rewrite (last_position serial bf af rest0 next _ (eq_sym Heq));
      [by rewrite app_nil_r| |done].
    rewrite Hs. symmetry. apply demote_serial.
Qed.

(** ** The further theorems at work on the scenarios *)

(** With the default argument true, [Spawn] leaves its thread in the queue
    and the [Yield(false)] that follows exchanges it for the caller. *)
Lemma Yield_keeps_queue_length_witness :
  length (thread_queue (after (demo_platform true) [0; 0]%nat two_kthreads))
  = S (length (thread_queue
                 (after (demo_platform true) [0]%nat two_kthreads))) /\
  length (thread_queue
            (after (demo_platform true) [0; 0; 0]%nat two_kthreads))
  = length (thread_queue
              (after (demo_platform true) [0; 0]%nat two_kthreads)).
Proof.
  split.
  - apply (proj2 (Yield_keeps_queue_length (demo_platform true) 0
                    (after (demo_platform true) [0]%nat two_kthreads)
                    (after (demo_platform true) [0; 0]%nat two_kthreads))
             bump_fn counter_addr (cYield (Some false) (fun _ => Ret))).
    vm_compute. reflexivity.
  - apply (proj1 (Yield_keeps_queue_length (demo_platform true) 0
                    (after (demo_platform true) [0; 0]%nat two_kthreads)
                    (after (demo_platform true) [0; 0; 0]%nat two_kthreads))
             false (fun _ => Ret)).
    vm_compute. reflexivity.
Defined.

(** A kernel thread that has called [Initialize] can call [Wait]; one that
    has not can call [Yield] while the queue is empty. *)
Lemma Yield_defined_iff_witness :
  is_Some (step (demo_platform true) 0
             (after (demo_platform true) [0]%nat [cInitialize (cWait Ret)])) /\
  is_Some (Yield 0 false (fun _ => Ret)
             (boot [cYield (Some false) (fun _ => Ret)])).
Proof.
  split.
  - apply (proj2 (Yield_defined_iff (demo_platform true) 0 true (fun _ => Ret)
                    (after (demo_platform true) [0]%nat
                           [cInitialize (cWait Ret)]))
             (kthread_at
                (after (demo_platform true) [0]%nat [cInitialize (cWait Ret)])
                0)
             Ret);
      [vm_compute; reflexivity..|].
    vm_compute. eexists. reflexivity.
  - apply (proj1 (Yield_defined_iff (demo_platform true) 0 false
                    (fun _ => Ret)
                    (boot [cYield (Some false) (fun _ => Ret)]))).
    eexists. split; [vm_compute; reflexivity|]. right. constructor.
Defined.

(** [Initialize], [Spawn] with the default argument true, then [Wait]: the
    spawned thread is Waiting in the queue, and [Wait] returns at once. *)
Lemma Wait_returns_at_once_witness :
  exists m',
    run (demo_platform true) [0; 0]%nat
      (after (demo_platform true) [0; 0]%nat
         [cInitialize (cSpawn bump_fn counter_addr (cWait Ret))])
    = Some m' /\
    pc (kthread_at m' 0) = Ret /\
    state (current_at m' 0) = kWaiting /\
    length (thread_queue m') = 1%nat.
Proof.
  eexists. split.
  - apply (Wait_returns_at_once (demo_platform true) 0 Ret
             (after (demo_platform true) [0; 0]%nat
                [cInitialize (cSpawn bump_fn counter_addr (cWait Ret))])
             (kthread_at
                (after (demo_platform true) [0; 0]%nat
                   [cInitialize (cSpawn bump_fn counter_addr (cWait Ret))]) 0)
             (current_at
                (after (demo_platform true) [0; 0]%nat
                   [cInitialize (cSpawn bump_fn counter_addr (cWait Ret))]) 0));
      [vm_compute; reflexivity..|].
    vm_compute. constructor; [discriminate|constructor].
  - vm_compute. repeat split.
Defined.

(** Two kernel threads, three threads: their identifiers differ. *)
Lemma thread_ids_are_unique_witness :
  length (live (after (demo_platform true) [0; 0; 0; 1; 1]%nat two_kthreads))
  = 3%nat /\
  NoDup (id <$> live (after (demo_platform true) [0; 0; 0; 1; 1]%nat
                        two_kthreads)).
Proof.
  split; [reflexivity|].
  destruct (thread_ids_are_unique (demo_platform true) two_kthreads
              [0; 0; 0; 1; 1]%nat
              (after (demo_platform true) [0; 0; 0; 1; 1]%nat two_kthreads))
    as (_ & _ & H); [vm_compute; reflexivity|].
  apply H. vm_compute. discriminate.
Defined.

Lemma threads_are_owned_once_witness :
  NoDup (serial <$> live (after (demo_platform true) [0; 0; 0; 1; 1]%nat
                            two_kthreads)) /\
  (length (live (after (demo_platform true) [0; 0; 0; 1; 1]%nat two_kthreads))
   <= created (after (demo_platform true) [0; 0; 0; 1; 1]%nat two_kthreads))%nat.
Proof.
  destruct (threads_are_owned_once (demo_platform true) two_kthreads
              [0; 0; 0; 1; 1]%nat
              (after (demo_platform true) [0; 0; 0; 1; 1]%nat two_kthreads))
    as (H1 & _ & H2 & _); [vm_compute; reflexivity|].
  split; [exact H1|]. unfold live. rewrite length_app. exact H2.
Defined.

(** The counter scenario with the default argument false: when [Spawn]
    returns, six steps later, the counter is 1 and the queue is empty. *)
Lemma Spawn_runs_counting_function_witness :
  exists m',
    run (demo_platform false) (replicate 6 0%nat)
      (after (demo_platform false) [0]%nat [counter_scenario 0])
    = Some m' /\
    cells m' counter_addr = 1%nat /\
    thread_queue m' = [] /\
    pc (kthread_at m' 0) = report.
Proof.
  destruct (Spawn_runs_counting_function (demo_platform false) 0
              bump_fn counter_addr report [counter_addr]
              (after (demo_platform false) [0]%nat [counter_scenario 0])
              (kthread_at
                 (after (demo_platform false) [0]%nat [counter_scenario 0]) 0)
              (current_at
                 (after (demo_platform false) [0]%nat [counter_scenario 0]) 0))
    as (m' & Hrun & Hk & Hq & Hc & _);
    [reflexivity|vm_compute; reflexivity|vm_compute; reflexivity
    |vm_compute; discriminate|reflexivity|vm_compute; reflexivity
    |vm_compute; reflexivity|vm_compute; reflexivity|vm_compute; discriminate
    |constructor|].
  exists m'. split; [exact Hrun|]. split; [by rewrite Hc|].
  split; [by rewrite Hq|].
  unfold kthread_at. by rewrite Hk.
Defined.

(** The counter scenario with the default argument false, at its end. *)
Lemma ThreadEntry_assertion_unreachable_witness :
  aborted (after (demo_platform false) (replicate 14 0%nat)
             [counter_scenario 2]) = false /\
  outputs (trace (after (demo_platform false) (replicate 14 0%nat)
                    [counter_scenario 2])) = [0; 0; 0; 0].
Proof.
  split; [|vm_compute; reflexivity].
  apply (ThreadEntry_assertion_unreachable (demo_platform false)
           [counter_scenario 2] (replicate 14 0%nat)
           (after (demo_platform false) (replicate 14 0%nat)
              [counter_scenario 2])).
  - reflexivity.
  - intros fn arg. cbn. destruct (bool_decide (fn = bump_fn));
      repeat constructor.
  - constructor; [|constructor]. eexists. split; [reflexivity|].
    repeat (constructor; intros).
  - vm_compute. reflexivity.
Defined.

(** With the default argument true the only other thread, the initial one,
    is Waiting when the spawned thread ends: the assertion fails. *)
Lemma ThreadEntry_aborts_when_nothing_is_eligible_witness :
  exists m',
    run (demo_platform true) [0; 0; 0]%nat
      (after (demo_platform true) [0; 0; 0; 0; 0]%nat two_kthreads)
    = Some m' /\
    aborted m' = true /\
    last (trace m') = Some (EvAbort (Some 1%nat)).
Proof.
  destruct (ThreadEntry_aborts_when_nothing_is_eligible (demo_platform true) 0
              (after (demo_platform true) [0; 0; 0; 0; 0]%nat two_kthreads)
              (kthread_at
                 (after (demo_platform true) [0; 0; 0; 0; 0]%nat two_kthreads)
                 0)
              (current_at
                 (after (demo_platform true) [0; 0; 0; 0; 0]%nat two_kthreads)
                 0))
    as (m' & Hrun & Ha & _ & _ & Ht & _);
    [vm_compute; reflexivity..|vm_compute; repeat constructor|].
  exists m'. split; [exact Hrun|]. split; [exact Ha|].
  rewrite Ht. vm_compute. reflexivity.
Defined.

(** The counter scenario with the default argument false: two steps after
    [Initialize] the kernel thread is about to add 1 to the counter. *)
Lemma Spawn_enters_function_with_its_argument_witness :
  exists m',
    run (demo_platform false) [0; 0]%nat
      (after (demo_platform false) [0]%nat [counter_scenario 0])
    = Some m' /\
    pc (kthread_at m' 0) = cBump counter_addr thread_exit.
Proof.
  destruct (Spawn_enters_function_with_its_argument (demo_platform false) 0
              bump_fn counter_addr report
              (after (demo_platform false) [0]%nat [counter_scenario 0])
              (kthread_at
                 (after (demo_platform false) [0]%nat [counter_scenario 0]) 0)
              (current_at
                 (after (demo_platform false) [0]%nat [counter_scenario 0]) 0))
    as (t & m1 & m' & _ & _ & _ & Hrun & Hk & _);
    [reflexivity|vm_compute; reflexivity|vm_compute; discriminate
    |reflexivity|vm_compute; reflexivity|vm_compute; reflexivity
    |vm_compute; reflexivity|].
  exists m'. split; [exact Hrun|].
  unfold kthread_at. by rewrite Hk.
Defined.

(** A thread with 13 in [r13] and 12 in [r12]: its R12 line reads 0xd,
    and with 99 in [r12] it prints the same. *)
Lemma PrintDebug_shows_all_but_r12_witness :
  exists out,
    PrintDebug (fun _ => "(nil)")
      (mkThread 3 kReady None
         (mkContext (Some 1) (Some 2) (Some 3) (Some 13) (Some 12) (Some 5)
                    (Some 6) 0x1F80 0x037F) 3 Ret)
    = Some out /\
    out !! 7%nat = Some (tab +:+ "R12: 0xd" +:+ newline) /\
    PrintDebug (fun _ => "(nil)")
      (with_r12 (Some 99)
         (mkThread 3 kReady None
            (mkContext (Some 1) (Some 2) (Some 3) (Some 13) (Some 12) (Some 5)
                       (Some 6) 0x1F80 0x037F) 3 Ret))
    = Some out.
Proof.
  eexists. split; [vm_compute; reflexivity|].
  destruct (PrintDebug_shows_all_but_r12 (fun _ => "(nil)")
              (mkThread 3 kReady None
                 (mkContext (Some 1) (Some 2) (Some 3) (Some 13) (Some 12)
                            (Some 5) (Some 6) 0x1F80 0x037F) 3 Ret)
              (mkThread 3 kReady None
                 (mkContext (Some 1) (Some 2) (Some 3) (Some 13) (Some 12)
                            (Some 5) (Some 6) 0x1F80 0x037F) 3 Ret)
              _ _ eq_refl eq_refl) as (_ & _ & (v & Hv & _ & H7) & Hr).
  split; [injection Hv as <-; exact H7|apply Hr].
Defined.

(** Three threads: five steps in, the third is running, the initial thread
    is Waiting at the front of the queue and the second thread is Ready
    behind it.  The third calls [Yield(true)]: it goes to the back, and a
    [Yield(true)] that finds this queue selects it, with the initial thread
    (Waiting, not eligible) left in front of it. *)
Lemma Yield_serves_the_queue_in_turn_witness :
  exists next rest,
    find_next true
      (thread_queue (after nested_platform (replicate 6 0%nat) nested_scenario))
    = Some (next, rest) /\
    serial next = 2%nat /\
    length rest = 1%nat /\
    Forall (fun u => eligible true u = false) rest.
Proof.
  eexists _, _. split; [vm_compute; reflexivity|].
  split; [reflexivity|]. split; [reflexivity|].
  eapply (proj2 (Yield_serves_the_queue_in_turn nested_platform
                   nested_scenario (replicate 5 0%nat)
                   (after nested_platform (replicate 5 0%nat) nested_scenario)
                   (after nested_platform (replicate 6 0%nat) nested_scenario)
                   0 true (fun _ => thread_exit)
                   (kthread_at
                      (after nested_platform (replicate 5 0%nat)
                             nested_scenario) 0)
                   (current_at
                      (after nested_platform (replicate 5 0%nat)
                             nested_scenario) 0)
                   ltac:(vm_compute; reflexivity)
                   ltac:(vm_compute; reflexivity)
                   ltac:(vm_compute; reflexivity)
                   ltac:(vm_compute; eexists; reflexivity)
                   ltac:(vm_compute; reflexivity)) true).
  - vm_compute. reflexivity.
  - reflexivity.
Defined.

(** The counter scenario: the one stack that was allocated is freed, once,
    when the original thread resumes in [Spawn]. *)
Lemma stacks_are_freed_once_witness :
  freed (trace (after (demo_platform false) (replicate 7 0%nat)
                  [counter_scenario 0]))
  = [0x7f0000000000] /\
  NoDup (freed (trace (after (demo_platform false) (replicate 7 0%nat)
                         [counter_scenario 0]))) /\
  stacks (live (after (demo_platform false) (replicate 7 0%nat)
                  [counter_scenario 0])) = [].
Proof.
  split; [vm_compute; reflexivity|]. split; [|vm_compute; reflexivity].
  apply (stacks_are_freed_once (demo_platform false) [counter_scenario 0]
           (replicate 7 0%nat)
           (after (demo_platform false) (replicate 7 0%nat)
              [counter_scenario 0])).
  - intros n n' H _. cbn [malloc demo_platform] in H.
    change kStackSize with 2097152 in H. lia.
  - vm_compute. reflexivity.
Defined.
